(** * pyflyby [_py.py]: argument interpretation and dispatch core

    A shallow embedding of [lib/python/pyflyby/_py.py]: the mode
    resolvers, the value-or-string parser, the signature-driven argument
    binder, [auto_apply], [SysArgvCtx], the result printer and the action
    dispatcher, with the properties of the specification stated over them.

    Python objects are an inductive type [value]; exceptions are an
    inductive type [exn]; every effectful function is a state transformer
    over [world] that returns [Ok v] or [Raise e]. *)

From Stdlib Require Import ZArith Ascii String PrimFloat.
From stdpp Require Import base tactics option list functions gmap strings pretty sorting relations.

Local Open Scope string_scope.
Local Open Scope list_scope.

(** ** Python [str] methods used by the source *)

Module PyStr.

(** The characters removed by [str.strip()]: space, \t, \n, \v, \f, \r. *)
Definition is_space (c : ascii) : bool :=
  let n := N_of_ascii c in
  ((n =? 32) || ((9 <=? n) && (n <=? 13)))%N.

Fixpoint lstrip (s : string) : string :=
  match s with
  | EmptyString => EmptyString
  | String c s' => if is_space c then lstrip s' else s
  end.

Fixpoint rstrip (s : string) : string :=
  match s with
  | EmptyString => EmptyString
  | String c s' =>
      match rstrip s' with
      | EmptyString => if is_space c then EmptyString else String c EmptyString
      | r => String c r
      end
  end.

Definition strip (s : string) : string := rstrip (lstrip s).

Definition lower_char (c : ascii) : ascii :=
  let n := N_of_ascii c in
  if ((65 <=? n) && (n <=? 90))%N then ascii_of_N (n + 32) else c.

Fixpoint lower (s : string) : string :=
  match s with
  | EmptyString => EmptyString
  | String c s' => String (lower_char c) (lower s')
  end.

(** [s.replace(c, "")] for a one-character [c]. *)
Fixpoint remove_char (c : ascii) (s : string) : string :=
  match s with
  | EmptyString => EmptyString
  | String d s' => if Ascii.eqb d c then remove_char c s' else String d (remove_char c s')
  end.

(** [s.replace(c, d)] for one-character [c] and [d]. *)
Fixpoint replace_char (c d : ascii) (s : string) : string :=
  match s with
  | EmptyString => EmptyString
  | String e s' => String (if Ascii.eqb e c then d else e) (replace_char c d s')
  end.

Definition startswith (s p : string) : bool := String.prefix p s.

Fixpoint drop (n : nat) (s : string) : string :=
  match n, s with
  | O, _ => s
  | S n', String _ s' => drop n' s'
  | S _, EmptyString => EmptyString
  end.

Definition endswith (s p : string) : bool :=
  (String.length p <=? String.length s)%nat &&
  String.eqb (drop (String.length s - String.length p) s) p.

(** [s.partition(c)] for a one-character separator: the part before the
    first [c], the separator if found (else [""]), the part after. *)
Fixpoint partition (c : ascii) (s : string) : string * string * string :=
  match s with
  | EmptyString => (EmptyString, EmptyString, EmptyString)
  | String d s' =>
      if Ascii.eqb d c then (EmptyString, String c EmptyString, s')
      else let '(a, sep, b) := partition c s' in (String d a, sep, b)
  end.

(** [sep.join(l)] on a list of [str]. *)
Fixpoint join (sep : string) (l : list string) : string :=
  match l with
  | [] => EmptyString
  | [x] => x
  | x :: l' => x +:+ sep +:+ join sep l'
  end.

(** [x in [a, b, ...]] on strings. *)
Definition mem (x : string) (l : list string) : bool := bool_decide (x ∈ l).

(** Bytewise lexicographic order, the order of [sorted] on [str]. *)
Definition le (a b : string) : Prop := String.leb a b = true.

#[global] Instance le_dec a b : Decision (le a b).
Proof. unfold le. apply _. Defined.

End PyStr.

(** [all(p(c) for c in s)] *)
Fixpoint all_chars (p : ascii -> bool) (s : string) : bool :=
  match s with
  | EmptyString => true
  | String c s' => p c && all_chars p s'
  end.

(** ** Values and exceptions *)

(** Python objects, as far as this module looks into them.  [VObj] is any
    other object without an [__interactive_display__] attribute;
    [VDisplayable] has one and calling it returns [shown]; [VDisplayFails]
    has one and calling it raises an exception of class [ecls]. *)
Inductive value : Type :=
| VNone
| VBool (b : bool)
| VInt (n : Z)
| VFloat (f : float)
| VStr (s : string)
| VObj (cls : string) (ident : nat)
| VDisplayable (cls : string) (ident : nat) (shown : value)
| VDisplayFails (cls : string) (ident : nat) (ecls emsg : string).

(** [type(v).__name__] *)
Definition type_name (v : value) : string :=
  match v with
  | VNone => "NoneType"
  | VBool _ => "bool"
  | VInt _ => "int"
  | VFloat _ => "float"
  | VStr _ => "str"
  | VObj cls _ | VDisplayable cls _ _ | VDisplayFails cls _ _ _ => cls
  end.

(** [isinstance(v, str)], with the string it holds. *)
Definition as_str (v : value) : option string :=
  match v with VStr s => Some s | _ => None end.

Definition is_none (v : value) : bool :=
  match v with VNone => true | _ => false end.

Inductive exn : Type :=
| TypeError (msg : string)
| ValueError (msg : string)
| SyntaxError (msg : string)
| AssertionError (msg : string)
| NameError (msg : string)
| UnimportableNameError (msg : string)
| NotImplementedError (msg : string)
| ParseError (msg : string)
| ParseInterruptedWantHelp
| ParseInterruptedWantSource
| NotAFunctionError (msg : string) (obj : value)
| OtherException (cls msg : string)   (* any other subclass of Exception *)
| SystemExit (code : value)
| KeyboardInterrupt.

(** [isinstance(e, Exception)]: false exactly for the classes that derive
    from [BaseException] directly. *)
Definition is_Exception (e : exn) : bool :=
  match e with
  | SystemExit _ | KeyboardInterrupt => false
  | _ => true
  end.

(** [type(e).__name__] *)
Definition exn_name (e : exn) : string :=
  match e with
  | TypeError _ => "TypeError"
  | ValueError _ => "ValueError"
  | SyntaxError _ => "SyntaxError"
  | AssertionError _ => "AssertionError"
  | NameError _ => "NameError"
  | UnimportableNameError _ => "UnimportableNameError"
  | NotImplementedError _ => "NotImplementedError"
  | ParseError _ => "ParseError"
  | ParseInterruptedWantHelp => "_ParseInterruptedWantHelp"
  | ParseInterruptedWantSource => "_ParseInterruptedWantSource"
  | NotAFunctionError _ _ => "NotAFunctionError"
  | OtherException cls _ => cls
  | SystemExit _ => "SystemExit"
  | KeyboardInterrupt => "KeyboardInterrupt"
  end.

Inductive result (A : Type) : Type :=
| Ok (a : A)
| Raise (e : exn).
Arguments Ok {A} a.
Arguments Raise {A} e.

Definition is_ok {A} (r : result A) : bool :=
  match r with Ok _ => true | Raise _ => false end.

(** ** The process state *)

(** [LoggedList]: [_items] and [_unaccessed]; [None] in [_unaccessed]
    is the [_ACCESSED] sentinel. *)
Record LoggedList : Type := mkLoggedList {
  ll_items : list value;
  ll_unaccessed : list (option value)
}.

(** What [sys.argv] is bound to: a plain list or a [LoggedList] object. *)
Inductive argv_ref : Type :=
| ArgvList (l : list value)
| ArgvLogged (addr : nat).

Record world : Type := mkWorld {
  stdin : string;                      (* what is left to read on stdin *)
  stdout : list string;                (* one entry per [print] *)
  stderr : list string;                (* [sys.stderr.write] calls *)
  log_error : list string;             (* [logger.error] calls *)
  log_info : list string;              (* [logger.info] calls *)
  info_enabled : bool;                 (* [logger.info_enabled] *)
  sys_argv : argv_ref;
  sys_orig_argv : option (list value); (* [sys.orig_argv], once [run] has set it *)
  heap : nat -> LoggedList;            (* the [LoggedList] objects *)
  next_addr : nat;
  ns_globals : gmap string value;      (* [namespace.globals] *)
  ns_autoimported : gmap string bool;  (* [namespace.autoimported] *)
  environ : gmap string string         (* [os.environ] *)
}.

Definition M (A : Type) : Type := world -> result A * world.

Definition ret {A} (a : A) : M A := fun w => (Ok a, w).
Definition raise {A} (e : exn) : M A := fun w => (Raise e, w).
Definition bind {A B} (m : M A) (k : A -> M B) : M B :=
  fun w => match m w with
           | (Ok a, w') => k a w'
           | (Raise e, w') => (Raise e, w')
           end.

Notation "'let*' x ':=' m 'in' k" := (bind m (fun x => k))
  (at level 10, x pattern, m at level 100, k at level 200).
Notation "m ';;' k" := (bind m (fun _ => k))
  (at level 100, k at level 200, right associativity).

(** [try: m  finally: fin] where [fin] cannot raise. *)
Definition try_finally {A} (m : M A) (fin : world -> world) : M A :=
  fun w => let '(r, w') := m w in (r, fin w').

Definition set_stdin (s : string) (w : world) : world :=
  mkWorld s (stdout w) (stderr w) (log_error w) (log_info w) (info_enabled w)
          (sys_argv w) (sys_orig_argv w) (heap w) (next_addr w)
          (ns_globals w) (ns_autoimported w) (environ w).
Definition add_stdout (s : string) (w : world) : world :=
  mkWorld (stdin w) (stdout w ++ [s]) (stderr w) (log_error w) (log_info w) (info_enabled w)
          (sys_argv w) (sys_orig_argv w) (heap w) (next_addr w)
          (ns_globals w) (ns_autoimported w) (environ w).
Definition add_stderr (s : string) (w : world) : world :=
  mkWorld (stdin w) (stdout w) (stderr w ++ [s]) (log_error w) (log_info w) (info_enabled w)
          (sys_argv w) (sys_orig_argv w) (heap w) (next_addr w)
          (ns_globals w) (ns_autoimported w) (environ w).
Definition add_log_error (s : string) (w : world) : world :=
  mkWorld (stdin w) (stdout w) (stderr w) (log_error w ++ [s]) (log_info w) (info_enabled w)
          (sys_argv w) (sys_orig_argv w) (heap w) (next_addr w)
          (ns_globals w) (ns_autoimported w) (environ w).
Definition add_log_info (s : string) (w : world) : world :=
  mkWorld (stdin w) (stdout w) (stderr w) (log_error w) (log_info w ++ [s]) (info_enabled w)
          (sys_argv w) (sys_orig_argv w) (heap w) (next_addr w)
          (ns_globals w) (ns_autoimported w) (environ w).
Definition set_sys_argv (a : argv_ref) (w : world) : world :=
  mkWorld (stdin w) (stdout w) (stderr w) (log_error w) (log_info w) (info_enabled w)
          a (sys_orig_argv w) (heap w) (next_addr w)
          (ns_globals w) (ns_autoimported w) (environ w).
Definition set_sys_orig_argv (l : list value) (w : world) : world :=
  mkWorld (stdin w) (stdout w) (stderr w) (log_error w) (log_info w) (info_enabled w)
          (sys_argv w) (Some l) (heap w) (next_addr w)
          (ns_globals w) (ns_autoimported w) (environ w).
Definition set_heap (h : nat -> LoggedList) (n : nat) (w : world) : world :=
  mkWorld (stdin w) (stdout w) (stderr w) (log_error w) (log_info w) (info_enabled w)
          (sys_argv w) (sys_orig_argv w) h n
          (ns_globals w) (ns_autoimported w) (environ w).

Definition set_info_enabled (b : bool) (w : world) : world :=
  mkWorld (stdin w) (stdout w) (stderr w) (log_error w) (log_info w) b
          (sys_argv w) (sys_orig_argv w) (heap w) (next_addr w)
          (ns_globals w) (ns_autoimported w) (environ w).
Definition set_environ (k v : string) (w : world) : world :=
  mkWorld (stdin w) (stdout w) (stderr w) (log_error w) (log_info w) (info_enabled w)
          (sys_argv w) (sys_orig_argv w) (heap w) (next_addr w)
          (ns_globals w) (ns_autoimported w) (<[k := v]> (environ w)).

(** [print(s)] *)
Definition print (s : string) : M unit := fun w => (Ok tt, add_stdout s w).
(** [sys.stderr.write(s)] *)
Definition stderr_write (s : string) : M unit := fun w => (Ok tt, add_stderr s w).
(** [logger.error(s)] and [logger.info(s)] *)
Definition logger_error (s : string) : M unit := fun w => (Ok tt, add_log_error s w).
Definition logger_info (s : string) : M unit := fun w => (Ok tt, add_log_info s w).
(** [sys.stdin.read()]: everything that is left, leaving nothing. *)
Definition stdin_read : M string := fun w => (Ok (stdin w), set_stdin "" w).

(** ** The Python built-ins the module calls on arbitrary objects *)

Class PyBuiltins : Type := {
  repr : value -> string;       (* [repr(v)], also [%r] *)
  str_ : value -> string;       (* [str(v)], also [%s] *)
  pformat : value -> string     (* [pprint.pformat(v)] *)
}.

Definition lift {A} (r : result A) : M A := fun w => (r, w).

(** ** Mode resolvers *)

Section Resolvers.
Context `{!PyBuiltins}.

(** The alias tests of [_interpret_arg_mode], on the normalised [rarg]. *)
Definition arg_mode_of_rarg (rarg : string) : option string :=
  if PyStr.mem rarg ["eval"; "evaluate"; "exprs"; "expr"; "expressions"; "expression"; "e"]
  then Some "eval"
  else if PyStr.mem rarg ["strings"; "string"; "str"; "strs"; "literal"; "literals"; "s"]
  then Some "string"
  else if PyStr.mem rarg ["auto"; "automatic"; "a"]
  then Some "auto"
  else if String.eqb rarg "error"
  then Some "error"
  else None.

Definition _interpret_arg_mode (arg : option string) (default : string) : result string :=
  let arg := match arg with None => default | Some a => a end in
  let rarg := PyStr.lower (PyStr.strip arg) in
  match arg_mode_of_rarg rarg with
  | Some m => Ok m
  | None =>
      Raise (ValueError ("Invalid arg_mode=" +:+ repr (VStr arg)
                         +:+ "; expected one of eval/string/auto"))
  end.

(** The alias tests of [_interpret_output_mode], on the normalised [rarg]. *)
Definition output_mode_of_rarg (rarg : string) : option string :=
  if PyStr.mem rarg ["none"; "no"; "n"; "silent"] then Some "silent"
  else if PyStr.mem rarg ["interactive"; "i"] then Some "interactive"
  else if PyStr.mem rarg ["print"; "p"; "string"; "str"] then Some "str"
  else if PyStr.mem rarg ["repr"; "r"] then Some "repr"
  else if PyStr.mem rarg ["pprint"; "pp"] then Some "pprint"
  else if PyStr.mem rarg ["reprifnotnone"; "reprunlessnone"; "rn"]
  then Some "repr-if-not-none"
  else if PyStr.mem rarg ["pprintifnotnone"; "pprintunlessnone"; "ppn"]
  then Some "pprint-if-not-none"
  else if PyStr.mem rarg ["systemexit"; "exit"; "raise"] then Some "exit"
  else None.

Definition _interpret_output_mode (arg : option string) (default : string) : result string :=
  let arg := match arg with None => default | Some a => a end in
  let rarg := PyStr.remove_char "_" (PyStr.remove_char "-" (PyStr.lower (PyStr.strip arg))) in
  match output_mode_of_rarg rarg with
  | Some m => Ok m
  | None =>
      Raise (ValueError ("Invalid output=" +:+ repr (VStr arg) +:+ "; expected one of "
        +:+ "silent/interactive/str/repr/pprint/repr-if-not-none/pprint-if-not-none/exit"))
  end.

(** ** Result printer *)

(** The [interactive] branch of [print_result]: the attribute lookup
    under [try], the call in its [else]; gives the value to print and
    the output mode the code continues with. *)
Definition interactive_branch (result : value) : M (value * string) :=
  match result with
  | VDisplayable _ _ shown => ret (shown, "result-if-not-none")
  | VDisplayFails _ _ ecls emsg => raise (OtherException ecls emsg)
  | _ => ret (result, "pprint-if-not-none")
  end.

Definition print_result (result : value) (output_mode : option string) : M unit :=
  let* output_mode := lift (_interpret_output_mode output_mode "interactive") in
  if String.eqb output_mode "silent" then ret tt
  else
    let* (result, output_mode) :=
      (if String.eqb output_mode "interactive"
       then interactive_branch result
       else ret (result, output_mode)) in
    if String.eqb output_mode "str" then print (str_ result)
    else if String.eqb output_mode "repr" then print (repr result)
    else if String.eqb output_mode "pprint" then print (pformat result)
    else if String.eqb output_mode "repr-if-not-none" then
      (if is_none result then ret tt else print (repr result))
    else if String.eqb output_mode "pprint-if-not-none" then
      (if is_none result then ret tt else print (pformat result))
    else if String.eqb output_mode "exit" then raise (SystemExit result)
    else raise (AssertionError ("unexpected output_mode=" +:+ repr (VStr output_mode))).

End Resolvers.

(** ** Spellings of a mode name *)

Definition is_sep (c : ascii) : bool := Ascii.eqb c "-" || Ascii.eqb c "_".

(** One edit of a mode string: a separator put in, a separator taken
    out, or a character replaced by one that differs in case only. *)
Inductive respell : string -> string -> Prop :=
| respell_insert a b c :
    is_sep c = true -> respell (a +:+ b) (a +:+ String c b)
| respell_remove a b c :
    is_sep c = true -> respell (a +:+ String c b) (a +:+ b)
| respell_case a b c d :
    PyStr.lower_char c = PyStr.lower_char d ->
    respell (a +:+ String c b) (a +:+ String d b).

(** One change of letter case. *)
Inductive recase : string -> string -> Prop :=
| recase_char a b c d :
    PyStr.lower_char c = PyStr.lower_char d ->
    recase (a +:+ String c b) (a +:+ String d b).

(** What [_interpret_output_mode] compares with its aliases, short of
    the [strip]: lower case, separators removed. *)
Definition squeezed (s : string) : string :=
  PyStr.remove_char "_" (PyStr.remove_char "-" (PyStr.lower s)).

Definition no_space (s : string) : bool :=
  all_chars (fun c => negb (PyStr.is_space c)) s.

(** What a resolver settles on: the canonical mode, or a rejection. *)
Definition resolved (r : result string) : option string :=
  match r with
  | Ok m => Some m
  | Raise _ => None
  end.

(** ** External collaborators *)

(** What a [PythonBlock] is built from: source text, a file, or stdin
    ([Filename.STDIN]). *)
Inductive block : Type :=
| BlockText (text : string)
| BlockFile (filename : string)
| BlockStdin.

(** [str(block)], as logged. *)
Definition block_str (b : block) : string :=
  match b with
  | BlockText s => s
  | BlockFile f => f
  | BlockStdin => "/dev/stdin"
  end.

(** [inspect.ArgSpec] *)
Record ArgSpec : Type := mkArgSpec {
  args : list string;
  varargs : option string;
  keywords : option string;
  defaults : option (list value)
}.

(** The modules [_py.py] imports from, and the introspection of the
    Python runtime.  The namespace object they work on is the [ns_*]
    part of the world; evaluated code may change any part of the world. *)
Class Collaborators : Type := {
  (* pyflyby._idents.is_identifier(s) and is_identifier(s, dotted=True) *)
  is_identifier : string -> bool;
  is_dotted_identifier : string -> bool;
  (* PythonBlock(text, flags=FLAGS, auto_flags=b).parsable_as_expression / .parsable *)
  parsable_as_expression : string -> bool -> bool;
  parsable : string -> bool -> bool;
  (* pyflyby._autoimp: auto_import(block, [globals], autoimported=...),
     find_missing_imports(block, [globals]), auto_eval(block, globals=..., mode=...) *)
  auto_import : block -> M bool;
  find_missing_imports : block -> world -> list value;
  auto_eval : block -> option string -> M value;
  (* callable(v), v.__name__ when it has one, and calling v on args and kwargs *)
  callable : value -> bool;
  func_name : value -> option string;
  call_function : value -> list value -> gmap string value -> M value;
  (* _get_argspec(v): the signature inspect finds, or its TypeError *)
  _get_argspec : value -> result ArgSpec;
  (* _requires_parens_as_function(name): decided by compiling the name *)
  _requires_parens_as_function : string -> bool;
  (* inspect.formatargspec, shlex quote, os.path.basename, indent *)
  formatargspec : ArgSpec -> string;
  shquote : string -> string;
  basename : string -> string;
  indent : string -> string -> string;
  (* obj.__version__, inspect.getfile/getsource/getdoc; None when they fail *)
  get_version : value -> option value;
  getfile : value -> option string;
  getsource : value -> option string;
  getdoc : value -> option string;
  (* pyflyby._file.Filename(arg): whether it is accepted (no
     UnsafeFilenameError), its .ext, its .exists, its str() *)
  filename_safe : string -> bool;
  filename_ext : string -> string;
  filename_exists : string -> world -> bool;
  filename_str : string -> string;
  (* pyflyby._modules.ModuleHandle(m): str(m.name), str(m.parent.name),
     m.filename (None when false), m.module; isinstance(v, types.ModuleType);
     v.__name__ of a module; runpy.run_module(name, run_name="__main__") *)
  module_name : string -> string;
  module_parent : string -> option string;
  module_filename : string -> M (option string);
  module_object : string -> M value;
  is_module : value -> bool;
  runpy_run_module : string -> M unit;
  (* not find_missing_imports(arg, [{}]): the name hangs off a builtin *)
  off_a_builtin : string -> bool;
  (* pyflyby._interactive and pyflyby._cmdline *)
  start_ipython_with_autoimporter : list string -> M unit;
  run_ipython_line_magic : string -> M unit;
  syntax : option string -> M unit;
  print_version_and_exit : M unit;
  (* os.isatty(0) *)
  isatty0 : world -> bool;
  (* pyplot.show() when matplotlib.pyplot is loaded *)
  matplotlib_show : M unit;
  (* the module docstring, __doc__ *)
  module_doc : string
}.

(** Modelled from the spec: [prefixes] of [pyflyby._util], which is not
    part of this file; "every non-empty prefix of each name", shortest
    first. *)
Fixpoint prefixes (s : string) : list string :=
  match s with
  | EmptyString => []
  | String c s' => String c EmptyString :: map (String c) (prefixes s')
  end.

(** [try: m  except <classes picked by h>: handler] *)
Definition catch {A} (m : M A) (h : exn -> option (M A)) : M A :=
  fun w => match m w with
           | (Ok a, w') => (Ok a, w')
           | (Raise e, w') =>
               match h e with
               | Some k => k w'
               | None => (Raise e, w')
               end
           end.

Fixpoint mapM {A B} (f : A -> M B) (l : list A) : M (list B) :=
  match l with
  | [] => ret []
  | x :: l' => let* y := f x in let* ys := mapM f l' in ret (y :: ys)
  end.

(** Python truth value of an optional name ([None] and [""] are false). *)
Definition truthy_name (o : option string) : bool :=
  match o with
  | Some (String _ _) => true
  | _ => false
  end.

(** [l[start:]] with Python's treatment of a negative [start]. *)
Definition slice_from {A} (start : Z) (l : list A) : list A :=
  let n := Z.of_nat (length l) in
  let start := if (start <? 0)%Z then Z.max 0 (start + n) else start in
  drop (Z.to_nat start) l.

Section ValueParser.
Context `{!PyBuiltins, !Collaborators}.

(** [str(e)] for an exception built as the source builds it. *)
Definition exn_str (e : exn) : string :=
  match e with
  | TypeError m | ValueError m | SyntaxError m | AssertionError m | NameError m
  | UnimportableNameError m | NotImplementedError m | ParseError m
  | OtherException _ m => m
  | NotAFunctionError m obj => "(" +:+ repr (VStr m) +:+ ", " +:+ repr obj +:+ ")"
  | SystemExit code => str_ code
  | ParseInterruptedWantHelp | ParseInterruptedWantSource | KeyboardInterrupt => ""
  end.

(** [_Namespace.auto_eval(block, mode, info)] *)
Definition Namespace_auto_eval (b : block) (mode : option string) (info : bool) : M value :=
  let* imported := auto_import b in
  (if negb imported then
     fun w =>
       let missing := find_missing_imports b w in
       let mstr := PyStr.join ", " (map repr missing) in
       match missing with
       | [_] => raise (UnimportableNameError
                         ("name " +:+ mstr +:+ " is not defined and not importable")) w
       | _ :: _ :: _ => raise (UnimportableNameError
                         ("names " +:+ mstr +:+ " are not defined and not importable")) w
       | [] => raise (AssertionError "") w
       end
   else ret tt) ;;
  (if info then logger_info (block_str b) else ret tt) ;;
  auto_eval b mode.

(** [_parse_value_or_string(arg, namespace, arg_mode)] *)
Definition _parse_value_or_string (arg : value) (arg_mode : string) : M value :=
  match as_str arg with
  | None =>
      raise (TypeError ("_parse_value_or_string(): expected str instead of "
                        +:+ type_name arg))
  | Some s =>
      if String.eqb arg_mode "string" then ret arg
      else if String.eqb arg_mode "eval" then
        if parsable_as_expression s false
        then Namespace_auto_eval (BlockText s) None false
        else raise (SyntaxError ("syntax error: " +:+ s))
      else if String.eqb arg_mode "auto" then
        if parsable_as_expression s false
        then catch (Namespace_auto_eval (BlockText s) None false)
                   (fun e => match e with
                             | UnimportableNameError _ => Some (ret arg)
                             | _ => None
                             end)
        else ret arg
      else if String.eqb arg_mode "error" then
        raise (ValueError ("Expected no arguments; got " +:+ repr arg))
      else
        raise (ValueError ("_parse_value_or_string(): invalid arg_mode="
                           +:+ repr (VStr arg_mode)))
  end.

End ValueParser.

(** ** Signature-driven argument binder *)

Section ArgBinder.
Context `{!PyBuiltins, !Collaborators}.

(** [argname2default]: the trailing parameters zipped with the defaults. *)
Definition build_argname2default (argspec : ArgSpec) : gmap string value :=
  let defaults := default [] (defaults argspec) in
  let names :=
    slice_from (Z.of_nat (length (args argspec)) - Z.of_nat (length defaults))
               (args argspec) in
  foldl (fun m '(argname, d) => <[argname := d]> m) ∅ (zip names defaults).

(** [prefix2argname.setdefault(prefix, []).append(argname)] *)
Definition setdefault_append (m : gmap string (list string)) (prefix argname : string)
  : gmap string (list string) :=
  <[prefix := default [] (m !! prefix) ++ [argname]]> m.

Definition build_prefix2argname (argnames : list string) : gmap string (list string) :=
  foldl (fun m argname => foldl (fun m prefix => setdefault_append m prefix argname)
                                m (prefixes argname))
        ∅ argnames.

(** The option branch of the scanning loop, from the lookup in
    [prefix2argname] to the point where the option's name is settled. *)
Definition resolve_option (argspec : ArgSpec) (prefix2argname : gmap string (list string))
           (argname equalsign : string) : result string :=
  match default [] (prefix2argname !! argname) with
  | [a] => Ok a
  | [] =>
      if String.eqb equalsign "" && PyStr.mem argname ["help"; "h"]
      then Raise ParseInterruptedWantHelp
      else if String.eqb equalsign "" && PyStr.mem argname ["source"]
      then Raise ParseInterruptedWantSource
      else if negb (truthy_name (keywords argspec))
      then Raise (ParseError ("Unknown option name " +:+ argname))
      else Ok argname
  | matched_argnames =>
      Raise (ParseError ("Ambiguous " +:+ argname +:+ ": could mean one of: "
               +:+ PyStr.join ", " (map (fun s => "--" +:+ s) matched_argnames)))
  end.

(** The [while args:] loop: consumes the tokens, fills [got_pos_args]
    and [got_keyword_args]. *)
Fixpoint scan_args (argspec : ArgSpec) (prefix2argname : gmap string (list string))
         (arg_mode : string) (args : list string)
         (got_pos_args : list string) (got_keyword_args : gmap string string)
  : M (list string * gmap string string) :=
  match args with
  | [] => ret (got_pos_args, got_keyword_args)
  | arg :: args =>
      if PyStr.mem arg ["--?"; "-?"; "?"] then raise ParseInterruptedWantHelp
      else if PyStr.mem arg ["--??"; "-??"; "??"] then raise ParseInterruptedWantSource
      else if PyStr.startswith arg "-" then
        if String.eqb arg "-" then
          let* data := stdin_read in
          let data := if negb (String.eqb arg_mode "string")
                      then repr (VStr data) else data in
          scan_args argspec prefix2argname arg_mode args
                    (got_pos_args ++ [data]) got_keyword_args
        else if String.eqb arg "--" then
          ret (if String.eqb arg_mode "string"
               then got_pos_args ++ args
               else got_pos_args ++ map (fun x => repr (VStr x)) args,
               got_keyword_args)
        else
          let argname := if PyStr.startswith arg "--"
                         then PyStr.drop 2 arg else PyStr.drop 1 arg in
          let '(argname, equalsign, value) := PyStr.partition "=" argname in
          let argname := PyStr.replace_char "-" "_" argname in
          if negb (is_identifier argname)
          then raise (ParseError ("Invalid option name " +:+ argname))
          else
            let* argname := lift (resolve_option argspec prefix2argname argname equalsign) in
            if String.eqb value "" then
              match args with
              | [] => raise (ParseError ("Missing argument to " +:+ arg))
              | value :: args =>
                  if PyStr.startswith value "--" then
                    raise (ParseError
                      ("Missing argument to " +:+ arg +:+ ".  "
                       +:+ "If you really want to use " +:+ repr (VStr value)
                       +:+ " as the argument to " +:+ arg +:+ ", "
                       +:+ "then use " +:+ arg +:+ "=" +:+ value +:+ "."))
                  else
                    scan_args argspec prefix2argname arg_mode args
                              got_pos_args (<[argname := value]> got_keyword_args)
              end
            else
              scan_args argspec prefix2argname arg_mode args
                        got_pos_args (<[argname := value]> got_keyword_args)
      else
        scan_args argspec prefix2argname arg_mode args
                  (got_pos_args ++ [arg]) got_keyword_args
  end.

(** One round of [for i, argname in enumerate(argspec.args)]: the value
    bound to [argname] and the keyword map after its [pop]. *)
Definition bind_parameter (arg_mode : string) (got_pos_args : list string)
           (argname2default : gmap string value) (i : nat) (argname : string)
           (got_keyword_args : gmap string string)
  : M (value * gmap string string) :=
  match got_pos_args !! i with
  | Some unparsed_value =>
      match got_keyword_args !! argname with
      | Some kv =>
          raise (ParseError
            (argname +:+ " specified both as positional argument (" +:+ unparsed_value
             +:+ ") and keyword argument (" +:+ kv +:+ ")"))
      | None =>
          let* parsed_value := _parse_value_or_string (VStr unparsed_value) arg_mode in
          ret (parsed_value, got_keyword_args)
      end
  | None =>
      match got_keyword_args !! argname with
      | Some unparsed_value =>
          let* parsed_value := _parse_value_or_string (VStr unparsed_value) arg_mode in
          ret (parsed_value, delete argname got_keyword_args)
      | None =>
          match argname2default !! argname with
          | Some d => ret (d, got_keyword_args)
          | None => raise (ParseError ("missing required argument " +:+ argname))
          end
      end
  end.

Fixpoint bind_parameters (arg_mode : string) (got_pos_args : list string)
         (argname2default : gmap string value) (i : nat) (argnames : list string)
         (got_keyword_args : gmap string string) (parsed_args : list value)
  : M (list value * gmap string string) :=
  match argnames with
  | [] => ret (parsed_args, got_keyword_args)
  | argname :: argnames =>
      let* (parsed_value, got_keyword_args) :=
        bind_parameter arg_mode got_pos_args argname2default i argname got_keyword_args in
      bind_parameters arg_mode got_pos_args argname2default (S i) argnames
                      got_keyword_args (parsed_args ++ [parsed_value])
  end.

(** The positional values beyond the declared parameters. *)
Definition bind_excess (argspec : ArgSpec) (arg_mode : string)
           (got_pos_args : list string) (parsed_args : list value) : M (list value) :=
  if (length (args argspec) <? length got_pos_args)%nat then
    if truthy_name (varargs argspec) then
      let* more := mapM (fun unparsed_value =>
                           _parse_value_or_string (VStr unparsed_value) arg_mode)
                        (drop (length (args argspec)) got_pos_args) in
      ret (parsed_args ++ more)
    else
      let max_nargs := length (args argspec) in
      let expected :=
        match defaults argspec with
        | Some ((_ :: _) as ds) =>
            pretty (Z.of_nat max_nargs - Z.of_nat (length ds))%Z +:+ "-" +:+ pretty max_nargs
        | _ => pretty max_nargs
        end in
      raise (ParseError
        ("Too many positional arguments.  Expected " +:+ expected
         +:+ " positional argument(s): " +:+ PyStr.join ", " (args argspec)
         +:+ ".  Got " +:+ pretty (length got_pos_args) +:+ " args: "
         +:+ PyStr.join " " got_pos_args))
  else ret parsed_args.

(** [sorted(got_keyword_args.items())] *)
Definition sorted_items (m : gmap string string) : list (string * string) :=
  merge_sort (fun x y => PyStr.le x.1 y.1) (map_to_list m).

(** The last loop: the keyword values that are left. *)
Fixpoint bind_keywords (arg_mode : string) (items : list (string * string))
         (parsed_kwargs : gmap string value) : M (gmap string value) :=
  match items with
  | [] => ret parsed_kwargs
  | (argname, unparsed_value) :: items =>
      let* v :=
        catch (_parse_value_or_string (VStr unparsed_value) arg_mode)
              (fun e => if is_Exception e
                        then Some (raise (ParseError
                               ("Error parsing value for --" +:+ argname +:+ "="
                                +:+ unparsed_value +:+ ": " +:+ exn_name e
                                +:+ ": " +:+ exn_str e)))
                        else None) in
      bind_keywords arg_mode items (<[argname := v]> parsed_kwargs)
  end.

(** [_parse_auto_apply_args(argspec, commandline_args, namespace, arg_mode)] *)
Definition _parse_auto_apply_args (argspec : ArgSpec) (commandline_args : list string)
           (arg_mode : string) : M (list value * gmap string value) :=
  let argname2default := build_argname2default argspec in
  let prefix2argname := build_prefix2argname (args argspec) in
  let* (got_pos_args, got_keyword_args) :=
    scan_args argspec prefix2argname arg_mode commandline_args [] ∅ in
  let* (parsed_args, got_keyword_args) :=
    bind_parameters arg_mode got_pos_args argname2default 0 (args argspec)
                    got_keyword_args [] in
  let* parsed_args := bind_excess argspec arg_mode got_pos_args parsed_args in
  let* parsed_kwargs := bind_keywords arg_mode (sorted_items got_keyword_args) ∅ in
  ret (parsed_args, parsed_kwargs).

(** The tokens the scanning loop treats as options: they start with a
  dash and are none of the help and source triggers, ["-"] and ["--"]. *)
Definition is_option_token (arg : string) : bool :=
  negb (PyStr.mem arg ["--?"; "-?"; "?"])
  && negb (PyStr.mem arg ["--??"; "-??"; "??"])
  && PyStr.startswith arg "-"
  && negb (String.eqb arg "-")
  && negb (String.eqb arg "--").

(** The name (dashes stripped, inner dashes replaced), the equals sign
  and the attached value the loop splits an option token into. *)
Definition split_option (arg : string) : string * string * string :=
  let argname := if PyStr.startswith arg "--"
                 then PyStr.drop 2 arg else PyStr.drop 1 arg in
  let '(argname, equalsign, value) := PyStr.partition "=" argname in
  (PyStr.replace_char "-" "_" argname, equalsign, value).

(** An option at the head of the tokens that the loop accepts: the
  parameter its name settles on, its raw value (attached, or else the
  next token) and the tokens after it; [None] when the tokens do not
  start with an option or the loop rejects it. *)
Definition read_option (argspec : ArgSpec) (prefix2argname : gmap string (list string))
           (tokens : list string) : option (string * string * list string) :=
  match tokens with
  | [] => None
  | arg :: rest =>
      if negb (is_option_token arg) then None
      else
        let '(argname, equalsign, value) := split_option arg in
        if negb (is_identifier argname) then None
        else
          match resolve_option argspec prefix2argname argname equalsign with
          | Raise _ => None
          | Ok name =>
              if String.eqb value "" then
                match rest with
                | [] => None
                | value :: rest =>
                    if PyStr.startswith value "--" then None
                    else Some (name, value, rest)
                end
              else Some (name, value, rest)
          end
  end.

End ArgBinder.

(** ** Help text and [auto_apply] *)

Definition nl : string := String (ascii_of_nat 10) EmptyString.

Fixpoint repeat_str (s : string) (n : nat) : string :=
  match n with
  | O => EmptyString
  | S n' => s +:+ repeat_str s n'
  end.

Section AutoApply.
Context `{!PyBuiltins, !Collaborators}.

Definition _format_call_spec (function_name : string) (argspec : ArgSpec) : string :=
  let callspec := formatargspec argspec in
  if _requires_parens_as_function function_name
  then "(" +:+ function_name +:+ ")" +:+ callspec
  else function_name +:+ callspec.

Definition _build_function_usage_string (function_name : string) (argspec : ArgSpec)
           (prefix : string) : string :=
  let usage := ["Python signature:";
                "  >>> " +:+ _format_call_spec function_name argspec;
                "";
                "Command-line signature:"] in
  if bool_decide (args argspec = []) && truthy_name (varargs argspec)
     && truthy_name (keywords argspec)
  then PyStr.join nl (usage ++ ["  $ " +:+ prefix +:+ function_name +:+ " ..." +:+ nl])
  else
    let defaults := default [] (defaults argspec) in
    let first_with_default :=
      (Z.of_nat (length (args argspec)) - Z.of_nat (length defaults))%Z in
    let syntax1 := "  $ " +:+ prefix +:+ shquote function_name in
    let syntax1 := syntax1 +:+ String.concat ""
      (imap (fun i arg => if (first_with_default <=? Z.of_nat i)%Z
                          then " [" +:+ arg else " " +:+ arg) (args argspec)) in
    let syntax1 := match varargs argspec with
                   | Some (String _ _ as v) => syntax1 +:+ " " +:+ v +:+ "..."
                   | _ => syntax1
                   end in
    let syntax1 := syntax1 +:+ repeat_str "]" (length defaults) in
    let syntax1 := if truthy_name (keywords argspec)
                   then syntax1 +:+ " [--...]" else syntax1 in
    let syntax2 := "  $ " +:+ prefix +:+ shquote function_name in
    let syntax2 := syntax2 +:+ String.concat ""
      (imap (fun i arg => if (first_with_default <=? Z.of_nat i)%Z
                          then " [--" +:+ arg +:+ "=...]"
                          else " --" +:+ arg +:+ "=...") (args argspec)) in
    let syntax2 := match varargs argspec with
                   | Some (String _ _ as v) => syntax2 +:+ " " +:+ v +:+ "..."
                   | _ => syntax2
                   end in
    let syntax2 := if truthy_name (keywords argspec)
                   then syntax2 +:+ " [--...]" else syntax2 in
    PyStr.join nl (usage ++ [syntax1; syntax2; ""]).

(** [os.path.basename(sys.orig_argv[0]) + " "] *)
Definition usage_prefix : M string :=
  fun w =>
    match sys_orig_argv w with
    | None =>
        raise (OtherException "AttributeError"
                 "'module' object has no attribute 'orig_argv'") w
    | Some [] => raise (OtherException "IndexError" "list index out of range") w
    | Some (a :: _) =>
        match as_str a with
        | Some s => ret (basename s +:+ " ") w
        | None =>
            raise (OtherException "AttributeError"
                     ("'" +:+ type_name a +:+ "' object has no attribute 'rfind'")) w
        end
    end.

(** [_get_help(obj, name, verbosity)] *)
Definition _get_help (obj : value) (name : string) (verbosity : Z) : M string :=
  let* result :=
    (if callable obj then
       let* argspec := lift (_get_argspec obj) in
       let* prefix := usage_prefix in
       ret (_build_function_usage_string name argspec prefix)
     else ret "") in
  let* (include_filename, include_doc, include_source) :=
    (if (verbosity =? 0)%Z then ret (false, false, false)
     else if (verbosity =? 1)%Z then ret (true, true, false)
     else if (verbosity =? 2)%Z then ret (true, false, true)
     else raise (ValueError ("invalid verbosity=" +:+ repr (VInt verbosity)))) in
  let result := match get_version obj with
                | Some version => result +:+ nl +:+ "Version:" +:+ nl +:+ "  "
                                  +:+ str_ version +:+ nl
                | None => result
                end in
  let result := if include_filename then
                  match getfile obj with
                  | Some filename => result +:+ nl +:+ "Filename:" +:+ nl +:+ "  "
                                     +:+ filename +:+ nl
                  | None => result
                  end
                else result in
  let '(result, include_doc) :=
    if include_source then
      match getsource obj with
      | Some (String _ _ as source) =>
          (result +:+ nl +:+ "Source:" +:+ nl +:+ indent source "  " +:+ nl, include_doc)
      | _ => (result, true)
      end
    else (result, include_doc) in
  let result := if include_doc then
                  let doc := PyStr.strip (default "" (getdoc obj)) in
                  let doc := if String.eqb doc "" then "(No docstring)" else doc in
                  result +:+ nl +:+ "Docstring:" +:+ nl +:+ indent doc "  "
                else result in
  ret result.

(** [_interpret_function_name(function, function_name, namespace)] *)
Definition _interpret_function_name (function : value) (function_name : option string)
  : M (value * string) :=
  if callable function then
    match function_name with
    | Some n => ret (function, n)
    | None =>
        match func_name function with
        | Some n => ret (function, n)
        | None => raise (OtherException "AttributeError"
                           ("'" +:+ type_name function
                            +:+ "' object has no attribute '__name__'"))
        end
    end
  else
    match as_str function with
    | Some f =>
        let f := PyStr.strip f in
        if String.eqb f "" then raise (ValueError "No function specified")
        else
          let function_name := match function_name with
                               | None => f
                               | Some n => PyStr.strip n
                               end in
          let* function :=
            catch (Namespace_auto_eval (BlockText f) (Some "eval") false)
                  (fun e => if is_Exception e
                            then Some (raise (ValueError
                                   ("Invalid function " +:+ f +:+ ": " +:+ exn_name e
                                    +:+ ": " +:+ exn_str e)))
                            else None) in
          if negb (callable function)
          then raise (NotAFunctionError "Not a function" function)
          else ret (function, function_name)
    | None =>
        raise (TypeError ("Expected function or string; got a " +:+ type_name function))
    end.

(** [_format_call(function_name, argspec, args, kwargs)]; an index out
    of range is Python's [IndexError]. *)
Definition _format_call (function_name : string) (argspec : ArgSpec)
           (args_ : list value) (kwargs : gmap string value) : result string :=
  let defaults := default [] (defaults argspec) in
  let first_with_default :=
    (Z.of_nat (length (args argspec)) - Z.of_nat (length defaults))%Z in
  let index_error : result string :=
    Raise (OtherException "IndexError" "list index out of range") in
  let part (i : nat) : result string :=
    if (first_with_default <=? Z.of_nat i)%Z
       && (length args_ <=? length (args argspec))%nat
    then match args argspec !! i, args_ !! i with
         | Some n, Some v => Ok (n +:+ "=" +:+ repr v)
         | _, _ => index_error
         end
    else match args_ !! i with
         | Some v => Ok (repr v)
         | None => index_error
         end in
  let fix parts (l : list nat) : result (list string) :=
    match l with
    | [] => Ok []
    | i :: l' => match part i with
                 | Ok p => match parts l' with
                           | Ok ps => Ok (p :: ps)
                           | Raise e => Raise e
                           end
                 | Raise e => Raise e
                 end
    end in
  match parts (seq 0 (max (length args_) (length (args argspec)))) with
  | Raise e => Raise e
  | Ok argparts =>
      let kwparts := map (fun '(k, v) => k +:+ "=" +:+ repr v)
                         (merge_sort (fun x y => PyStr.le x.1 y.1) (map_to_list kwargs)) in
      let function_name := if _requires_parens_as_function function_name
                           then "(" +:+ function_name +:+ ")" else function_name in
      Ok (function_name +:+ "(" +:+ PyStr.join ", " (argparts ++ kwparts) +:+ ")")
  end.

(** [auto_apply(function, commandline_args, namespace, arg_mode, function_name)] *)
Definition auto_apply (function : value) (commandline_args : list string)
           (arg_mode : option string) (function_name : option string) : M value :=
  let* (function, function_name) := _interpret_function_name function function_name in
  let* arg_mode := lift (_interpret_arg_mode arg_mode "auto") in
  let* argspec := lift (_get_argspec function) in
  let* (args_, kwargs) :=
    catch (_parse_auto_apply_args argspec commandline_args arg_mode)
          (fun e =>
             match e with
             | ParseInterruptedWantHelp =>
                 Some (let* usage := _get_help function function_name 1 in
                       print usage ;;
                       raise (SystemExit (VInt 0)))
             | ParseInterruptedWantSource =>
                 Some (let* usage := _get_help function function_name 2 in
                       print usage ;;
                       raise (SystemExit (VInt 0)))
             | ParseError msg =>
                 Some (logger_error msg ;;
                       let* usage :=
                         (fun w => _get_help function function_name
                                     (if info_enabled w then 1 else 0)%Z w) in
                       stderr_write (nl +:+ usage) ;;
                       raise (SystemExit (VInt 1)))
             | _ => None
             end) in
  let* call := lift (_format_call function_name argspec args_ kwargs) in
  logger_info call ;;
  call_function function args_ kwargs.

End AutoApply.

(** ** [LoggedList] and [SysArgvCtx] *)

(** [LoggedList(items)] *)
Definition LoggedList_init (items : list value) : LoggedList :=
  mkLoggedList items (map Some items).

(** A new [LoggedList] object; gives its address. *)
Definition LoggedList_new (items : list value) : M nat :=
  fun w => (Ok (next_addr w),
            set_heap (<[next_addr w := LoggedList_init items]> (heap w))
                     (S (next_addr w)) w).

Definition IndexError : exn := OtherException "IndexError" "list index out of range".

(** [self[idx]] for an index [idx >= 0] *)
Definition LoggedList_getitem (self : nat) (idx : nat) : M value :=
  fun w =>
    let ll := heap w self in
    match ll_items ll !! idx with
    | None => (Raise IndexError, w)
    | Some x =>
        if (idx <? length (ll_unaccessed ll))%nat then
          (Ok x, set_heap (<[self := mkLoggedList (ll_items ll)
                                       (<[idx := None]> (ll_unaccessed ll))]> (heap w))
                          (next_addr w) w)
        else (Raise IndexError, w)
    end.

(** Marks the first [n] entries of [_unaccessed] as accessed. *)
Definition mark_accessed (n : nat) (u : list (option value)) : list (option value) :=
  replicate (min n (length u)) None ++ drop n u.

(** [list(self)]: [__iter__] marks each entry while it yields it. *)
Definition LoggedList_iter (self : nat) : M (list value) :=
  fun w =>
    let ll := heap w self in
    let n := length (ll_items ll) in
    let w' := set_heap (<[self := mkLoggedList (ll_items ll)
                                    (mark_accessed n (ll_unaccessed ll))]> (heap w))
                       (next_addr w) w in
    if (n <=? length (ll_unaccessed ll))%nat
    then (Ok (ll_items ll), w')
    else (Raise IndexError, w').

(** [self[:]]: the slice assignment makes [_unaccessed] start with as
    many sentinels as there are items. *)
Definition LoggedList_getslice_all (self : nat) : M (list value) :=
  fun w =>
    let ll := heap w self in
    (Ok (ll_items ll),
     set_heap (<[self := mkLoggedList (ll_items ll)
                           (replicate (length (ll_items ll)) None)]> (heap w))
              (next_addr w) w).

(** [self.unaccessed] *)
Definition LoggedList_unaccessed (self : nat) : M (list value) :=
  fun w => (Ok (omap id (ll_unaccessed (heap w self))), w).

(** [list(sys.argv)] *)
Definition list_sys_argv : M (list value) :=
  fun w =>
    match sys_argv w with
    | ArgvList l => (Ok l, w)
    | ArgvLogged a => LoggedList_iter a w
    end.

(** [sep.join(l)] on arbitrary objects: a [TypeError] at the first one
    that is not a [str]. *)
Fixpoint join_values_from (i : nat) (l : list value) : result (list string) :=
  match l with
  | [] => Ok []
  | v :: l' =>
      match as_str v with
      | None => Raise (TypeError ("sequence item " +:+ pretty i
                                  +:+ ": expected string, " +:+ type_name v +:+ " found"))
      | Some s => match join_values_from (S i) l' with
                  | Ok ss => Ok (s :: ss)
                  | Raise e => Raise e
                  end
      end
  end.

Definition join_values (sep : string) (l : list value) : result string :=
  match join_values_from 0 l with
  | Ok ss => Ok (PyStr.join sep ss)
  | Raise e => Raise e
  end.

(** The list [sys.argv] holds. *)
Definition argv_items (w : world) : list value :=
  match sys_argv w with
  | ArgvList l => l
  | ArgvLogged a => ll_items (heap w a)
  end.

(** [sys.argv] refers to an object that exists. *)
Definition argv_allocated (w : world) : Prop :=
  match sys_argv w with
  | ArgvList _ => True
  | ArgvLogged a => a < next_addr w
  end.

Section SysArgv.
Context `{!PyBuiltins}.

(** The complaint of [SysArgvCtx] about [unaccessed] (not empty). *)
Definition unaccessed_message (nargs : nat) (unaccessed : list value) : result string :=
  if (nargs =? 1)%nat then
    Ok ("the command-line argument was not used: "
        +:+ match unaccessed with u :: _ => str_ u | [] => "" end)
  else
    match join_values " " unaccessed with
    | Raise e => Raise e
    | Ok joined =>
        if (length unaccessed =? nargs)%nat then
          Ok ("all " +:+ pretty (length unaccessed)
              +:+ " command-line arguments were not used: " +:+ joined)
        else
          Ok (pretty (length unaccessed) +:+ " of " +:+ pretty nargs
              +:+ " command-line arguments were not used: " +:+ joined)
    end.

(** [with SysArgvCtx( *args): body] *)
Definition SysArgvCtx (args_ : list value) (body : M unit) : M unit :=
  match args_ with
  | [] => raise (ValueError "Missing args")
  | _ :: _ =>
      let nargs := (length args_ - 1)%nat in
      let* argv := LoggedList_new args_ in
      LoggedList_getitem argv 0 ;;
      let* orig_argv := list_sys_argv in
      try_finally
        ((fun w => (Ok tt, set_sys_argv (ArgvLogged argv) w)) ;;
         body ;;
         let* unaccessed := LoggedList_unaccessed argv in
         match unaccessed with
         | [] => ret tt
         | _ :: _ =>
             let* msg := lift (unaccessed_message nargs unaccessed) in
             logger_error msg ;;
             raise (SystemExit (VInt 1))
         end)
        (set_sys_argv (ArgvList orig_argv))
  end.

End SysArgv.

(** ** Action classifier and dispatcher *)

(** [re.match("\s*$|-[a-zA-Z-]", a)] *)
Definition is_alpha (c : ascii) : bool :=
  let n := N_of_ascii c in
  (((65 <=? n) && (n <=? 90)) || ((97 <=? n) && (n <=? 122)))%N.

Definition looks_like_option_or_blank (a : string) : bool :=
  all_chars PyStr.is_space a
  || match a with
     | String "-" (String c _) => is_alpha c || Ascii.eqb c "-"
     | _ => false
     end.

(** [re.match("^[a-zA-Z0-9_.]+$", s)]; [$] also matches before a final
    newline. *)
Definition is_name_char (c : ascii) : bool :=
  let n := N_of_ascii c in
  (is_alpha c || ((48 <=? n) && (n <=? 57)) || (n =? 95) || (n =? 46))%N.

Definition looks_like_dotted_name (s : string) : bool :=
  let body := if PyStr.endswith s nl
              then String.substring 0 (String.length s - 1) s else s in
  negb (String.eqb body "") && all_chars is_name_char body.

(** The attributes of a [_PyMain] object. *)
Record PyMain : Type := mkPyMain {
  main_args : list string;
  arg_mode : option string;
  output_mode : option string;
  args_left : list string              (* [self.args] *)
}.

Definition set_arg_mode (m : option string) (self : PyMain) : PyMain :=
  mkPyMain (main_args self) m (output_mode self) (args_left self).

Section Dispatcher.
Context `{!PyBuiltins, !Collaborators}.

(** [_seems_like_filename(arg)] *)
Definition _seems_like_filename (arg : string) (w : world) : bool :=
  if negb (filename_safe arg) then false
  else if String.eqb (filename_ext arg) ".py" then true
  else if PyStr.startswith arg "/" || PyStr.startswith arg "./"
          || PyStr.startswith arg "../" then true
  else if filename_exists arg w then true
  else false.

Definition parse_cmd_args (cmd_args : list string) (arg_mode : string) : M (list value) :=
  mapM (fun a => _parse_value_or_string (VStr a) arg_mode) cmd_args.

(** [_PyMain.exec_stdin(cmd_args)] *)
Definition exec_stdin (self : PyMain) (cmd_args : list string) : M unit :=
  let* arg_mode := lift (_interpret_arg_mode (arg_mode self) "string") in
  let* output_mode := lift (_interpret_output_mode (output_mode self) "silent") in
  let* cmd_args := parse_cmd_args cmd_args arg_mode in
  SysArgvCtx cmd_args
    (let* result := Namespace_auto_eval BlockStdin None false in
     print_result result (Some output_mode)).

(** [_PyMain.eval(cmd, cmd_args)] *)
Definition eval (self : PyMain) (cmd : block) (cmd_args : list string) : M unit :=
  let* arg_mode := lift (_interpret_arg_mode (arg_mode self) "string") in
  let* output_mode := lift (_interpret_output_mode (output_mode self) "interactive") in
  let* cmd_args := parse_cmd_args cmd_args arg_mode in
  SysArgvCtx (VStr "-c" :: cmd_args)
    (let* result := Namespace_auto_eval cmd None true in
     print_result result (Some output_mode)).

(** [_PyMain.execfile(filename, cmd_args)] *)
Definition execfile (self : PyMain) (filename : string) (cmd_args : list string) : M unit :=
  let* arg_mode := lift (_interpret_arg_mode (arg_mode self) "string") in
  let* output_mode := lift (_interpret_output_mode (output_mode self) "interactive") in
  let* cmd_args := parse_cmd_args cmd_args arg_mode in
  let* filename :=
    (if String.eqb filename "-" then ret BlockStdin
     else if negb (filename_safe filename)
     then raise (OtherException "UnsafeFilenameError" filename)
     else ret (BlockFile filename)) in
  let name := match filename with
              | BlockFile f => filename_str f
              | _ => block_str filename
              end in
  (fun w => if filename_exists (block_str filename) w then ret tt w
            else raise (OtherException "Exception" ("No such file: " +:+ name)) w) ;;
  SysArgvCtx (VStr name :: cmd_args)
    (let* result := Namespace_auto_eval filename None false in
     print_result result (Some output_mode)).

(** [_PyMain.apply(function_name, cmd_args)] *)
Definition apply (self : PyMain) (function_name : string) (cmd_args : list string) : M unit :=
  let* arg_mode := lift (_interpret_arg_mode (arg_mode self) "auto") in
  let* output_mode := lift (_interpret_output_mode (output_mode self) "interactive") in
  let* result := auto_apply (VStr function_name) cmd_args (Some arg_mode) None in
  print_result result (Some output_mode).

(** [_PyMain._seems_like_module(arg)] *)
Definition _seems_like_module (arg : string) : M bool :=
  if negb (is_dotted_identifier arg) then ret false
  else if off_a_builtin arg then ret false
  else
    let* parent_ok :=
      match module_parent arg with
      | Some parent => auto_import (BlockText parent)
      | None => ret true
      end in
    if negb parent_ok then ret false
    else
      let* f := module_filename arg in
      match f with
      | None => ret false
      | Some _ => ret true
      end.

(** [_PyMain.run_module(module, args)] *)
Definition run_module (self : PyMain) (module : string) (args_ : list string) : M unit :=
  let* arg_mode := lift (_interpret_arg_mode (arg_mode self) "string") in
  if negb (String.eqb arg_mode "string")
  then raise (NotImplementedError "run_module only supports string arguments")
  else
    logger_info ("python -m " +:+ PyStr.join " " (module_name module :: args_)) ;;
    let* f := module_filename module in
    (fun w => (Ok tt, set_sys_argv
                        (ArgvList (VStr (default "None" f) :: map VStr args_)) w)) ;;
    runpy_run_module (module_name module).

(** [_PyMain.print_version(arg)] for a module handle. *)
Definition print_module_version (module : value) : M unit :=
  if negb (is_module module)
  then raise (TypeError ("print_version(): got a " +:+ type_name module
                         +:+ " instead of a module"))
  else
    match get_version module with
    | Some version => print (str_ version)
    | None =>
        raise (OtherException "AttributeError"
                 ("Module " +:+ default "" (func_name module)
                  +:+ " does not have a __version__ attribute"))
    end.

Definition print_version_of_module (module : string) : M unit :=
  let* m := module_object module in print_module_version m.

(** [_PyMain.print_version(arg)] for a string or [None]. *)
Definition print_version (arg : option string) : M unit :=
  match arg with
  | None | Some EmptyString => print_version_and_exit
  | Some a =>
      let* m := Namespace_auto_eval (BlockText a) (Some "eval") false in
      print_module_version m
  end.

(** [_PyMain.print_help(objname, verbosity)] *)
Definition print_help (objname : option string) (verbosity : Z) : M unit :=
  let objname := match objname with
                 | Some (String _ _ as o) => PyStr.strip o
                 | _ => ""
                 end in
  if String.eqb objname "" then print module_doc
  else
    let* obj := Namespace_auto_eval (BlockText objname) (Some "eval") false in
    let* usage := _get_help obj objname verbosity in
    print usage.

(** [_PyMain.heuristic_run_module(module, args)] *)
Definition heuristic_run_module (self : PyMain) (module : string) (args_ : list string)
  : M unit :=
  match args_ with
  | [a] =>
      if PyStr.mem a ["--version"; "-version"] then print_version_of_module module
      else if PyStr.mem a ["--help"; "-help"; "--h"; "-h"; "--?"; "-?"; "?"] then
        let* m := module_object module in
        let* usage := _get_help m (module_name module) 1 in
        print usage
      else if PyStr.mem a ["--source"; "-source"; "--??"; "-??"; "??"] then
        let* m := module_object module in
        let* usage := _get_help m (module_name module) 2 in
        print usage
      else run_module self module args_
  | _ => run_module self module args_
  end.

(** [sys.argv[:]] and [sys.argv.unaccessed], on whatever [sys.argv] is. *)
Definition sys_argv_getslice_all : M unit :=
  fun w => match sys_argv w with
           | ArgvList _ => (Ok tt, w)
           | ArgvLogged a => (LoggedList_getslice_all a ;; ret tt) w
           end.

Definition sys_argv_unaccessed : M (list value) :=
  fun w => match sys_argv w with
           | ArgvList _ =>
               raise (OtherException "AttributeError"
                        "'list' object has no attribute 'unaccessed'") w
           | ArgvLogged a => LoggedList_unaccessed a w
           end.

(** [_PyMain.heuristic_cmd(cmd, cmd_args, function_name)] *)
Definition heuristic_cmd (self : PyMain) (cmd : string) (cmd_args : list string)
           (function_name : string) : M unit :=
  let* output_mode := lift (_interpret_output_mode (output_mode self) "interactive") in
  let* is_mod := _seems_like_module cmd in
  if is_mod then heuristic_run_module self cmd cmd_args
  else
    SysArgvCtx (VStr "-c" :: map VStr cmd_args)
      (let info := negb (looks_like_dotted_name function_name) in
       let* result := Namespace_auto_eval (BlockText cmd) None info in
       if callable result then
         let* result := auto_apply result cmd_args (arg_mode self) (Some function_name) in
         print_result result (Some output_mode) ;;
         sys_argv_getslice_all
       else
         (if negb info then logger_info cmd else ret tt) ;;
         print_result result (Some output_mode) ;;
         let* unaccessed := sys_argv_unaccessed in
         match unaccessed with
         | [] => ret tt
         | _ :: _ =>
             let* joined := lift (join_values " " unaccessed) in
             logger_error (str_ result +:+ " is not callable.  Unexpected argument(s): "
                           +:+ joined)
         end ;;
         sys_argv_getslice_all).


(** [popcmdarg()] and [nocmdarg()] of [_run_action], on the local
    [args]. *)
Definition popcmdarg (arg0 equalsign cmdarg : string) (args_ : list string)
  : M (string * list string) :=
  if negb (String.eqb equalsign "") then ret (cmdarg, args_)
  else match args_ with
       | a :: args' => ret (a, args')
       | [] => raise (ValueError ("expected argument to " +:+ arg0))
       end.

Definition nocmdarg (arg0 equalsign : string) : M unit :=
  if negb (String.eqb equalsign "")
  then raise (ValueError ("unexpected argument " +:+ arg0))
  else ret tt.

(** [action, equalsign, cmdarg] as [_run_action] splits them off
    [arg0]; [None] is an [action] of [None], an [equalsign] of [None]
    is [""]. *)
Definition split_action (arg0 : string) : option string * string * string :=
  if PyStr.startswith arg0 "--" then
    let '(a, e, c) := PyStr.partition "=" (PyStr.drop 2 arg0) in (Some a, e, c)
  else if PyStr.startswith arg0 "-" then
    let '(a, e, c) := PyStr.partition "=" (PyStr.drop 1 arg0) in (Some a, e, c)
  else if PyStr.startswith arg0 "%" then (Some (PyStr.drop 1 arg0), "", "")
  else if (1 <? String.length arg0)%nat || String.eqb arg0 "?" then (Some arg0, "", "")
  else (None, "", "").

Definition action_in (action : option string) (l : list string) : bool :=
  match action with
  | Some a => PyStr.mem a l
  | None => false
  end.

Fixpoint for_each {A} (f : A -> M unit) (l : list A) : M unit :=
  match l with
  | [] => ret tt
  | x :: l' => f x ;; for_each f l'
  end.

(** The last branch of [_run_action]: implied [--eval]. *)
Definition implied_eval (self : PyMain) (arg0 : string) (args_ : list string) : M unit :=
  let joined := PyStr.join " " (arg0 :: args_) in
  if negb (bool_decide (args_ = []))
     && negb (bool_decide (arg_mode self = Some "string"))
     && negb (existsb looks_like_option_or_blank args_)
     && parsable joined true
  then eval (set_arg_mode (Some "error") self) (BlockText joined) []
  else
    (if negb (parsable arg0 true) then
       logger_error ("Could not interpret as filename or expression: " +:+ arg0) ;;
       syntax None
     else ret tt) ;;
    heuristic_cmd self arg0 args_ arg0.

(** [_PyMain._run_action()] *)
Definition _run_action (self : PyMain) : M unit :=
  match args_left self with
  | [] =>
      fun w => if isatty0 w then start_ipython_with_autoimporter [] w
               else exec_stdin self [""] w
  | "-" :: _ =>
      fun w => if isatty0 w then start_ipython_with_autoimporter [] w
               else exec_stdin self (args_left self) w
  | arg0 :: args_ =>
      if String.eqb (PyStr.strip arg0) ""
      then raise (ValueError "got empty string as first argument")
      else
        let '(action, equalsign, cmdarg) := split_action arg0 in
        let popcmdarg := popcmdarg arg0 equalsign cmdarg in
        let nocmdarg := nocmdarg arg0 equalsign in
        let with_cmdarg := if negb (String.eqb equalsign "")
                           then cmdarg :: args_ else args_ in
        if action_in action ["eval"; "c"; "e"] then
          let* (cmd, args_) := popcmdarg args_ in eval self (BlockText cmd) args_
        else if action_in action ["file"; "execfile"; "execf"; "runfile"; "run"; "f"] then
          let* (cmd, args_) := popcmdarg args_ in execfile self cmd args_
        else if action_in action ["apply"; "call"] then
          let* (cmd, args_) := popcmdarg args_ in apply self cmd args_
        else if action_in action ["map"] then
          let* (cmd, args_) := popcmdarg args_ in
          match args_ with
          | "--" :: rest => for_each (fun arg => apply self cmd ["--"; arg]) rest
          | _ => for_each (fun arg => apply self cmd [arg]) args_
          end
        else if action_in action ["xargs"] then
          raise (NotImplementedError "TODO: xargs")
        else if action_in action ["module"; "m"; "runmodule"; "run_module"; "run-module"] then
          let* (modname, args_) := popcmdarg args_ in run_module self modname args_
        else if PyStr.startswith arg0 "-m" then
          run_module self (PyStr.drop 2 arg0) args_
        else if action_in action ["ipython"; "ip"] then
          start_ipython_with_autoimporter args_
        else if action_in action ["notebook"; "nb"] then
          nocmdarg ;; start_ipython_with_autoimporter ("notebook" :: args_)
        else if action_in action ["kernel"] then
          nocmdarg ;; start_ipython_with_autoimporter ("kernel" :: args_)
        else if action_in action ["qtconsole"; "qt"] then
          nocmdarg ;; start_ipython_with_autoimporter ("qtconsole" :: args_)
        else if action_in action ["console"] then
          nocmdarg ;; start_ipython_with_autoimporter ("console" :: args_)
        else if action_in action ["existing"] then
          start_ipython_with_autoimporter ("console" :: "--existing" :: with_cmdarg)
        else if action_in action ["nbconvert"] then
          start_ipython_with_autoimporter ("nbconvert" :: with_cmdarg)
        else if action_in action ["timeit"] then
          nocmdarg ;; run_ipython_line_magic ("%timeit " +:+ PyStr.join " " args_)
        else if action_in action ["time"] then
          nocmdarg ;; run_ipython_line_magic ("%time " +:+ PyStr.join " " args_)
        else if action_in action ["version"] then
          print_version (head with_cmdarg)
        else if action_in action ["help"; "h"; "?"] then
          print_help (head with_cmdarg) 1
        else if action_in action ["pinfo"] then
          let* (obj, _) := popcmdarg args_ in print_help (Some obj) 1
        else if action_in action ["source"; "pinfo2"; "??"] then
          let* (obj, _) := popcmdarg args_ in print_help (Some obj) 2
        else if PyStr.startswith arg0 "-" then
          let msg := "Unknown option " +:+ arg0 in
          let msg := if PyStr.startswith arg0 "-c"
                     then msg +:+ "; do you mean -c " +:+ PyStr.drop 2 arg0 +:+ "?"
                     else msg in
          syntax (Some msg)
        else if PyStr.startswith arg0 "??" then
          print_help (Some (PyStr.drop 2 arg0)) 2
        else if PyStr.endswith arg0 "??" then
          print_help (Some (String.substring 0 (String.length arg0 - 2) arg0)) 2
        else if PyStr.startswith arg0 "?" then
          print_help (Some (PyStr.drop 1 arg0)) 1
        else if PyStr.endswith arg0 "?" then
          print_help (Some (String.substring 0 (String.length arg0 - 1) arg0)) 1
        else if PyStr.startswith arg0 "%" then
          run_ipython_line_magic (PyStr.join " " (arg0 :: args_))
        else
          fun w => if _seems_like_filename arg0 w
                   then execfile self arg0 args_ w
                   else implied_eval self arg0 args_ w
  end.

(** [logger.set_level(level)], as far as [logger.info_enabled] shows it. *)
Definition logger_set_level (level : string) : M unit :=
  fun w => (Ok tt, set_info_enabled (negb (String.eqb level "ERROR")) w).

(** [os.environ[k] = v] *)
Definition environ_set (k v : string) : M unit :=
  fun w => (Ok tt, set_environ k v w).

(** The [while args:] loop of [_parse_global_opts]: [self.arg_mode],
  [self.output_mode] and the arguments that are left. *)
Fixpoint parse_global_opts_loop (args_ : list string) (arg_mode output_mode : option string)
  : M (option string * option string * list string) :=
  match args_ with
  | [] => ret (arg_mode, output_mode, [])
  | arg :: rest =>
      if negb (PyStr.startswith arg "-") then ret (arg_mode, output_mode, args_)
      else
        let argname := if PyStr.startswith arg "--"
                       then PyStr.drop 2 arg else PyStr.drop 1 arg in
        let '(argname, equalsign, value) := PyStr.partition "=" argname in
        let novalue : M unit :=
          if negb (String.eqb equalsign "")
          then raise (ValueError ("unexpected argument " +:+ arg)) else ret tt in
        if PyStr.mem argname ["debug"; "pdb"; "ipdb"; "dbg"] then
          raise (NotImplementedError "TODO: debug mode")
        else if String.eqb argname "verbose" then
          novalue ;; logger_set_level "DEBUG" ;;
          parse_global_opts_loop rest arg_mode output_mode
        else if PyStr.mem argname ["quiet"; "q"] then
          novalue ;; logger_set_level "ERROR" ;;
          parse_global_opts_loop rest arg_mode output_mode
        else if PyStr.mem argname ["safe"] then
          novalue ;;
          let* m := lift (_interpret_arg_mode (Some "string") "auto") in
          environ_set "PYFLYBY_PATH" "EMPTY" ;;
          environ_set "PYFLYBY_KNOWN_IMPORTS_PATH" "" ;;
          environ_set "PYFLYBY_MANDATORY_IMPORTS_PATH" "" ;;
          parse_global_opts_loop rest (Some m) output_mode
        else if PyStr.mem argname ["arguments"; "argument"; "args"; "arg";
                                   "arg_mode"; "arg-mode"; "argmode"] then
          if negb (String.eqb equalsign "") then
            let* m := lift (_interpret_arg_mode (Some value) "auto") in
            parse_global_opts_loop rest (Some m) output_mode
          else
            match rest with
            | v :: rest =>
                let* m := lift (_interpret_arg_mode (Some v) "auto") in
                parse_global_opts_loop rest (Some m) output_mode
            | [] => raise (ValueError ("expected argument to " +:+ arg))
            end
        else if PyStr.mem argname ["output"; "output_mode"; "output-mode"; "out";
                                   "outmode"; "out_mode"; "out-mode"; "o"] then
          if negb (String.eqb equalsign "") then
            let* m := lift (_interpret_output_mode (Some value) "interactive") in
            parse_global_opts_loop rest arg_mode (Some m)
          else
            match rest with
            | v :: rest =>
                let* m := lift (_interpret_output_mode (Some v) "interactive") in
                parse_global_opts_loop rest arg_mode (Some m)
            | [] => raise (ValueError ("expected argument to " +:+ arg))
            end
        else if PyStr.mem argname ["print"; "pprint"; "silent"; "repr"] then
          novalue ;;
          let* m := lift (_interpret_output_mode (Some argname) "interactive") in
          parse_global_opts_loop rest arg_mode (Some m)
        else ret (arg_mode, output_mode, args_)
  end.

(** [_PyMain._parse_global_opts()]; the attribute [verbosity], which
  nothing reads, is left out. *)
Definition _parse_global_opts (self : PyMain) : M PyMain :=
  let* (arg_mode, output_mode, args_) :=
    parse_global_opts_loop (main_args self) None None in
  ret (mkPyMain (main_args self) arg_mode output_mode args_).

(** [_PyMain.run()] *)
Definition run (self : PyMain) : M unit :=
  let* argv := list_sys_argv in
  (fun w => (Ok tt, set_sys_orig_argv argv w)) ;;
  let* self := _parse_global_opts self in
  _run_action self ;;
  matplotlib_show.

(** [py_main(args)] for an explicit [args]. *)
Definition py_main (args_ : list string) : M unit :=
  run (mkPyMain args_ None None []).

End Dispatcher.

(** ** [LoggedList] as a list

    The methods of [LoggedList] on the object itself, for integer
    indexes and whole-list iteration.  [index], [remove], [sort],
    [__contains__] and [__cmp__] compare arbitrary objects and are left
    out. *)

(** The position a Python list of length [n] gives index [i]; [None]
    when it is out of range. *)
Definition py_index (n : nat) (i : Z) : option nat :=
  let j := if (i <? 0)%Z then (i + Z.of_nat n)%Z else i in
  if ((0 <=? j) && (j <? Z.of_nat n))%Z then Some (Z.to_nat j) else None.

(** [l.insert(i, x)]: the position is clamped to the list. *)
Definition py_insert {A} (i : Z) (x : A) (l : list A) : list A :=
  let n := Z.of_nat (length l) in
  let j := Z.to_nat (if (i <? 0)%Z then Z.max 0 (i + n) else Z.min i n) in
  take j l ++ x :: drop j l.

(** [l.pop(i)]: the element and what is left of [l]. *)
Definition py_pop {A} (i : Z) (l : list A) : result (A * list A) :=
  match l with
  | [] => Raise (OtherException "IndexError" "pop from empty list")
  | _ :: _ =>
      match py_index (length l) i with
      | Some k =>
          match l !! k with
          | Some x => Ok (x, delete k l)
          | None => Raise (OtherException "IndexError" "pop index out of range")
          end
      | None => Raise (OtherException "IndexError" "pop index out of range")
      end
  end.

(** [l[i] = x] and [del l[i]] *)
Definition py_setitem {A} (i : Z) (x : A) (l : list A) : result (list A) :=
  match py_index (length l) i with
  | Some k => Ok (<[k := x]> l)
  | None => Raise (OtherException "IndexError" "list assignment index out of range")
  end.

Definition py_delitem {A} (i : Z) (l : list A) : result (list A) :=
  match py_index (length l) i with
  | Some k => Ok (delete k l)
  | None => Raise (OtherException "IndexError" "list assignment index out of range")
  end.

(** [l * n] *)
Definition py_repeat {A} (n : Z) (l : list A) : list A :=
  concat (replicate (Z.to_nat n) l).

Module LL.

(** What a method returns, and the object after the call. *)
Definition method (A : Type) : Type := LoggedList -> result A * LoggedList.

Definition append (x : value) : method unit :=
  fun self =>
    (Ok tt, mkLoggedList (ll_items self ++ [x]) (ll_unaccessed self ++ [None])).

(** [count()] forwards no argument to [list.count]. *)
Definition count : method Z :=
  fun self => (Raise (TypeError "count() takes exactly one argument (0 given)"), self).

Definition extend (new_items : list value) : method unit :=
  fun self =>
    (Ok tt, mkLoggedList (ll_items self ++ new_items)
                         (ll_unaccessed self ++ replicate (length new_items) None)).

Definition insert (index : Z) (x : value) : method unit :=
  fun self =>
    (Ok tt, mkLoggedList (py_insert index x (ll_items self))
                         (py_insert index None (ll_unaccessed self))).

Definition pop (index : Z) : method value :=
  fun self =>
    match py_pop index (ll_unaccessed self) with
    | Raise e => (Raise e, self)
    | Ok (_, unaccessed) =>
        match py_pop index (ll_items self) with
        | Raise e => (Raise e, mkLoggedList (ll_items self) unaccessed)
        | Ok (x, items) => (Ok x, mkLoggedList items unaccessed)
        end
    end.

Definition reverse : method unit :=
  fun self => (Ok tt, mkLoggedList (rev (ll_items self)) (rev (ll_unaccessed self))).

(** [self + other], [self * n] and [n * self] give plain lists. *)
Definition add (other : list value) : method (list value) :=
  fun self => (Ok (ll_items self ++ other), self).

Definition mul (n : Z) : method (list value) :=
  fun self => (Ok (py_repeat n (ll_items self)), self).

Definition rmul (n : Z) : method (list value) := mul n.

(** [del self[x]] *)
Definition delitem (x : Z) : method unit :=
  fun self =>
    match py_delitem x (ll_items self) with
    | Raise e => (Raise e, self)
    | Ok items =>
        match py_delitem x (ll_unaccessed self) with
        | Raise e => (Raise e, mkLoggedList items (ll_unaccessed self))
        | Ok unaccessed => (Ok tt, mkLoggedList items unaccessed)
        end
    end.

(** [self[idx]] *)
Definition getitem (idx : Z) : method value :=
  fun self =>
    match py_index (length (ll_items self)) idx with
    | None => (Raise IndexError, self)
    | Some k =>
        match ll_items self !! k with
        | None => (Raise IndexError, self)
        | Some result =>
            match py_setitem idx None (ll_unaccessed self) with
            | Raise e => (Raise e, self)
            | Ok unaccessed => (Ok result, mkLoggedList (ll_items self) unaccessed)
            end
        end
    end.

(** [self[:]] *)
Definition getslice_all : method (list value) :=
  fun self =>
    (Ok (ll_items self),
     mkLoggedList (ll_items self) (replicate (length (ll_items self)) None)).

Definition hash : method Z :=
  fun self => (Raise (TypeError "unhashable type: 'LoggedList'"), self).

(** [self += x] and [self *= n]; both methods return [None]. *)
Definition iadd (x : list value) : method unit := extend x.

Definition imul (n : Z) : method unit :=
  fun self =>
    (Ok tt, mkLoggedList (py_repeat n (ll_items self)) (py_repeat n (ll_unaccessed self))).

(** [list(self)] *)
Definition iter : method (list value) :=
  fun self =>
    let n := length (ll_items self) in
    let self' := mkLoggedList (ll_items self) (mark_accessed n (ll_unaccessed self)) in
    if (n <=? length (ll_unaccessed self))%nat
    then (Ok (ll_items self), self')
    else (Raise (OtherException "IndexError" "list assignment index out of range"), self').

Definition len : method Z :=
  fun self => (Ok (Z.of_nat (length (ll_items self))), self).

(** What [__repr__] and [__str__] do to the object. *)
Definition mark_all : method unit :=
  fun self =>
    (Ok tt, mkLoggedList (ll_items self) (replicate (length (ll_unaccessed self)) None)).

(** [list(reversed(self))] *)
Definition reversed : method (list value) :=
  fun self =>
    let n := length (ll_items self) in
    if (n <=? length (ll_unaccessed self))%nat
    then (Ok (rev (ll_items self)),
          mkLoggedList (ll_items self) (mark_accessed n (ll_unaccessed self)))
    else (Raise (OtherException "IndexError" "list assignment index out of range"), self).

(** [self[idx] = value] *)
Definition setitem (idx : Z) (value : value) : method unit :=
  fun self =>
    match py_setitem idx value (ll_items self) with
    | Raise e => (Raise e, self)
    | Ok items =>
        match py_setitem idx (Some value) (ll_unaccessed self) with
        | Raise e => (Raise e, mkLoggedList items (ll_unaccessed self))
        | Ok unaccessed => (Ok tt, mkLoggedList items unaccessed)
        end
    end.

(** [self.unaccessed] *)
Definition unaccessed (self : LoggedList) : list value := omap id (ll_unaccessed self).

(** A call of one of the methods that change the object. *)
Inductive call : Type :=
| Append (x : value)
| Extend (new_items : list value)
| Insert (index : Z) (x : value)
| Pop (index : Z)
| Reverse
| Delitem (x : Z)
| Getitem (idx : Z)
| GetsliceAll
| Iadd (x : list value)
| Imul (n : Z)
| Iter
| MarkAll
| Reversed
| Setitem (idx : Z) (v : value).

(** The object after the call, whether it returned or raised. *)
Definition after (c : call) (self : LoggedList) : LoggedList :=
  match c with
  | Append x => (append x self).2
  | Extend l => (extend l self).2
  | Insert i x => (insert i x self).2
  | Pop i => (pop i self).2
  | Reverse => (reverse self).2
  | Delitem i => (delitem i self).2
  | Getitem i => (getitem i self).2
  | GetsliceAll => (getslice_all self).2
  | Iadd l => (iadd l self).2
  | Imul n => (imul n self).2
  | Iter => (iter self).2
  | MarkAll => (mark_all self).2
  | Reversed => (reversed self).2
  | Setitem i v => (setitem i v self).2
  end.

(** Whether the call raised. *)
Definition raised (c : call) (self : LoggedList) : bool :=
  match c with
  | Pop i => negb (is_ok (pop i self).1)
  | Delitem i => negb (is_ok (delitem i self).1)
  | Getitem i => negb (is_ok (getitem i self).1)
  | Iter => negb (is_ok (iter self).1)
  | Reversed => negb (is_ok (reversed self).1)
  | Setitem i v => negb (is_ok (setitem i v self).1)
  | _ => false
  end.

(** [_unaccessed] lines up with [_items]: each entry is the sentinel or
    the item at its position. *)
Definition aligned (self : LoggedList) : Prop :=
  Forall2 (fun x u => u = None \/ u = Some x) (ll_items self) (ll_unaccessed self).

End LL.
(** ** What the further properties are stated with *)

(** The tokens the scanning loop takes as positional values: no
    leading dash, and not a help or source request. *)
Definition plain_token (t : string) : bool :=
  negb (PyStr.startswith t "-") && negb (PyStr.mem t ["?"; "??"]).

(** The world in which the body of [with SysArgvCtx( *args)] starts
    when [sys.argv] was a plain list: [sys.argv] is a new [LoggedList]
    of the arguments, whose first entry has been read. *)
Definition SysArgvCtx_entered (args_ : list value) (w : world) : world :=
  let argv := next_addr w in
  set_sys_argv (ArgvLogged argv)
    (set_heap (<[argv := mkLoggedList args_ (<[0 := None]> (map Some args_))]>
                 (<[argv := LoggedList_init args_]> (heap w)))
              (S argv) w).

(** Two worlds that differ at most in the logging level and in the
    environment variables. *)
Definition same_but_level_and_environ (w w' : world) : Prop :=
  stdin w' = stdin w /\ stdout w' = stdout w /\ stderr w' = stderr w
  /\ log_error w' = log_error w /\ log_info w' = log_info w
  /\ sys_argv w' = sys_argv w /\ sys_orig_argv w' = sys_orig_argv w
  /\ heap w' = heap w /\ next_addr w' = next_addr w
  /\ ns_globals w' = ns_globals w /\ ns_autoimported w' = ns_autoimported w.


(** ** Test doubles

    A small runtime and a small set of collaborators on which the model
    runs: they know a handful of expressions and one function. *)

Module Demo.

Definition show (v : value) : string :=
  match v with
  | VNone => "None"
  | VBool true => "True"
  | VBool false => "False"
  | VInt n => pretty n
  | VFloat f => if PrimFloat.eqb f 0.75%float then "0.75" else "<float>"
  | VStr s => "'" +:+ s +:+ "'"
  | VObj cls _ | VDisplayable cls _ _ | VDisplayFails cls _ _ _ =>
      "<" +:+ cls +:+ " object>"
  end.

Definition show_str (v : value) : string :=
  match v with
  | VStr s => s
  | _ => show v
  end.

Definition builtins : PyBuiltins :=
  {| repr := show; str_ := show_str; pformat := show |}.

(** [A-Za-z_][A-Za-z0-9_]* *)
Definition ident (s : string) : bool :=
  match s with
  | EmptyString => false
  | String c _ =>
      (is_alpha c || Ascii.eqb c "_")
      && all_chars (fun c => is_name_char c && negb (Ascii.eqb c ".")) s
  end.

(** What an expression does when evaluated. *)
Inductive behaviour : Type :=
| Evaluates (v : value)
| Unimportable (name : string)
| Fails (e : exn).

Definition weekday : value := VObj "function" 1.

(** The expressions that parse, and what evaluating them does. *)
Definition known : list (string * behaviour) :=
  [("3 / 4", Evaluates (VFloat (3 / 4)%float));
   ("3", Evaluates (VInt 3));
   ("4", Evaluates (VInt 4));
   ("1", Evaluates (VInt 1));
   ("2", Evaluates (VInt 2));
   ("7", Evaluates (VInt 7));
   ("16", Evaluates (VInt 16));
   ("2014", Evaluates (VInt 2014));
   ("weekday", Evaluates weekday);
   ("foo5+2", Unimportable "foo5");
   ("1/0", Fails (OtherException "ZeroDivisionError"
                    "integer division or modulo by zero"));
   ("1+'a'", Fails (TypeError "unsupported operand type(s) for +: 'int' and 'str'"))].

Definition lookup (s : string) : option behaviour :=
  snd <$> List.find (fun kv => String.eqb (fst kv) s) known.

Definition block_behaviour (b : block) : option behaviour :=
  match b with
  | BlockText s => lookup s
  | _ => None
  end.

Definition parses (s : string) (auto_flags : bool) : bool :=
  match lookup s with Some _ => true | None => false end.

Definition imports (b : block) : M bool :=
  match block_behaviour b with
  | Some (Unimportable _) | None => ret false
  | _ => ret true
  end.

Definition missing (b : block) (w : world) : list value :=
  match block_behaviour b with
  | Some (Unimportable n) => [VStr n]
  | None => [VStr (block_str b)]
  | _ => []
  end.

Definition evaluates (b : block) (mode : option string) : M value :=
  match block_behaviour b with
  | Some (Evaluates v) => ret v
  | Some (Fails e) => raise e
  | Some (Unimportable _) | None =>
      raise (NameError ("name '" +:+ block_str b +:+ "' is not defined"))
  end.

Definition is_function (v : value) : bool :=
  match v with VObj "function" _ => true | _ => false end.

Definition weekday_spec : ArgSpec :=
  mkArgSpec ["year"; "month"; "day"] None None None.

Definition argspec_of (v : value) : result ArgSpec :=
  match v with
  | VObj "function" _ => Ok weekday_spec
  | _ => Raise (TypeError ("_get_argspec: unexpected " +:+ type_name v))
  end.

(** The one function returns what it was called with, as a count. *)
Definition calls (f : value) (a : list value) (k : gmap string value) : M value :=
  ret (VInt (Z.of_nat (length a))).

Definition collaborators : Collaborators :=
  {| is_identifier := ident;
     is_dotted_identifier := fun s => all_chars is_name_char s;
     parsable_as_expression := parses;
     parsable := parses;
     auto_import := imports;
     find_missing_imports := missing;
     auto_eval := evaluates;
     callable := is_function;
     func_name := fun _ => Some "weekday";
     call_function := calls;
     _get_argspec := argspec_of;
     _requires_parens_as_function := fun s => negb (all_chars is_name_char s);
     formatargspec := fun a => "(" +:+ PyStr.join ", " (args a) +:+ ")";
     shquote := fun s => s;
     basename := fun s => s;
     indent := fun s p => p +:+ s;
     get_version := fun _ => None;
     getfile := fun _ => None;
     getsource := fun _ => None;
     getdoc := fun _ => None;
     filename_safe := fun s => all_chars (fun c => is_name_char c || Ascii.eqb c "/") s;
     filename_ext := fun s =>
       if PyStr.endswith s ".py" then ".py" else "";
     filename_exists := fun _ _ => false;
     filename_str := fun s => s;
     module_name := fun s => s;
     module_parent := fun _ => None;
     module_filename := fun _ => ret None;
     module_object := fun _ => ret VNone;
     is_module := fun _ => false;
     runpy_run_module := fun _ => ret tt;
     off_a_builtin := fun _ => false;
     start_ipython_with_autoimporter := fun _ => ret tt;
     run_ipython_line_magic := fun _ => ret tt;
     syntax := fun _ => raise (SystemExit (VInt 1));
     print_version_and_exit := raise (SystemExit (VInt 0));
     isatty0 := fun _ => false;
     matplotlib_show := ret tt;
     module_doc := "" |}.

(** A process that has just started: [sys.argv] as the shell gave it,
    [sys.orig_argv] as [run] copies it. *)
Definition w0 : world :=
  {| stdin := "hello";
     stdout := [];
     stderr := [];
     log_error := [];
     log_info := [];
     info_enabled := true;
     sys_argv := ArgvList [VStr "py"];
     sys_orig_argv := Some [VStr "py"];
     heap := fun _ => mkLoggedList [] [];
     next_addr := 0;
     ns_globals := ∅;
     ns_autoimported := ∅;
     environ := ∅ |}.

End Demo.

(** * Properties *)

(** ** Result printer *)

Section PrinterProperties.
Context `{!PyBuiltins}.

(** C1 (as the code has it): for a value with an
    [__interactive_display__] that returns, [print_result] in
    [interactive] mode (under any of its spellings, and by default)
    calls it, then matches none of the printing branches (the mode it
    continues with is [result-if-not-none]) and raises
    [AssertionError]; nothing is printed. *)
Theorem print_result_interactive_display_asserts :
  forall output_mode cls ident shown w,
    _interpret_output_mode output_mode "interactive" = Ok "interactive" ->
    print_result (VDisplayable cls ident shown) output_mode w
    = (Raise (AssertionError
                ("unexpected output_mode=" +:+ repr (VStr "result-if-not-none"))), w).
Proof.
  intros output_mode cls ident shown w Hmode.
  unfold print_result. unfold bind at 1, lift. by rewrite Hmode.
Qed.

(** Without the attribute, [interactive] is [pprint-if-not-none]. *)
Lemma print_result_interactive_plain :
  forall v w,
    v <> VNone ->
    (forall cls ident shown, v <> VDisplayable cls ident shown) ->
    (forall cls ident ecls emsg, v <> VDisplayFails cls ident ecls emsg) ->
    print_result v (Some "interactive") w = (Ok tt, add_stdout (pformat v) w).
Proof.
  intros v w Hnone Hd Hf.
  destruct v; try reflexivity;
    [by destruct Hnone | by edestruct Hd | by edestruct Hf].
Qed.

End PrinterProperties.

(** An object whose [__interactive_display__] returns ['hi']: the text
    is not printed, the call ends in the assertion failure. *)
Lemma print_result_interactive_display_example :
  @print_result Demo.builtins (VDisplayable "Greeting" 1 (VStr "hi")) (Some "interactive")
                Demo.w0
  = (Raise (AssertionError "unexpected output_mode='result-if-not-none'"), Demo.w0)
  /\ @print_result Demo.builtins (VDisplayable "Greeting" 1 (VStr "hi")) None Demo.w0
     = (Raise (AssertionError "unexpected output_mode='result-if-not-none'"), Demo.w0).
Proof.
  split.
  - exact (@print_result_interactive_display_asserts Demo.builtins (Some "interactive")
             "Greeting" 1 (VStr "hi") Demo.w0 eq_refl).
  - exact (@print_result_interactive_display_asserts Demo.builtins None
             "Greeting" 1 (VStr "hi") Demo.w0 eq_refl).
Defined.

(** ** Value-or-string parser *)

Section ValueParserProperties.
Context `{!PyBuiltins, !Collaborators}.

Lemma bind_ok {A B} (m : M A) (k : A -> M B) w a w' :
  m w = (Ok a, w') -> bind m k w = k a w'.
Proof. intros E. unfold bind. by rewrite E. Qed.

Lemma bind_raise {A B} (m : M A) (k : A -> M B) w e w' :
  m w = (Raise e, w') -> bind m k w = (Raise e, w').
Proof. intros E. unfold bind. by rewrite E. Qed.

(** Names left unresolved by the import make [namespace.auto_eval]
    raise [UnimportableNameError], in the world the import left. *)
Lemma Namespace_auto_eval_unimportable b mode info w w1 :
  auto_import b w = (Ok false, w1) ->
  find_missing_imports b w1 <> [] ->
  exists msg, Namespace_auto_eval b mode info w = (Raise (UnimportableNameError msg), w1).
Proof.
  intros Himp Hmiss. unfold Namespace_auto_eval.
  rewrite (bind_ok _ _ _ _ _ Himp). cbn [negb].
  unfold bind at 1.
  destruct (find_missing_imports b w1) as [|m1 [|m2 ms]]; [done | |];
    eexists; reflexivity.
Qed.

(** C2: in mode [auto], a token that does not parse as an expression
    is returned as it is; a token that parses but whose names stay
    unresolved after the import (so that the evaluation raises
    [UnimportableNameError]) is returned as it is, in the world the
    attempt left; every other exception of the evaluation comes out of
    [_parse_value_or_string] unchanged; a value is passed on. *)
Theorem parse_value_or_string_auto :
  forall (token : string) (w : world),
    (parsable_as_expression token false = false ->
     _parse_value_or_string (VStr token) "auto" w = (Ok (VStr token), w))
    /\ (parsable_as_expression token false = true ->
        forall w1,
          auto_import (BlockText token) w = (Ok false, w1) ->
          find_missing_imports (BlockText token) w1 <> [] ->
          _parse_value_or_string (VStr token) "auto" w = (Ok (VStr token), w1))
    /\ (parsable_as_expression token false = true ->
        forall msg w1,
          Namespace_auto_eval (BlockText token) None false w
          = (Raise (UnimportableNameError msg), w1) ->
          _parse_value_or_string (VStr token) "auto" w = (Ok (VStr token), w1))
    /\ (parsable_as_expression token false = true ->
        forall e w1,
          Namespace_auto_eval (BlockText token) None false w = (Raise e, w1) ->
          (forall msg, e <> UnimportableNameError msg) ->
          _parse_value_or_string (VStr token) "auto" w = (Raise e, w1))
    /\ (parsable_as_expression token false = true ->
        forall v w1,
          Namespace_auto_eval (BlockText token) None false w = (Ok v, w1) ->
          _parse_value_or_string (VStr token) "auto" w = (Ok v, w1)).
Proof.
  intros token w.
  assert (Hcaught : parsable_as_expression token false = true ->
            forall msg w1,
              Namespace_auto_eval (BlockText token) None false w
              = (Raise (UnimportableNameError msg), w1) ->
              _parse_value_or_string (VStr token) "auto" w = (Ok (VStr token), w1)).
  { intros Hp msg w1 E. cbn. rewrite Hp. unfold catch. by rewrite E. }
  repeat split.
  - intros Hp. cbn. by rewrite Hp.
  - intros Hp w1 Himp Hmiss.
    destruct (Namespace_auto_eval_unimportable _ None false _ _ Himp Hmiss) as [msg E].
    eauto.
  - done.
  - intros Hp e w1 E Hne. cbn. rewrite Hp. unfold catch. rewrite E.
    destruct e; try reflexivity. by destruct (Hne msg).
  - intros Hp v w1 E. cbn. rewrite Hp. unfold catch. by rewrite E.
Qed.

(** C10: a value that is not a [str] makes [_parse_value_or_string]
    raise the [TypeError] that names its type, whatever [arg_mode] is
    (also [string], also no mode at all), and leaves the world as it
    was; on a [str] a [TypeError] can only come out of the evaluation
    of the token in mode [eval] or [auto]. *)
Theorem parse_value_or_string_type_guard :
  (forall (arg : value) (arg_mode : string) (w : world),
      as_str arg = None ->
      _parse_value_or_string arg arg_mode w
      = (Raise (TypeError ("_parse_value_or_string(): expected str instead of "
                           +:+ type_name arg)), w))
  /\ (forall (s arg_mode msg : string) (w w1 : world),
        _parse_value_or_string (VStr s) arg_mode w = (Raise (TypeError msg), w1) ->
        (arg_mode = "eval" \/ arg_mode = "auto")
        /\ parsable_as_expression s false = true
        /\ Namespace_auto_eval (BlockText s) None false w = (Raise (TypeError msg), w1)).
Proof.
  split.
  - intros arg arg_mode w Hns. unfold _parse_value_or_string. by rewrite Hns.
  - intros s arg_mode msg w w1. unfold _parse_value_or_string. cbn [as_str].
    destruct (String.eqb_spec arg_mode "string") as [->|_]; [discriminate|].
    destruct (String.eqb_spec arg_mode "eval") as [->|_].
    { destruct (parsable_as_expression s false); [|discriminate]. intros E. auto. }
    destruct (String.eqb_spec arg_mode "auto") as [->|_].
    { destruct (parsable_as_expression s false); [|discriminate].
      unfold catch.
      destruct (Namespace_auto_eval (BlockText s) None false w) as [[v|e] w2] eqn:E;
        [discriminate|].
      destruct e; try discriminate. intros [= -> ->]. auto. }
    destruct (String.eqb arg_mode "error"); discriminate.
Qed.

End ValueParserProperties.

Lemma parse_value_or_string_auto_witness :
  @_parse_value_or_string Demo.builtins Demo.collaborators (VStr "5foo+2") "auto" Demo.w0
  = (Ok (VStr "5foo+2"), Demo.w0)
  /\ @_parse_value_or_string Demo.builtins Demo.collaborators (VStr "foo5+2") "auto" Demo.w0
     = (Ok (VStr "foo5+2"), Demo.w0)
  /\ @_parse_value_or_string Demo.builtins Demo.collaborators (VStr "1/0") "auto" Demo.w0
     = (Raise (OtherException "ZeroDivisionError" "integer division or modulo by zero"),
        Demo.w0)
  /\ @_parse_value_or_string Demo.builtins Demo.collaborators (VStr "3 / 4") "auto" Demo.w0
     = (Ok (VFloat 0.75), Demo.w0).
Proof.
  split; [|split; [|split]].
  - apply (proj1 (@parse_value_or_string_auto Demo.builtins Demo.collaborators
                    "5foo+2" Demo.w0)).
    reflexivity.
  - destruct (@parse_value_or_string_auto Demo.builtins Demo.collaborators
                "foo5+2" Demo.w0) as (_ & H & _).
    apply H; [reflexivity | reflexivity | discriminate].
  - destruct (@parse_value_or_string_auto Demo.builtins Demo.collaborators
                "1/0" Demo.w0) as (_ & _ & _ & H & _).
    apply H; [reflexivity | reflexivity | discriminate].
  - destruct (@parse_value_or_string_auto Demo.builtins Demo.collaborators
                "3 / 4" Demo.w0) as (_ & _ & _ & _ & H).
    apply H; reflexivity.
Defined.

Lemma parse_value_or_string_type_guard_witness :
  @_parse_value_or_string Demo.builtins Demo.collaborators (VInt 3) "string" Demo.w0
  = (Raise (TypeError "_parse_value_or_string(): expected str instead of int"), Demo.w0)
  /\ @Namespace_auto_eval Demo.builtins Demo.collaborators (BlockText "1+'a'") None false
       Demo.w0
     = (Raise (TypeError "unsupported operand type(s) for +: 'int' and 'str'"), Demo.w0).
Proof.
  destruct (@parse_value_or_string_type_guard Demo.builtins Demo.collaborators)
    as [Hguard Hstr].
  split.
  - apply (Hguard (VInt 3) "string" Demo.w0). reflexivity.
  - apply (Hstr "1+'a'" "eval" _ Demo.w0 Demo.w0). reflexivity.
Defined.

(** ** Mode resolvers *)

Section ResolverProperties.
Context `{!PyBuiltins}.

Lemma is_space_lower_char c : PyStr.is_space (PyStr.lower_char c) = PyStr.is_space c.
Proof. destruct c as [[] [] [] [] [] [] [] []]; reflexivity. Qed.

Lemma is_sep_not_space c : is_sep c = true -> PyStr.is_space c = false.
Proof. destruct c as [[] [] [] [] [] [] [] []]; (reflexivity || discriminate). Qed.

Lemma str_app_cons c a b : String c a +:+ b = String c (a +:+ b).
Proof. reflexivity. Qed.

Lemma str_app_nil b : "" +:+ b = b.
Proof. reflexivity. Qed.

Lemma lower_app a b : PyStr.lower (a +:+ b) = PyStr.lower a +:+ PyStr.lower b.
Proof.
  induction a as [|c a IH]; [done|].
  rewrite str_app_cons. cbn [PyStr.lower]. by rewrite IH, str_app_cons.
Qed.

Lemma remove_char_app x a b :
  PyStr.remove_char x (a +:+ b) = PyStr.remove_char x a +:+ PyStr.remove_char x b.
Proof.
  induction a as [|c a IH]; [done |].
  rewrite str_app_cons. cbn [PyStr.remove_char].
  destruct (Ascii.eqb c x); by rewrite IH, ?str_app_cons.
Qed.

Lemma squeezed_app a b : squeezed (a +:+ b) = squeezed a +:+ squeezed b.
Proof. unfold squeezed. by rewrite lower_app, !remove_char_app. Qed.

Lemma squeezed_sep c b : is_sep c = true -> squeezed (String c b) = squeezed b.
Proof.
  unfold squeezed, is_sep. intros Hc.
  destruct (Ascii.eqb_spec c "-") as [->|_]; [reflexivity|].
  destruct (Ascii.eqb_spec c "_") as [->|_]; [reflexivity|discriminate].
Qed.

Lemma squeezed_case c d b :
  PyStr.lower_char c = PyStr.lower_char d -> squeezed (String c b) = squeezed (String d b).
Proof. unfold squeezed. cbn. by intros ->. Qed.

Lemma respell_squeezed s t : respell s t -> squeezed s = squeezed t.
Proof.
  destruct 1 as [a b c Hc | a b c Hc | a b c d Hcd]; rewrite !squeezed_app; f_equal.
  - by rewrite squeezed_sep.
  - by rewrite squeezed_sep.
  - by apply squeezed_case.
Qed.

Lemma rtc_respell_squeezed s t : rtc respell s t -> squeezed s = squeezed t.
Proof.
  induction 1 as [|s u t Hsu _ IH]; [done|].
  by rewrite (respell_squeezed _ _ Hsu).
Qed.

Lemma recase_lower s t : recase s t -> PyStr.lower s = PyStr.lower t.
Proof.
  destruct 1 as [a b c d Hcd]. rewrite !lower_app. cbn [PyStr.lower]. by rewrite Hcd.
Qed.

Lemma rtc_recase_lower s t : rtc recase s t -> PyStr.lower s = PyStr.lower t.
Proof.
  induction 1 as [|s u t Hsu _ IH]; [done|].
  by rewrite (recase_lower _ _ Hsu).
Qed.

Lemma lstrip_lower s : PyStr.lstrip (PyStr.lower s) = PyStr.lower (PyStr.lstrip s).
Proof.
  induction s as [|c s IH]; cbn; [done|].
  rewrite is_space_lower_char. by destruct (PyStr.is_space c).
Qed.

Lemma rstrip_lower s : PyStr.rstrip (PyStr.lower s) = PyStr.lower (PyStr.rstrip s).
Proof.
  induction s as [|c s IH]; cbn; [done|].
  rewrite IH, is_space_lower_char.
  destruct (PyStr.rstrip s); cbn; [by destruct (PyStr.is_space c) | done].
Qed.

Lemma strip_lower s : PyStr.lower (PyStr.strip s) = PyStr.strip (PyStr.lower s).
Proof. unfold PyStr.strip. by rewrite lstrip_lower, rstrip_lower. Qed.

Lemma no_space_strip s : no_space s = true -> PyStr.strip s = s.
Proof.
  unfold PyStr.strip, no_space. intros Hs.
  assert (PyStr.lstrip s = s) as ->.
  { destruct s as [|c s]; cbn in *; [done|].
    by destruct (PyStr.is_space c). }
  induction s as [|c s IH]; cbn in *; [done|].
  apply andb_prop in Hs as [Hc Hs]. rewrite (IH Hs).
  destruct s; [by destruct (PyStr.is_space c) | done].
Qed.

Lemma no_space_lower s : no_space (PyStr.lower s) = no_space s.
Proof.
  unfold no_space. induction s as [|c s IH]; cbn; [done|].
  by rewrite is_space_lower_char, IH.
Qed.

Lemma no_space_squeezed s : no_space (squeezed s) = no_space s.
Proof.
  unfold no_space, squeezed. induction s as [|c s IH]; [done|].
  cbn [PyStr.lower PyStr.remove_char all_chars].
  destruct (Ascii.eqb_spec (PyStr.lower_char c) "-") as [E|_].
  { assert (c = "-"%char) as -> by
      (destruct c as [[] [] [] [] [] [] [] []]; (reflexivity || discriminate)).
    by rewrite IH. }
  cbn [PyStr.remove_char].
  destruct (Ascii.eqb_spec (PyStr.lower_char c) "_") as [E|_].
  { assert (c = "_"%char) as -> by
      (destruct c as [[] [] [] [] [] [] [] []]; (reflexivity || discriminate)).
    by rewrite IH. }
  cbn [all_chars]. by rewrite is_space_lower_char, IH.
Qed.

Lemma output_alias_clean a m :
  output_mode_of_rarg a = Some m -> squeezed a = a /\ no_space a = true.
Proof.
  unfold output_mode_of_rarg, PyStr.mem. intros Hm.
  repeat (case_bool_decide as Hin;
          [clear Hm; set_unfold in Hin; destruct_or!; try done; subst a; by vm_compute | clear Hin]).
  discriminate.
Qed.

Lemma arg_alias_clean a m :
  arg_mode_of_rarg a = Some m -> PyStr.lower a = a /\ no_space a = true.
Proof.
  unfold arg_mode_of_rarg, PyStr.mem. intros Hm.
  repeat (case_bool_decide as Hin;
          [clear Hm; set_unfold in Hin; destruct_or!; try done; subst a; by vm_compute | clear Hin]).
  destruct (String.eqb_spec a "error") as [->|_]; [by vm_compute | discriminate].
Qed.

Lemma interpret_output_mode_squeezed s d :
  resolved (_interpret_output_mode (Some s) d) = output_mode_of_rarg (squeezed (PyStr.strip s)).
Proof.
  unfold _interpret_output_mode, squeezed.
  by destruct (output_mode_of_rarg _).
Qed.

Lemma interpret_arg_mode_lower s d :
  resolved (_interpret_arg_mode (Some s) d)
  = arg_mode_of_rarg (PyStr.lower (PyStr.strip s)).
Proof.
  unfold _interpret_arg_mode.
  by destruct (arg_mode_of_rarg _).
Qed.

Lemma resolved_ok r m : resolved r = Some m -> r = Ok m.
Proof. destruct r; cbn; congruence. Qed.

(** C6 (as the code has it): both resolvers give the same answer on
    inputs that differ in letter case only; [_interpret_output_mode]
    also gives the same answer on inputs whose stripped forms differ
    in ['-'] and ['_'] separators, and maps every case and separator
    variant of one of its aliases to the alias's mode;
    [_interpret_arg_mode] maps every case variant of one of its aliases
    to the alias's mode. *)
Theorem mode_resolvers_insensitivity :
  (forall s t d,
      rtc recase s t ->
      resolved (_interpret_arg_mode (Some s) d) = resolved (_interpret_arg_mode (Some t) d))
  /\ (forall s t d,
        rtc recase s t ->
        resolved (_interpret_output_mode (Some s) d)
        = resolved (_interpret_output_mode (Some t) d))
  /\ (forall s t d,
        rtc respell (PyStr.strip s) (PyStr.strip t) ->
        resolved (_interpret_output_mode (Some s) d)
        = resolved (_interpret_output_mode (Some t) d))
  /\ (forall alias t d m,
        output_mode_of_rarg alias = Some m ->
        rtc respell alias t ->
        _interpret_output_mode (Some alias) d = Ok m
        /\ _interpret_output_mode (Some t) d = Ok m)
  /\ (forall alias t d m,
        arg_mode_of_rarg alias = Some m ->
        rtc recase alias t ->
        _interpret_arg_mode (Some alias) d = Ok m
        /\ _interpret_arg_mode (Some t) d = Ok m).
Proof.
  split; [|split; [|split; [|split]]].
  - intros s t d Hst. rewrite !interpret_arg_mode_lower, !strip_lower.
    by rewrite (rtc_recase_lower _ _ Hst).
  - intros s t d Hst. rewrite !interpret_output_mode_squeezed.
    unfold squeezed. rewrite !strip_lower. by rewrite (rtc_recase_lower _ _ Hst).
  - intros s t d Hst. rewrite !interpret_output_mode_squeezed.
    by rewrite (rtc_respell_squeezed _ _ Hst).
  - intros alias t d m Halias Hvar.
    destruct (output_alias_clean _ _ Halias) as [Hn Hs].
    split; apply resolved_ok; rewrite interpret_output_mode_squeezed.
    + by rewrite (no_space_strip _ Hs), Hn.
    + assert (Ht : no_space t = true).
      { by rewrite <- no_space_squeezed, <- (rtc_respell_squeezed _ _ Hvar), Hn. }
      by rewrite (no_space_strip _ Ht), <- (rtc_respell_squeezed _ _ Hvar), Hn.
  - intros alias t d m Halias Hvar.
    destruct (arg_alias_clean _ _ Halias) as [Hn Hs].
    split; apply resolved_ok; rewrite interpret_arg_mode_lower.
    + by rewrite (no_space_strip _ Hs), Hn.
    + assert (Ht : no_space t = true).
      { by rewrite <- no_space_lower, <- (rtc_recase_lower _ _ Hvar), Hn. }
      by rewrite (no_space_strip _ Ht), <- (rtc_recase_lower _ _ Hvar), Hn.
Qed.

End ResolverProperties.

(** The spellings ["eval"] and ["e-val"] differ by one separator, and
    [_interpret_arg_mode] accepts the first and rejects the second; the
    spellings [" repr"] and ["- repr"] differ by one separator, and
    [_interpret_output_mode] accepts the first and rejects the second
    (the separator shields the blank from [strip]). *)
Lemma mode_separator_counterexample :
  (respell "eval" "e-val"
   /\ resolved (@_interpret_arg_mode Demo.builtins (Some "eval") "auto") = Some "eval"
   /\ resolved (@_interpret_arg_mode Demo.builtins (Some "e-val") "auto") = None)
  /\ (respell " repr" "- repr"
      /\ resolved (@_interpret_output_mode Demo.builtins (Some " repr") "interactive")
         = Some "repr"
      /\ resolved (@_interpret_output_mode Demo.builtins (Some "- repr") "interactive")
         = None).
Proof.
  split; (split; [|split; reflexivity]).
  - exact (respell_insert "e" "val" "-" eq_refl).
  - exact (respell_insert "" " repr" "-" eq_refl).
Qed.

Lemma mode_resolvers_insensitivity_witness :
  resolved (@_interpret_arg_mode Demo.builtins (Some "Str") "auto")
  = resolved (@_interpret_arg_mode Demo.builtins (Some "str") "auto")
  /\ @_interpret_output_mode Demo.builtins (Some "Repr_If_Not_None") "interactive"
     = Ok "repr-if-not-none".
Proof.
  destruct (@mode_resolvers_insensitivity Demo.builtins) as (Harg & _ & _ & Hout & _).
  split.
  - apply Harg. apply rtc_once. exact (recase_char "" "tr" "S" "s" eq_refl).
  - apply (Hout "reprifnotnone"); [reflexivity|].
    eapply rtc_l; [exact (respell_case "" "eprifnotnone" "r" "R" eq_refl)|].
    eapply rtc_l; [exact (respell_insert "Repr" "ifnotnone" "_" eq_refl)|].
    eapply rtc_l; [exact (respell_case "Repr_" "fnotnone" "i" "I" eq_refl)|].
    eapply rtc_l; [exact (respell_insert "Repr_If" "notnone" "_" eq_refl)|].
    eapply rtc_l; [exact (respell_case "Repr_If_" "otnone" "n" "N" eq_refl)|].
    eapply rtc_l; [exact (respell_insert "Repr_If_Not" "none" "_" eq_refl)|].
    apply rtc_once. exact (respell_case "Repr_If_Not_" "one" "n" "N" eq_refl).
Defined.

(** ** Argument binder: the scanning loop *)

Section ScanProperties.
Context `{!PyBuiltins, !Collaborators}.

(** What the loop does with an option token whose name is an
    identifier. *)
Lemma scan_option_token argspec prefix2argname arg_mode arg rest pos kw w n equalsign v :
  is_option_token arg = true ->
  split_option arg = (n, equalsign, v) ->
  is_identifier n = true ->
  scan_args argspec prefix2argname arg_mode (arg :: rest) pos kw w
  = match resolve_option argspec prefix2argname n equalsign with
    | Raise e => (Raise e, w)
    | Ok name =>
        if String.eqb v "" then
          match rest with
          | [] => (Raise (ParseError ("Missing argument to " +:+ arg)), w)
          | value :: rest' =>
              if PyStr.startswith value "--" then
                (Raise (ParseError
                   ("Missing argument to " +:+ arg +:+ ".  "
                    +:+ "If you really want to use " +:+ repr (VStr value)
                    +:+ " as the argument to " +:+ arg +:+ ", "
                    +:+ "then use " +:+ arg +:+ "=" +:+ value +:+ ".")), w)
              else scan_args argspec prefix2argname arg_mode rest' pos
                             (<[name := value]> kw) w
          end
        else scan_args argspec prefix2argname arg_mode rest pos (<[name := v]> kw) w
    end.
Proof.
  unfold is_option_token, split_option. cbn [scan_args].
  destruct (PyStr.mem arg ["--?"; "-?"; "?"]); [discriminate|].
  destruct (PyStr.mem arg ["--??"; "-??"; "??"]); [discriminate|].
  destruct (PyStr.startswith arg "-"); [|discriminate].
  destruct (arg =? "-")%string; [discriminate|].
  destruct (arg =? "--")%string; [discriminate|].
  intros _.
  destruct (PyStr.partition "=" _) as [[argname e] v0].
  intros [= -> -> ->] ->. cbn [negb]. unfold bind, lift.
  destruct (resolve_option _ _ _ _) as [name|err]; [|done].
  destruct (v =? "")%string; [|done].
  destruct rest as [|value rest']; [done|].
  by destruct (PyStr.startswith value "--").
Qed.

Lemma scan_read_option argspec prefix2argname arg_mode tokens pos kw w name value rest :
  read_option argspec prefix2argname tokens = Some (name, value, rest) ->
  scan_args argspec prefix2argname arg_mode tokens pos kw w
  = scan_args argspec prefix2argname arg_mode rest pos (<[name := value]> kw) w.
Proof.
  unfold read_option. destruct tokens as [|arg rest0]; [discriminate|].
  destruct (is_option_token arg) eqn:Htok; [|discriminate]. cbn [negb].
  destruct (split_option arg) as [[n e] v] eqn:Hsplit.
  destruct (is_identifier n) eqn:Hid; [|discriminate]. cbn [negb].
  rewrite (scan_option_token _ _ _ _ _ _ _ _ _ _ _ Htok Hsplit Hid).
  destruct (resolve_option _ _ _ _) as [nm|err]; [|discriminate].
  destruct (v =? "")%string.
  - destruct rest0 as [|value0 rest']; [discriminate|].
    destruct (PyStr.startswith value0 "--"); [discriminate|].
    by intros [= -> -> ->].
  - by intros [= -> -> ->].
Qed.

(** The loop only adds to what it was given: the positional values it
    collects come after the ones it started with, the keyword values it
    records override the ones it started with. *)
Lemma scan_args_frame argspec prefix2argname arg_mode tokens :
  forall pos kw w,
    scan_args argspec prefix2argname arg_mode tokens pos kw w
    = match scan_args argspec prefix2argname arg_mode tokens [] ∅ w with
      | (Ok (p, k), w') => (Ok (pos ++ p, k ∪ kw), w')
      | (Raise e, w') => (Raise e, w')
      end.
Proof.
  remember (length tokens) as n eqn:Hn.
  revert tokens Hn. induction (lt_wf n) as [n _ IH]. intros tokens Hn pos kw w. subst n.
  assert (IHs : forall ts pos kw w,
             length ts < length tokens ->
             scan_args argspec prefix2argname arg_mode ts pos kw w
             = match scan_args argspec prefix2argname arg_mode ts [] ∅ w with
               | (Ok (p, k), w') => (Ok (pos ++ p, k ∪ kw), w')
               | (Raise e, w') => (Raise e, w')
               end).
  { intros ts pos' kw' w' Hlt. by eapply IH. }
  clear IH.
  assert (Hstep : forall ts p0 k0 w0,
             length ts < length tokens ->
             scan_args argspec prefix2argname arg_mode ts (pos ++ p0) (k0 ∪ kw) w0
             = match scan_args argspec prefix2argname arg_mode ts p0 k0 w0 with
               | (Ok (p, k), w') => (Ok (pos ++ p, k ∪ kw), w')
               | (Raise e, w') => (Raise e, w')
               end).
  { intros ts p0 k0 w0 Hlt.
    rewrite (IHs ts (pos ++ p0) (k0 ∪ kw) w0 Hlt), (IHs ts p0 k0 w0 Hlt).
    destruct (scan_args _ _ _ ts [] ∅ w0) as [[[p k]|e] w1]; [|done].
    by rewrite app_assoc, (assoc_L (∪)). }
  assert (Hins : forall (m : gmap string string) k v, <[k := v]> m = <[k := v]> ∅ ∪ m).
  { intros m k v. exact (insert_union_singleton_l m k v). }
  destruct tokens as [|arg rest].
  { cbn. by rewrite app_nil_r, (left_id_L ∅ (∪)). }
  destruct (is_option_token arg) eqn:Htok.
  - destruct (split_option arg) as [[n e] v] eqn:Hsplit.
    destruct (is_identifier n) eqn:Hid.
    + rewrite !(scan_option_token _ _ _ _ _ _ _ _ _ _ _ Htok Hsplit Hid).
      destruct (resolve_option _ _ _ _) as [name|err]; [|done].
      destruct (v =? "")%string.
      * destruct rest as [|value rest']; [done|].
        destruct (PyStr.startswith value "--"); [done|].
        rewrite (Hins kw). rewrite <- (app_nil_r pos) at 1.
        apply Hstep. cbn. lia.
      * rewrite (Hins kw). rewrite <- (app_nil_r pos) at 1.
        apply Hstep. cbn. lia.
    + revert Htok Hsplit Hid. unfold is_option_token, split_option. cbn [scan_args].
      destruct (PyStr.mem arg ["--?"; "-?"; "?"]); [discriminate|].
      destruct (PyStr.mem arg ["--??"; "-??"; "??"]); [discriminate|].
      destruct (PyStr.startswith arg "-"); [|discriminate].
      destruct (arg =? "-")%string; [discriminate|].
      destruct (arg =? "--")%string; [discriminate|].
      intros _. destruct (PyStr.partition "=" _) as [[argname e0] v0].
      intros [= -> -> ->] ->. done.
  - revert Htok. unfold is_option_token. cbn [scan_args].
    destruct (PyStr.mem arg ["--?"; "-?"; "?"]); [done|].
    destruct (PyStr.mem arg ["--??"; "-??"; "??"]); [done|].
    destruct (PyStr.startswith arg "-") eqn:Hdash.
    + destruct (arg =? "-")%string.
      * intros _. unfold bind at 1 2, stdin_read.
        rewrite <- (left_id_L ∅ (∪) kw) at 1.
        apply Hstep. cbn. lia.
      * destruct (arg =? "--")%string; [|discriminate].
        intros _. unfold ret. rewrite (left_id_L ∅ (∪)).
        by destruct (arg_mode =? "string")%string.
    + intros _. rewrite <- (left_id_L ∅ (∪) kw) at 1.
      apply Hstep. cbn. lia.
Qed.

End ScanProperties.

(** ** Argument binder: the prefix index *)

(** Closed decidable goals, by evaluation. *)
Ltac decide_closed := cbn; apply (bool_decide_unpack _); by vm_compute.

Lemma prefix_nil_l s : String.prefix "" s = true.
Proof. by destruct s. Qed.

Lemma prefix_cons c p d s :
  String.prefix (String c p) (String d s) = bool_decide (c = d) && String.prefix p s.
Proof.
  cbn. destruct (ascii_dec c d) as [->|Hne].
  - by rewrite bool_decide_eq_true_2.
  - by rewrite bool_decide_eq_false_2.
Qed.

Lemma elem_of_map_String c p l :
  p ∈ map (String c) l <-> exists q, p = String c q /\ q ∈ l.
Proof.
  induction l as [|x l IH]; cbn.
  - split; [by intros ?%elem_of_nil | by intros (q & _ & ?%elem_of_nil)].
  - rewrite elem_of_cons, IH. split.
    + intros [-> | (q & -> & Hq)]; [exists x | exists q]; by rewrite elem_of_cons; auto.
    + intros (q & -> & [-> | Hq]%elem_of_cons); eauto.
Qed.

(** The prefixes of a name are its non-empty leading substrings. *)
Lemma elem_of_prefixes p s :
  p ∈ prefixes s <-> p <> "" /\ PyStr.startswith s p = true.
Proof.
  unfold PyStr.startswith. revert p. induction s as [|d s IH]; intros p; cbn [prefixes].
  - split; [by intros ?%elem_of_nil|]. intros [Hne Hp]. by destruct p.
  - rewrite elem_of_cons, elem_of_map_String. split.
    + intros [-> | (q & -> & Hq)].
      * split; [done|]. rewrite prefix_cons, bool_decide_eq_true_2 by done.
        apply prefix_nil_l.
      * apply IH in Hq as [_ Hq]. split; [done|].
        by rewrite prefix_cons, bool_decide_eq_true_2.
    + intros [Hne Hp]. destruct p as [|c q]; [done|].
      rewrite prefix_cons in Hp. apply andb_prop in Hp as [->%bool_decide_eq_true Hq].
      destruct q as [|c' q']; [by left|]. right. exists (String c' q'). split; [done|].
      apply IH. by split.
Qed.

Lemma NoDup_prefixes s : NoDup (prefixes s).
Proof.
  induction s as [|c s IH]; cbn [prefixes]; [constructor|].
  constructor.
  - rewrite elem_of_map_String. intros (q & [= <-] & Hq).
    apply elem_of_prefixes in Hq as [Hq _]. done.
  - clear -IH. induction IH as [|x l Hx Hl IHl]; cbn; constructor; [|done].
    rewrite elem_of_map_String. intros (q & [= <-] & Hq). done.
Qed.

Section PrefixIndex.
Context `{!PyBuiltins, !Collaborators}.

Lemma lookup_setdefault_append m prefix argname p :
  default [] (setdefault_append m prefix argname !! p)
  = default [] (m !! p) ++ (if decide (p = prefix) then [argname] else []).
Proof.
  unfold setdefault_append. destruct (decide (p = prefix)) as [->|Hne].
  - by rewrite lookup_insert_eq.
  - rewrite lookup_insert_ne by done. by rewrite app_nil_r.
Qed.

Lemma lookup_add_prefixes ps m argname p :
  NoDup ps ->
  default [] (foldl (fun m prefix => setdefault_append m prefix argname) m ps !! p)
  = default [] (m !! p) ++ (if decide (p ∈ ps) then [argname] else []).
Proof.
  intros Hnd. revert m. induction Hnd as [|p0 ps Hp0 Hnd IH]; intros m; cbn [foldl].
  - rewrite decide_False by apply not_elem_of_nil. by rewrite app_nil_r.
  - rewrite IH, lookup_setdefault_append, <- app_assoc. f_equal.
    destruct (decide (p = p0)) as [->|Hne].
    + rewrite (decide_False (P := p0 ∈ ps)) by done.
      by rewrite decide_True by apply list_elem_of_here.
    + cbn. destruct (decide (p ∈ ps)) as [Hin|Hnin].
      * by rewrite decide_True by by apply list_elem_of_further.
      * rewrite decide_False; [done|]. by intros [?|?]%elem_of_cons.
Qed.

Lemma lookup_fold_prefixes argnames m p :
  default []
    (foldl (fun m argname =>
              foldl (fun m prefix => setdefault_append m prefix argname) m (prefixes argname))
           m argnames !! p)
  = default [] (m !! p) ++ filter (fun a => p ∈ prefixes a) argnames.
Proof.
  revert m. induction argnames as [|a argnames IH]; intros m; cbn [foldl].
  - by rewrite filter_nil, app_nil_r.
  - rewrite IH, lookup_add_prefixes by apply NoDup_prefixes.
    rewrite <- app_assoc. f_equal. rewrite filter_cons.
    by destruct (decide (p ∈ prefixes a)).
Qed.

(** [prefix2argname.get(p, [])] lists, in declaration order, the
    parameters that start with [p]. *)
Lemma lookup_prefix2argname argnames p :
  p <> "" ->
  default [] (build_prefix2argname argnames !! p)
  = filter (fun a => PyStr.startswith a p = true) argnames.
Proof.
  intros Hp. unfold build_prefix2argname.
  rewrite lookup_fold_prefixes, lookup_empty. cbn.
  apply list_filter_iff. intros a. rewrite elem_of_prefixes.
  split; [by intros [_ ?] | by intros ?].
Qed.

Lemma filter_unique (P : string -> Prop) `{!forall x, Decision (P x)} (l : list string) n :
  NoDup l -> n ∈ l -> P n -> (forall a, a ∈ l -> P a -> a = n) -> filter P l = [n].
Proof.
  intros Hnd Hin Hn Huniq. induction Hnd as [|x l Hx Hnd IH]; [by apply elem_of_nil in Hin|].
  rewrite filter_cons. apply elem_of_cons in Hin as [<- | Hin].
  - rewrite decide_True by done. f_equal.
    apply elem_of_nil_inv. intros a [HPa Ha]%list_elem_of_filter.
    assert (a = n) as -> by (apply Huniq; [by right | done]). done.
  - destruct (decide (P x)) as [HPx|_].
    + assert (x = n) as -> by (apply Huniq; [by left | done]). done.
    + apply IH; [done|]. intros a Ha. apply Huniq. by right.
Qed.

(** C4 (as the code has it): an option name resolves through the list
    of declared parameters that start with it.  One candidate: that
    parameter, and the loop records the option's value under it.  Two or
    more: the ambiguity error that names them all, in declaration order,
    which is then what [_parse_auto_apply_args] raises; this is also
    what a name gets that is a declared parameter and a proper prefix of
    another one.  A name that is a declared parameter resolves to itself
    when no other declared parameter starts with it. *)
Theorem option_resolution_by_prefix :
  forall (argspec : ArgSpec) (n equalsign : string),
    n <> "" ->
    let index := build_prefix2argname (args argspec) in
    let candidates := filter (fun a => PyStr.startswith a n = true) (args argspec) in
    let resolution := resolve_option argspec index n equalsign in
    let ambiguity :=
      ParseError ("Ambiguous " +:+ n +:+ ": could mean one of: "
                  +:+ PyStr.join ", " (map (fun s => "--" +:+ s) candidates)) in
    (forall a, candidates = [a] -> resolution = Ok a)
    /\ (forall a b rest, candidates = a :: b :: rest -> resolution = Raise ambiguity)
    /\ (forall other,
          n ∈ args argspec -> other ∈ args argspec -> other <> n ->
          PyStr.startswith other n = true ->
          resolution = Raise ambiguity /\ n ∈ candidates /\ other ∈ candidates)
    /\ (NoDup (args argspec) -> n ∈ args argspec ->
        (forall other, other ∈ args argspec -> PyStr.startswith other n = true -> other = n) ->
        resolution = Ok n)
    /\ (forall arg_mode arg rest v pos kw w,
          is_option_token arg = true ->
          split_option arg = (n, equalsign, v) ->
          is_identifier n = true ->
          (forall a b l,
              candidates = a :: b :: l ->
              scan_args argspec index arg_mode (arg :: rest) pos kw w = (Raise ambiguity, w)
              /\ _parse_auto_apply_args argspec (arg :: rest) arg_mode w
                 = (Raise ambiguity, w))
          /\ (forall a,
                candidates = [a] -> v <> "" ->
                scan_args argspec index arg_mode (arg :: rest) pos kw w
                = scan_args argspec index arg_mode rest pos (<[a := v]> kw) w)).
Proof.
  intros argspec n equalsign Hn index candidates resolution ambiguity.
  assert (Hres : forall a b rest, candidates = a :: b :: rest -> resolution = Raise ambiguity).
  { intros a b rest Hc. unfold resolution, ambiguity, resolve_option, index.
    rewrite lookup_prefix2argname by done. fold candidates. by rewrite Hc. }
  assert (Hone : forall a, candidates = [a] -> resolution = Ok a).
  { intros a Hc. unfold resolution, resolve_option, index.
    rewrite lookup_prefix2argname by done. fold candidates. by rewrite Hc. }
  assert (Hself : PyStr.startswith n n = true).
  { unfold PyStr.startswith. clear. induction n as [|c n IH]; [done|].
    by rewrite prefix_cons, bool_decide_eq_true_2. }
  split; [done|]. split; [done|]. split; [|split].
  - intros other Hin Hother Hne Hstarts.
    assert (Hn_c : n ∈ candidates) by (apply list_elem_of_filter; by split).
    assert (Ho_c : other ∈ candidates) by (apply list_elem_of_filter; by split).
    split; [|done].
    destruct candidates as [|a [|b rest]] eqn:Hc.
    + by apply elem_of_nil in Hn_c.
    + apply list_elem_of_singleton in Hn_c, Ho_c. congruence.
    + by eapply Hres.
  - intros Hnd Hin Huniq. unfold resolution, resolve_option, index.
    rewrite lookup_prefix2argname by done.
    by rewrite (filter_unique _ _ n Hnd Hin Hself Huniq).
  - intros arg_mode arg rest v pos kw w Htok Hsplit Hid. split.
    + intros a b l Hc.
      assert (Hscan : forall pos kw,
                scan_args argspec index arg_mode (arg :: rest) pos kw w
                = (Raise ambiguity, w)).
      { intros pos' kw'. rewrite (scan_option_token _ _ _ _ _ _ _ _ _ _ _ Htok Hsplit Hid).
        fold resolution. by rewrite (Hres _ _ _ Hc). }
      split; [done|].
      unfold _parse_auto_apply_args. fold index. unfold bind at 1. by rewrite Hscan.
    + intros a Hc Hv.
      rewrite (scan_option_token _ _ _ _ _ _ _ _ _ _ _ Htok Hsplit Hid).
      fold resolution. rewrite (Hone _ Hc).
      by destruct (String.eqb_spec v "").
Qed.

End PrefixIndex.

(** With parameters [foo] and [foobar], [--foo=1] names a declared
    parameter exactly, and [_parse_auto_apply_args] fails with the
    ambiguity error. *)
Lemma exact_name_ambiguous_counterexample :
  "foo" ∈ args (mkArgSpec ["foo"; "foobar"] None None None)
  /\ @_parse_auto_apply_args Demo.builtins Demo.collaborators
       (mkArgSpec ["foo"; "foobar"] None None None) ["--foo=1"] "auto" Demo.w0
     = (Raise (ParseError "Ambiguous foo: could mean one of: --foo, --foobar"), Demo.w0).
Proof. split; [apply list_elem_of_here | by vm_compute]. Qed.

Lemma option_resolution_by_prefix_witness :
  let argspec := mkArgSpec ["foobar"; "foobaz"; "foo"] None None None in
  let index := build_prefix2argname (args argspec) in
  @resolve_option argspec index "foobar" "=" = Ok "foobar"
  /\ @_parse_auto_apply_args Demo.builtins Demo.collaborators
       argspec ["--fooba=1"] "auto" Demo.w0
     = (Raise (ParseError "Ambiguous fooba: could mean one of: --foobar, --foobaz"),
        Demo.w0)
  /\ @resolve_option argspec index "foo" "="
     = Raise (ParseError "Ambiguous foo: could mean one of: --foobar, --foobaz, --foo").
Proof.
  intros argspec index. subst index argspec.
  set (argspec := mkArgSpec ["foobar"; "foobaz"; "foo"] None None None).
  destruct (@option_resolution_by_prefix Demo.builtins Demo.collaborators
              argspec "foobar" "=" ltac:(done))
    as (_ & _ & _ & Hexact & _).
  destruct (@option_resolution_by_prefix Demo.builtins Demo.collaborators
              argspec "fooba" "=" ltac:(done))
    as (_ & _ & _ & _ & Hamb).
  destruct (@option_resolution_by_prefix Demo.builtins Demo.collaborators
              argspec "foo" "=" ltac:(done))
    as (_ & _ & Hproper & _).
  split; [|split].
  - apply Hexact.
    + decide_closed.
    + decide_closed.
    + intros other Hin. cbn in Hin. set_unfold in Hin.
      destruct_or!; try done; subst other; by vm_compute.
  - refine (proj2 (proj1 (Hamb "auto" "--fooba=1" [] "1" [] ∅ Demo.w0 _ _ _)
                         "foobar" "foobaz" [] _));
      by vm_compute.
  - refine (proj1 (Hproper "foobar" _ _ _ _));
      [decide_closed | decide_closed | done | reflexivity].
Defined.

(** ** Argument binder: repeated options *)

Section RepeatedOptions.
Context `{!PyBuiltins, !Collaborators}.

Lemma union_insert_absorb (k kw : gmap string string) name v :
  is_Some (k !! name) -> k ∪ <[name := v]> kw = k ∪ kw.
Proof.
  intros [x Hx]. apply map_eq. intros i. rewrite !lookup_union.
  destruct (decide (i = name)) as [->|Hne].
  - rewrite Hx. by destruct (<[name := v]> kw !! name), (kw !! name).
  - by rewrite lookup_insert_ne.
Qed.

(** C5 (as the code has it): an option that the tokens after it supply
    again raises no error and leaves no trace: the scanning loop records
    for its parameter the value of the later occurrence, and the whole
    call does what it does on the tokens after it alone. *)
Theorem repeated_option_last_wins :
  forall (argspec : ArgSpec) (arg_mode : string) (tokens rest : list string)
         (name v1 : string) (w : world),
    let index := build_prefix2argname (args argspec) in
    read_option argspec index tokens = Some (name, v1, rest) ->
    (forall p k w1,
        scan_args argspec index arg_mode rest [] ∅ w = (Ok (p, k), w1) ->
        is_Some (k !! name)) ->
    (forall pos kw,
        scan_args argspec index arg_mode tokens pos kw w
        = scan_args argspec index arg_mode rest pos kw w)
    /\ (forall pos kw p' k' w',
          scan_args argspec index arg_mode tokens pos kw w = (Ok (p', k'), w') ->
          exists p k,
            scan_args argspec index arg_mode rest [] ∅ w = (Ok (p, k), w')
            /\ is_Some (k !! name)
            /\ k' !! name = k !! name)
    /\ _parse_auto_apply_args argspec tokens arg_mode w
       = _parse_auto_apply_args argspec rest arg_mode w.
Proof.
  intros argspec arg_mode tokens rest name v1 w index Hread Hlater.
  assert (Hscan : forall pos kw,
            scan_args argspec index arg_mode tokens pos kw w
            = scan_args argspec index arg_mode rest pos kw w).
  { intros pos kw. rewrite (scan_read_option _ _ _ _ _ _ _ _ _ _ Hread).
    rewrite (scan_args_frame _ _ _ rest pos (<[name := v1]> kw)).
    rewrite (scan_args_frame _ _ _ rest pos kw).
    destruct (scan_args _ _ _ rest [] ∅ w) as [[[p k]|e] w1] eqn:E; [|done].
    by rewrite (union_insert_absorb _ _ _ _ (Hlater _ _ _ eq_refl)). }
  split; [done|]. split.
  - intros pos kw p' k' w'. rewrite Hscan, (scan_args_frame _ _ _ rest pos kw).
    destruct (scan_args _ _ _ rest [] ∅ w) as [[[p k]|e] w1] eqn:E; [|discriminate].
    intros [= <- <- <-]. exists p, k. split; [done|].
    destruct (Hlater _ _ _ eq_refl) as [x Hx]. split; [eauto|].
    by rewrite Hx, (lookup_union_Some_l _ _ _ _ Hx).
  - unfold _parse_auto_apply_args. fold index. unfold bind at 1 5. by rewrite Hscan.
Qed.

End RepeatedOptions.

(** [--x=1 --x=2] on a function of one parameter [x] is accepted and
    binds [x] to the later value. *)
Lemma repeated_option_counterexample :
  @_parse_auto_apply_args Demo.builtins Demo.collaborators
     (mkArgSpec ["x"] None None None) ["--x=1"; "--x=2"] "auto" Demo.w0
  = (Ok ([VInt 2], ∅), Demo.w0).
Proof. by vm_compute. Qed.

Lemma repeated_option_last_wins_witness :
  @_parse_auto_apply_args Demo.builtins Demo.collaborators
     Demo.weekday_spec ["--day=1"; "--month=7"; "-d"; "16"; "--year=2014"] "auto" Demo.w0
  = @_parse_auto_apply_args Demo.builtins Demo.collaborators
     Demo.weekday_spec ["--month=7"; "-d"; "16"; "--year=2014"] "auto" Demo.w0.
Proof.
  refine (proj2 (proj2 (@repeated_option_last_wins Demo.builtins Demo.collaborators
                   Demo.weekday_spec "auto"
                   ["--day=1"; "--month=7"; "-d"; "16"; "--year=2014"]
                   ["--month=7"; "-d"; "16"; "--year=2014"] "day" "1" Demo.w0 _ _)));
    [by vm_compute|].
  intros p k w1 E. vm_compute in E. injection E as <- <- <-.
  eexists. by vm_compute.
Defined.

(** ** Argument binder: reconciliation with the signature *)

Section BinderProperties.
Context `{!PyBuiltins, !Collaborators}.

(** What one round of the loop over the declared parameters has
    established when it does not raise. *)
Lemma bind_parameter_ok arg_mode pos a2d i name kw w v kw' w' :
  bind_parameter arg_mode pos a2d i name kw w = (Ok (v, kw'), w') ->
  (is_Some (pos !! i) /\ kw !! name = None /\ kw' = kw)
  \/ (pos !! i = None /\ (is_Some (kw !! name) \/ is_Some (a2d !! name))
      /\ kw' = delete name kw).
Proof.
  unfold bind_parameter.
  destruct (pos !! i) as [unparsed|] eqn:Hpos; destruct (kw !! name) as [kv|] eqn:Hkw.
  - discriminate.
  - unfold bind. destruct (_parse_value_or_string _ _ w) as [[v0|e] w0]; [|discriminate].
    intros [= <- <- <-]. left. eauto.
  - unfold bind. destruct (_parse_value_or_string _ _ w) as [[v0|e] w0]; [|discriminate].
    intros [= <- <- <-]. right. eauto.
  - destruct (a2d !! name) as [d|] eqn:Hd; [|discriminate].
    intros [= <- <- <-]. right. split; [done|]. split; [eauto|].
    by rewrite delete_id.
Qed.

Lemma bind_parameter_both arg_mode pos a2d i name kw w positional keyword :
  pos !! i = Some positional -> kw !! name = Some keyword ->
  bind_parameter arg_mode pos a2d i name kw w
  = (Raise (ParseError (name +:+ " specified both as positional argument ("
                        +:+ positional +:+ ") and keyword argument ("
                        +:+ keyword +:+ ")")), w).
Proof. intros Hpos Hkw. unfold bind_parameter. by rewrite Hpos, Hkw. Qed.

Lemma bind_parameter_missing arg_mode pos a2d i name kw w :
  pos !! i = None -> kw !! name = None -> a2d !! name = None ->
  bind_parameter arg_mode pos a2d i name kw w
  = (Raise (ParseError ("missing required argument " +:+ name)), w).
Proof. intros Hpos Hkw Hd. unfold bind_parameter. by rewrite Hpos, Hkw, Hd. Qed.

Lemma bind_parameters_ok arg_mode pos a2d names :
  forall i kw parsed w parsed' kw' w',
    bind_parameters arg_mode pos a2d i names kw parsed w = (Ok (parsed', kw'), w') ->
    length parsed' = length parsed + length names
    /\ (forall k, kw !! k = None -> kw' !! k = None)
    /\ (forall name, name ∈ names -> kw' !! name = None)
    /\ (forall j name, names !! j = Some name ->
          (is_Some (pos !! (i + j)) /\ kw !! name = None)
          \/ (pos !! (i + j) = None
              /\ (is_Some (kw !! name) \/ is_Some (a2d !! name))))
    /\ (i + length names <= length pos -> kw' = kw).
Proof.
  induction names as [|n0 names IH]; intros i kw parsed w parsed' kw' w'.
  - cbn. intros [= <- <- <-].
    split; [lia|]. split; [done|]. split; [by intros name ?%elem_of_nil|].
    split; [|done]. intros j name Hj. by rewrite lookup_nil in Hj.
  - cbn [bind_parameters]. unfold bind at 1.
    destruct (bind_parameter _ _ _ _ _ _ w) as [[[v kw1]|e] w1] eqn:E1; [|discriminate].
    intros E2. apply IH in E2 as (Hlen & Hnone & Hnames & Hround & Hsame).
    apply bind_parameter_ok in E1 as Hfirst.
    assert (Hsub : forall k, kw !! k = None -> kw1 !! k = None).
    { intros k Hk. destruct Hfirst as [(_ & _ & ->) | (_ & _ & ->)]; [done|].
      by apply lookup_delete_None; right. }
    assert (Hn0 : kw1 !! n0 = None).
    { destruct Hfirst as [(_ & ? & ->) | (_ & _ & ->)]; [done|].
      by apply lookup_delete_None; left. }
    split; [|split; [|split; [|split]]].
    + rewrite Hlen, length_app. cbn. lia.
    + auto.
    + intros name [-> | Hin]%elem_of_cons; auto.
    + intros [|j] name Hj; cbn in Hj.
      * injection Hj as <-. rewrite Nat.add_0_r.
        destruct Hfirst as [(? & ? & _) | (? & ? & _)]; auto.
      * replace (i + S j) with (S i + j) by lia.
        destruct (Hround j name Hj) as [[Hp Hk] | [Hp Hk]].
        -- left. split; [done|].
           destruct Hfirst as [(_ & _ & ->) | (Hi & _ & _)]; [done|].
           apply lookup_ge_None in Hi. apply lookup_lt_is_Some in Hp. lia.
        -- right. split; [done|]. destruct Hk as [Hk|Hk]; [left|by right].
           destruct Hfirst as [(_ & _ & ->) | (_ & _ & ->)]; [done|].
           destruct Hk as [x Hx]. apply lookup_delete_Some in Hx as [_ Hx]. eauto.
    + cbn [length]. intros Hle. rewrite Hsame by lia.
      destruct Hfirst as [(_ & _ & ->) | (Hi & _ & _)]; [done|].
      apply lookup_ge_None in Hi. lia.
Qed.

Lemma bind_parameters_app arg_mode pos a2d l1 l2 :
  forall i kw parsed w,
    bind_parameters arg_mode pos a2d i (l1 ++ l2) kw parsed w
    = match bind_parameters arg_mode pos a2d i l1 kw parsed w with
      | (Ok (p, k), w') => bind_parameters arg_mode pos a2d (i + length l1) l2 k p w'
      | (Raise e, w') => (Raise e, w')
      end.
Proof.
  induction l1 as [|n0 l1 IH]; intros i kw parsed w.
  - cbn. by rewrite Nat.add_0_r.
  - cbn [app bind_parameters length]. unfold bind at 1 2.
    destruct (bind_parameter _ _ _ _ _ _ w) as [[[v kw1]|e] w1]; [|done].
    rewrite IH. by replace (S i + length l1) with (i + S (length l1)) by lia.
Qed.

Lemma bind_parameters_reach arg_mode pos a2d names i name kw w1 parsed kw2 w2 e w3 :
  names !! i = Some name ->
  bind_parameters arg_mode pos a2d 0 (take i names) kw [] w1 = (Ok (parsed, kw2), w2) ->
  bind_parameter arg_mode pos a2d i name kw2 w2 = (Raise e, w3) ->
  bind_parameters arg_mode pos a2d 0 names kw [] w1 = (Raise e, w3).
Proof.
  intros Hi Hpre Hround.
  rewrite <- (take_drop_middle _ _ _ Hi).
  rewrite bind_parameters_app, Hpre. cbn [bind_parameters]. unfold bind at 1.
  rewrite length_take_le by (apply lookup_lt_Some in Hi; lia).
  cbn [Nat.add]. by rewrite Hround.
Qed.

Lemma bind_excess_ok argspec arg_mode pos parsed w parsed' w' :
  bind_excess argspec arg_mode pos parsed w = (Ok parsed', w') ->
  length parsed <= length parsed'.
Proof.
  unfold bind_excess. destruct (_ <? _)%nat.
  - destruct (truthy_name _); [|discriminate]. unfold bind.
    destruct (mapM _ _ w) as [[more|e] w1]; [|discriminate].
    intros [= <- <-]. rewrite length_app. lia.
  - by intros [= <- <-].
Qed.

Lemma bind_keywords_ok arg_mode items :
  forall acc w m w',
    bind_keywords arg_mode items acc w = (Ok m, w') ->
    forall k, acc !! k = None -> k ∉ items.*1 -> m !! k = None.
Proof.
  induction items as [|[argname unparsed] items IH]; intros acc w m w'.
  - cbn. by intros [= <- <-].
  - cbn [bind_keywords]. unfold bind at 1.
    destruct (catch _ _ w) as [[v|e] w1]; [|discriminate].
    intros E k Hacc Hk. rewrite fmap_cons, not_elem_of_cons in Hk. destruct Hk as [Hne Hk].
    eapply IH; [exact E| |done]. by rewrite lookup_insert_ne.
Qed.

Lemma sorted_items_keys (m : gmap string string) k :
  k ∈ (sorted_items m).*1 -> is_Some (m !! k).
Proof.
  unfold sorted_items. rewrite merge_sort_Permutation.
  intros ([k' v] & -> & Hkv%elem_of_map_to_list)%list_elem_of_fmap. eauto.
Qed.

(** C3: when [_parse_auto_apply_args] returns, the scan of the tokens
    returned, every declared parameter has a value at its index in
    [parsed_args], none of them is a key of [parsed_kwargs], and each of them was given
    either by position and not by keyword, or not by position and by
    keyword or default.  A parameter given both by position and by
    keyword makes the call raise, and so does a parameter given neither
    way that has no default; when the loop over the parameters gets to
    that parameter, what it raises is the [ParseError] for it. *)
Theorem parse_auto_apply_args_binding :
  forall (argspec : ArgSpec) (tokens : list string) (arg_mode : string) (w : world),
    let argname2default := build_argname2default argspec in
    let scan := scan_args argspec (build_prefix2argname (args argspec)) arg_mode
                          tokens [] ∅ w in
    let call := _parse_auto_apply_args argspec tokens arg_mode w in
    (forall parsed_args parsed_kwargs w',
        call = (Ok (parsed_args, parsed_kwargs), w') ->
        exists got_pos got_kw w1,
          scan = (Ok (got_pos, got_kw), w1)
          /\ length (args argspec) <= length parsed_args
          /\ (forall i name,
                args argspec !! i = Some name -> is_Some (parsed_args !! i))
          /\ (forall name, name ∈ args argspec -> parsed_kwargs !! name = None)
          /\ (forall i name,
                args argspec !! i = Some name ->
                (is_Some (got_pos !! i) /\ got_kw !! name = None)
                \/ (got_pos !! i = None
                    /\ (is_Some (got_kw !! name) \/ is_Some (argname2default !! name)))))
    /\ (forall got_pos got_kw w1 i name positional keyword,
          scan = (Ok (got_pos, got_kw), w1) ->
          args argspec !! i = Some name ->
          got_pos !! i = Some positional ->
          got_kw !! name = Some keyword ->
          is_ok call.1 = false
          /\ (forall parsed kw2 w2,
                bind_parameters arg_mode got_pos argname2default 0
                                (take i (args argspec)) got_kw [] w1
                = (Ok (parsed, kw2), w2) ->
                call = (Raise (ParseError
                         (name +:+ " specified both as positional argument ("
                          +:+ positional +:+ ") and keyword argument ("
                          +:+ keyword +:+ ")")), w2)))
    /\ (forall got_pos got_kw w1 i name,
          scan = (Ok (got_pos, got_kw), w1) ->
          args argspec !! i = Some name ->
          got_pos !! i = None ->
          got_kw !! name = None ->
          argname2default !! name = None ->
          is_ok call.1 = false
          /\ (forall parsed kw2 w2,
                bind_parameters arg_mode got_pos argname2default 0
                                (take i (args argspec)) got_kw [] w1
                = (Ok (parsed, kw2), w2) ->
                call = (Raise (ParseError ("missing required argument " +:+ name)), w2))).
Proof.
  intros argspec tokens arg_mode w argname2default scan call.
  assert (Haccepted : forall parsed_args parsed_kwargs w',
    call = (Ok (parsed_args, parsed_kwargs), w') ->
    exists got_pos got_kw w1,
      scan = (Ok (got_pos, got_kw), w1)
      /\ length (args argspec) <= length parsed_args
      /\ (forall i name,
            args argspec !! i = Some name -> is_Some (parsed_args !! i))
      /\ (forall name, name ∈ args argspec -> parsed_kwargs !! name = None)
      /\ (forall i name,
            args argspec !! i = Some name ->
            (is_Some (got_pos !! i) /\ got_kw !! name = None)
            \/ (got_pos !! i = None
                /\ (is_Some (got_kw !! name) \/ is_Some (argname2default !! name))))).
  { intros parsed_args parsed_kwargs w'. unfold call, _parse_auto_apply_args.
    unfold bind at 1. fold scan. fold argname2default.
    destruct scan as [[[got_pos got_kw]|e] w1]; [|discriminate].
    unfold bind at 1.
    destruct (bind_parameters _ _ _ _ _ _ _ w1) as [[[parsed kw2]|e] w2] eqn:Eb;
      [|discriminate].
    unfold bind at 1.
    destruct (bind_excess _ _ _ _ w2) as [[parsed'|e] w3] eqn:Ee; [|discriminate].
    unfold bind at 1.
    destruct (bind_keywords _ _ _ w3) as [[kwargs|e] w4] eqn:Ek; [|discriminate].
    intros [= <- <- <-].
    apply bind_parameters_ok in Eb as (Hlen & _ & Hnames & Hround & _).
    apply bind_excess_ok in Ee.
    exists got_pos, got_kw, w1. split; [done|]. split; [cbn in Hlen; lia|].
    split; [|split].
    - intros i name Hi%lookup_lt_Some. apply lookup_lt_is_Some. cbn in Hlen. lia.
    - intros name Hin. eapply bind_keywords_ok; [exact Ek | apply lookup_empty |].
      intros [x Hx]%sorted_items_keys. by rewrite (Hnames name Hin) in Hx.
    - intros i name Hi. exact (Hround i name Hi). }
  assert (Hreach : forall got_pos got_kw w1 i name parsed kw2 w2 e,
    scan = (Ok (got_pos, got_kw), w1) ->
    args argspec !! i = Some name ->
    bind_parameters arg_mode got_pos argname2default 0 (take i (args argspec)) got_kw [] w1
    = (Ok (parsed, kw2), w2) ->
    bind_parameter arg_mode got_pos argname2default i name kw2 w2 = (Raise e, w2) ->
    call = (Raise e, w2)).
  { intros got_pos got_kw w1 i name parsed kw2 w2 e Hscan Hi Hpre Hround.
    unfold call, _parse_auto_apply_args. unfold bind at 1. fold scan. rewrite Hscan.
    fold argname2default. unfold bind at 1.
    by rewrite (bind_parameters_reach _ _ _ _ _ _ _ _ _ _ _ _ _ Hi Hpre Hround). }
  split; [exact Haccepted|]. split.
  - intros got_pos got_kw w1 i name positional keyword Hscan Hi Hpos Hkw. split.
    + destruct call as [[[pa pk]|e] w'] eqn:Ecall; [|done].
      destruct (Haccepted _ _ _ eq_refl) as (gp & gk & w1' & Hs & _ & _ & _ & Hround).
      rewrite Hscan in Hs. injection Hs as <- <- <-.
      destruct (Hround i name Hi) as [[_ Hk] | [Hp _]]; congruence.
    + intros parsed kw2 w2 Hpre.
      eapply Hreach; [done..|].
      apply bind_parameters_ok in Hpre as (_ & _ & _ & _ & Hsame).
      rewrite Hsame.
      * by apply bind_parameter_both.
      * rewrite length_take_le by (apply lookup_lt_Some in Hi; lia).
        apply lookup_lt_Some in Hpos. lia.
  - intros got_pos got_kw w1 i name Hscan Hi Hpos Hkw Hd. split.
    + destruct call as [[[pa pk]|e] w'] eqn:Ecall; [|done].
      destruct (Haccepted _ _ _ eq_refl) as (gp & gk & w1' & Hs & _ & _ & _ & Hround).
      rewrite Hscan in Hs. injection Hs as <- <- <-.
      destruct (Hround i name Hi) as [[[x Hp] _] | [_ [[x Hk]|[x Hx]]]]; congruence.
    + intros parsed kw2 w2 Hpre.
      eapply Hreach; [done..|].
      apply bind_parameters_ok in Hpre as (_ & Hnone & _ & _ & _).
      apply bind_parameter_missing; auto.
Qed.

End BinderProperties.

Lemma parse_auto_apply_args_binding_witness :
  (@_parse_auto_apply_args Demo.builtins Demo.collaborators
     (mkArgSpec ["x"] None (Some "kw") None) ["1"; "--extra=2"] "auto" Demo.w0
   = (Ok ([VInt 1], {["extra" := VInt 2]}), Demo.w0)
   /\ ({["extra" := VInt 2]} : gmap string value) !! "x" = None)
  /\ @_parse_auto_apply_args Demo.builtins Demo.collaborators
       Demo.weekday_spec ["2014"; "--year=7"] "auto" Demo.w0
     = (Raise (ParseError
         "year specified both as positional argument (2014) and keyword argument (7)"),
        Demo.w0)
  /\ @_parse_auto_apply_args Demo.builtins Demo.collaborators
       Demo.weekday_spec ["2014"; "7"] "auto" Demo.w0
     = (Raise (ParseError "missing required argument day"), Demo.w0).
Proof.
  split; [|split].
  - assert (Hcall : @_parse_auto_apply_args Demo.builtins Demo.collaborators
              (mkArgSpec ["x"] None (Some "kw") None) ["1"; "--extra=2"] "auto" Demo.w0
            = (Ok ([VInt 1], {["extra" := VInt 2]}), Demo.w0)) by by vm_compute.
    split; [exact Hcall|].
    destruct (proj1 (@parse_auto_apply_args_binding Demo.builtins Demo.collaborators
                       (mkArgSpec ["x"] None (Some "kw") None) ["1"; "--extra=2"]
                       "auto" Demo.w0) _ _ _ Hcall)
      as (got_pos & got_kw & w1 & _ & _ & _ & Hkw & _).
    apply Hkw. apply list_elem_of_here.
  - destruct (@parse_auto_apply_args_binding Demo.builtins Demo.collaborators
                Demo.weekday_spec ["2014"; "--year=7"] "auto" Demo.w0)
      as (_ & Hboth & _).
    refine (proj2 (Hboth ["2014"] {["year" := "7"]} Demo.w0 0 "year" "2014" "7" _ _ _ _)
                  [] {["year" := "7"]} Demo.w0 _); by vm_compute.
  - destruct (@parse_auto_apply_args_binding Demo.builtins Demo.collaborators
                Demo.weekday_spec ["2014"; "7"] "auto" Demo.w0)
      as (_ & _ & Hmissing).
    refine (proj2 (Hmissing ["2014"; "7"] ∅ Demo.w0 2 "day" _ _ _ _ _)
                  [VInt 2014; VInt 7] ∅ Demo.w0 _); by vm_compute.
Defined.

(** ** [auto_apply]: interrupts and errors of the argument parsing *)

Section AutoApplyProperties.
Context `{!PyBuiltins, !Collaborators}.

(** [_get_help] returns, and leaves the world alone, for the three
    verbosities [auto_apply] uses, once the signature of the object is
    known and [sys.orig_argv] starts with the program name. *)
Lemma _get_help_returns obj name verbosity w argspec prog rest :
  _get_argspec obj = Ok argspec ->
  sys_orig_argv w = Some (VStr prog :: rest) ->
  (verbosity = 0 \/ verbosity = 1 \/ verbosity = 2)%Z ->
  exists usage, _get_help obj name verbosity w = (Ok usage, w).
Proof.
  intros Hspec Hargv Hv. unfold _get_help, usage_prefix, bind, lift, ret.
  destruct (callable obj); cbn beta iota; rewrite ?Hspec, ?Hargv; cbn [as_str];
    destruct Hv as [-> | [-> | ->]]; cbn;
    destruct (get_version obj); destruct (getfile obj);
    try (destruct (getsource obj) as [[|c src]|]);
    eexists; reflexivity.
Qed.

(** C8: what [auto_apply] does with an exception of
    [_parse_auto_apply_args], once the function and its signature are
    settled and [sys.orig_argv] is what [run] made it.  A help
    interrupt: the help text of verbosity 1 is printed and the call ends
    in [SystemExit(0)].  A source interrupt: the same with verbosity 2.
    A [ParseError]: the message is logged, the usage goes to stderr and
    the call ends in [SystemExit(1)].  Every other exception passes
    through. *)
Theorem auto_apply_parse_interrupts :
  forall (function : value) (commandline_args : list string)
         (arg_mode function_name : option string) (w : world)
         (f : value) (fname mode : string) (argspec : ArgSpec) (w1 : world),
    _interpret_function_name function function_name w = (Ok (f, fname), w1) ->
    _interpret_arg_mode arg_mode "auto" = Ok mode ->
    _get_argspec f = Ok argspec ->
    forall (e : exn) (w2 : world) (prog : string) (rest : list value),
      _parse_auto_apply_args argspec commandline_args mode w1 = (Raise e, w2) ->
      sys_orig_argv w2 = Some (VStr prog :: rest) ->
      let call := auto_apply function commandline_args arg_mode function_name w in
      match e with
      | ParseInterruptedWantHelp =>
          exists usage,
            _get_help f fname 1 w2 = (Ok usage, w2)
            /\ call = (Raise (SystemExit (VInt 0)), add_stdout usage w2)
      | ParseInterruptedWantSource =>
          exists usage,
            _get_help f fname 2 w2 = (Ok usage, w2)
            /\ call = (Raise (SystemExit (VInt 0)), add_stdout usage w2)
      | ParseError msg =>
          exists usage,
            _get_help f fname (if info_enabled w2 then 1 else 0) (add_log_error msg w2)
            = (Ok usage, add_log_error msg w2)
            /\ call = (Raise (SystemExit (VInt 1)),
                       add_stderr (nl +:+ usage) (add_log_error msg w2))
      | _ => call = (Raise e, w2)
      end.
Proof.
  intros function commandline_args arg_mode function_name w f fname mode argspec w1
         Hname Hmode Hspec e w2 prog rest Hparse Hargv call.
  assert (Hcall : call =
    bind (catch (_parse_auto_apply_args argspec commandline_args mode)
            (fun e =>
               match e with
               | ParseInterruptedWantHelp =>
                   Some (let* usage := _get_help f fname 1 in
                         print usage ;; raise (SystemExit (VInt 0)))
               | ParseInterruptedWantSource =>
                   Some (let* usage := _get_help f fname 2 in
                         print usage ;; raise (SystemExit (VInt 0)))
               | ParseError msg =>
                   Some (logger_error msg ;;
                         let* usage :=
                           (fun w => _get_help f fname
                                       (if info_enabled w then 1 else 0)%Z w) in
                         stderr_write (nl +:+ usage) ;;
                         raise (SystemExit (VInt 1)))
               | _ => None
               end))
         (fun '(args_, kwargs) =>
            let* call := lift (_format_call fname argspec args_ kwargs) in
            logger_info call ;; call_function f args_ kwargs) w1).
  { unfold call, auto_apply. unfold bind at 1. rewrite Hname.
    unfold bind at 1, lift at 1. rewrite Hmode.
    unfold bind at 1, lift at 1. by rewrite Hspec. }
  assert (Hraise : forall h r w3,
            catch (_parse_auto_apply_args argspec commandline_args mode) h w1 = (Raise r, w3) ->
            bind (catch (_parse_auto_apply_args argspec commandline_args mode) h)
                 (fun '(args_, kwargs) =>
                    let* call := lift (_format_call fname argspec args_ kwargs) in
                    logger_info call ;; call_function f args_ kwargs) w1
            = (Raise r, w3)).
  { intros h r w3 E. by apply bind_raise. }
  clearbody call. subst call.
  destruct e; cbn match;
    try (apply Hraise; unfold catch; by rewrite Hparse).
  - (* ParseError *)
    assert (Hargv' : sys_orig_argv (add_log_error msg w2) = Some (VStr prog :: rest))
      by done.
    assert (Hv : ((if info_enabled w2 then 1 else 0) = 0
                  \/ (if info_enabled w2 then 1 else 0) = 1
                  \/ (if info_enabled w2 then 1 else 0) = 2)%Z)
      by (destruct (info_enabled w2); auto).
    destruct (_get_help_returns f fname _ _ _ _ _ Hspec Hargv' Hv) as [usage Hhelp].
    exists usage. split; [done|].
    apply Hraise. unfold catch. rewrite Hparse.
    unfold bind, logger_error. cbn [info_enabled add_log_error]. by rewrite Hhelp.
  - (* help *)
    destruct (_get_help_returns f fname 1%Z _ _ _ _ Hspec Hargv) as [usage Hhelp]; [auto|].
    exists usage. split; [done|].
    apply Hraise. unfold catch. rewrite Hparse. unfold bind. by rewrite Hhelp.
  - (* source *)
    destruct (_get_help_returns f fname 2%Z _ _ _ _ Hspec Hargv) as [usage Hhelp]; [auto|].
    exists usage. split; [done|].
    apply Hraise. unfold catch. rewrite Hparse. unfold bind. by rewrite Hhelp.
Qed.

End AutoApplyProperties.

Lemma auto_apply_parse_interrupts_witness :
  (@auto_apply Demo.builtins Demo.collaborators (VStr "weekday") ["2014"; "--help"]
     None None Demo.w0).1 = Raise (SystemExit (VInt 0))
  /\ (@auto_apply Demo.builtins Demo.collaborators (VStr "weekday") ["??"]
        None None Demo.w0).1 = Raise (SystemExit (VInt 0))
  /\ (@auto_apply Demo.builtins Demo.collaborators (VStr "weekday") ["2014"; "7"]
        None None Demo.w0).1 = Raise (SystemExit (VInt 1)).
Proof.
  split; [|split].
  - destruct (@auto_apply_parse_interrupts Demo.builtins Demo.collaborators
                (VStr "weekday") ["2014"; "--help"] None None Demo.w0
                Demo.weekday "weekday" "auto" Demo.weekday_spec Demo.w0
                ltac:(by vm_compute) ltac:(by vm_compute) ltac:(by vm_compute)
                ParseInterruptedWantHelp Demo.w0 "py" []
                ltac:(by vm_compute) ltac:(by vm_compute))
      as (usage & _ & Hcall).
    by rewrite Hcall.
  - destruct (@auto_apply_parse_interrupts Demo.builtins Demo.collaborators
                (VStr "weekday") ["??"] None None Demo.w0
                Demo.weekday "weekday" "auto" Demo.weekday_spec Demo.w0
                ltac:(by vm_compute) ltac:(by vm_compute) ltac:(by vm_compute)
                ParseInterruptedWantSource Demo.w0 "py" []
                ltac:(by vm_compute) ltac:(by vm_compute))
      as (usage & _ & Hcall).
    by rewrite Hcall.
  - destruct (@auto_apply_parse_interrupts Demo.builtins Demo.collaborators
                (VStr "weekday") ["2014"; "7"] None None Demo.w0
                Demo.weekday "weekday" "auto" Demo.weekday_spec Demo.w0
                ltac:(by vm_compute) ltac:(by vm_compute) ltac:(by vm_compute)
                (ParseError "missing required argument day") Demo.w0 "py" []
                ltac:(by vm_compute) ltac:(by vm_compute))
      as (usage & _ & Hcall).
    by rewrite Hcall.
Defined.

(** ** [SysArgvCtx] *)

Section SysArgvProperties.
Context `{!PyBuiltins}.

Lemma try_finally_world {A} (m : M A) fin w r w' :
  try_finally m fin w = (r, w') -> exists w'', w' = fin w''.
Proof. unfold try_finally. destruct (m w) as [r0 w0]. intros [= _ <-]. eauto. Qed.

(** C9: whatever the body does and however the context ends (the body
    returns, the body raises, the complaint about unused arguments ends
    in [SystemExit(1)] or fails itself), [sys.argv] holds afterwards the
    list it held before; when it was a plain list and the context was
    entered, it is that list again. *)
Theorem SysArgvCtx_restores_argv :
  forall (args_ : list value) (body : M unit) (w : world) (r : result unit) (w' : world),
    argv_allocated w ->
    SysArgvCtx args_ body w = (r, w') ->
    argv_items w' = argv_items w
    /\ (forall l, args_ <> [] -> sys_argv w = ArgvList l -> sys_argv w' = ArgvList l).
Proof.
  intros args_ body w r w' Halloc. unfold SysArgvCtx.
  destruct args_ as [|a0 rest].
  { intros [= _ <-]. split; [done|]. by intros l []. }
  unfold bind at 1, LoggedList_new at 1.
  unfold bind at 1, LoggedList_getitem at 1.
  cbn [heap set_heap next_addr]. rewrite fn_lookup_insert.
  cbn [LoggedList_init ll_items ll_unaccessed lookup list_lookup map length Nat.ltb Nat.leb].
  set (w_b := set_heap _ _ _).
  assert (Hargv : sys_argv w_b = sys_argv w) by done.
  assert (Hheap : forall a, a < next_addr w -> heap w_b a = heap w a).
  { intros a Ha. subst w_b. cbn [heap set_heap].
    by rewrite !fn_lookup_insert_ne by lia. }
  clearbody w_b.
  unfold bind at 1, list_sys_argv. rewrite Hargv.
  unfold argv_allocated, argv_items in *.
  destruct (sys_argv w) as [l|a] eqn:Hs.
  - intros [w'' ->]%try_finally_world. cbn. split; [done | by intros l' _ [= ->]].
  - unfold LoggedList_iter. destruct (_ <=? _)%nat.
    + intros [w'' ->]%try_finally_world. cbn. rewrite Hheap by done.
      split; [done | by intros l' _ [=]].
    + intros [= _ <-]. cbn [sys_argv heap set_heap]. rewrite Hargv.
      rewrite fn_lookup_insert. cbn [ll_items]. rewrite Hheap by done.
      split; [done | by intros l' _ [=]].
Qed.

End SysArgvProperties.

(** The three ways out of the context, on a [sys.argv] of [["py"]]:
    the body returns and reads its argument; the body raises; the body
    returns without reading its argument, which ends in [SystemExit(1)]. *)
Lemma SysArgvCtx_restores_argv_witness :
  let reads : M unit := LoggedList_getitem 0 1 ;; ret tt in
  let run body := @SysArgvCtx Demo.builtins [VStr "-c"; VStr "x"] body Demo.w0 in
  ((run reads).1 = Ok tt /\ sys_argv (run reads).2 = ArgvList [VStr "py"])
  /\ ((run (raise KeyboardInterrupt)).1 = Raise KeyboardInterrupt
      /\ sys_argv (run (raise KeyboardInterrupt)).2 = ArgvList [VStr "py"])
  /\ ((run (ret tt)).1 = Raise (SystemExit (VInt 1))
      /\ sys_argv (run (ret tt)).2 = ArgvList [VStr "py"]).
Proof.
  intros reads run.
  assert (Hrestored : forall body, sys_argv (run body).2 = ArgvList [VStr "py"]).
  { intros body.
    refine (proj2 (@SysArgvCtx_restores_argv Demo.builtins [VStr "-c"; VStr "x"] body
                     Demo.w0 (run body).1 (run body).2 I _) [VStr "py"] _ eq_refl);
      [unfold run; by destruct (SysArgvCtx _ body Demo.w0) | done]. }
  repeat split; try apply Hrestored; by vm_compute.
Defined.

(** ** Action classifier: the calculator heuristic *)

Section DispatcherProperties.
Context `{!PyBuiltins, !Collaborators}.

(** On a first token ["3"], no branch of the decision table of
    [_run_action] applies before the filename test. *)
Lemma run_action_3_reaches_heuristics self w rest :
  args_left self = "3" :: rest ->
  _run_action self w
  = if _seems_like_filename "3" w
    then execfile self "3" rest w
    else implied_eval self "3" rest w.
Proof. intros Hargs. unfold _run_action. rewrite Hargs. reflexivity. Qed.

Lemma implied_eval_3_over_4 self w :
  (arg_mode self = None \/ arg_mode self = Some "auto") ->
  parsable "3 / 4" true = true ->
  implied_eval self "3" ["/"; "4"] w
  = eval (set_arg_mode (Some "error") self) (BlockText "3 / 4") [] w.
Proof.
  intros Hmode Hparsable. unfold implied_eval.
  change (PyStr.join " " ["3"; "/"; "4"]) with "3 / 4". rewrite Hparsable.
  by destruct Hmode as [-> | ->].
Qed.

(** Without global options the tokens reach [_run_action] as they
    are, and [arg_mode] and [output_mode] stay [None]. *)
Lemma run_three_over_four_no_options w l :
  sys_argv w = ArgvList l ->
  py_main ["3"; "/"; "4"] w
  = (_run_action (mkPyMain ["3"; "/"; "4"] None None ["3"; "/"; "4"]) ;; matplotlib_show)
      (set_sys_orig_argv l w).
Proof.
  intros Hl. unfold py_main, run. unfold bind at 1, list_sys_argv. by rewrite Hl.
Qed.

(** [--args=auto] makes [arg_mode] ["auto"]. *)
Lemma parse_global_opts_args_auto w :
  _parse_global_opts (mkPyMain ["--args=auto"; "3"; "/"; "4"] None None []) w
  = (Ok (mkPyMain ["--args=auto"; "3"; "/"; "4"] (Some "auto") None ["3"; "/"; "4"]), w).
Proof. reflexivity. Qed.

(** C7: with the tokens ["3"], ["/"], ["4"] and no [--args] option (or
    [--args=auto]), [_run_action] tests the first token as a filename
    before anything else; when that test fails it joins the tokens with
    blanks, sees that ["3 / 4"] parses, and evaluates it as one unit
    with an argument vector of just ["-c"]; no module is looked up and
    no function is applied.  When the evaluation gives 0.75, that value
    is printed and the action ends normally. *)
Theorem run_action_three_over_four :
  forall (self : PyMain) (w : world),
    args_left self = ["3"; "/"; "4"] ->
    (arg_mode self = None \/ arg_mode self = Some "auto") ->
    parsable "3 / 4" true = true ->
    let joined := eval (set_arg_mode (Some "error") self) (BlockText "3 / 4") [] in
    let unit_ :=
      (let* result := Namespace_auto_eval (BlockText "3 / 4") None true in
       print_result result (Some "interactive")) in
    (_seems_like_filename "3" w = true ->
     _run_action self w = execfile self "3" ["/"; "4"] w)
    /\ (_seems_like_filename "3" w = false -> _run_action self w = joined w)
    /\ (output_mode self = None -> joined w = SysArgvCtx [VStr "-c"] unit_ w)
    /\ (forall w1 w2,
          Namespace_auto_eval (BlockText "3 / 4") None true w1 = (Ok (VFloat 0.75), w2) ->
          unit_ w1 = (Ok tt, add_stdout (pformat (VFloat 0.75)) w2))
    /\ (forall l,
          _seems_like_filename "3" w = false ->
          output_mode self = None ->
          sys_argv w = ArgvList l ->
          exists w_in,
            sys_argv w_in = ArgvLogged (next_addr w)
            /\ heap w_in (next_addr w) = mkLoggedList [VStr "-c"] [None]
            /\ forall w_out,
                Namespace_auto_eval (BlockText "3 / 4") None true w_in
                = (Ok (VFloat 0.75), w_out) ->
                omap id (ll_unaccessed (heap w_out (next_addr w))) = [] ->
                _run_action self w
                = (Ok tt, set_sys_argv (ArgvList l)
                            (add_stdout (pformat (VFloat 0.75)) w_out))).
Proof.
  intros self w Hargs Hmode Hparsable joined unit_.
  assert (Hfile : _seems_like_filename "3" w = true ->
                  _run_action self w = execfile self "3" ["/"; "4"] w).
  { intros Hf. by rewrite (run_action_3_reaches_heuristics _ _ _ Hargs), Hf. }
  assert (Hjoined : _seems_like_filename "3" w = false -> _run_action self w = joined w).
  { intros Hf. rewrite (run_action_3_reaches_heuristics _ _ _ Hargs), Hf.
    by apply implied_eval_3_over_4. }
  assert (Hunit : output_mode self = None -> joined w = SysArgvCtx [VStr "-c"] unit_ w).
  { intros Hout. unfold joined, eval. cbn [arg_mode output_mode set_arg_mode].
    rewrite Hout. reflexivity. }
  assert (Hprint : forall w1 w2,
            Namespace_auto_eval (BlockText "3 / 4") None true w1 = (Ok (VFloat 0.75), w2) ->
            unit_ w1 = (Ok tt, add_stdout (pformat (VFloat 0.75)) w2)).
  { intros w1 w2 E. unfold unit_. by rewrite (bind_ok _ _ _ _ _ E). }
  split; [done|]. split; [done|]. split; [done|]. split; [done|].
  intros l Hf Hout Hl.
  eexists. split; [|split]; cycle 2.
  - intros w_out Heval Hunused.
    rewrite (Hjoined Hf), (Hunit Hout). unfold SysArgvCtx.
    unfold bind at 1, LoggedList_new at 1.
    unfold bind at 1, LoggedList_getitem at 1.
    cbn [heap set_heap next_addr]. rewrite fn_lookup_insert.
    cbn [LoggedList_init ll_items ll_unaccessed lookup list_lookup map length
         Nat.ltb Nat.leb list_insert insert].
    unfold bind at 1, list_sys_argv at 1. cbn [sys_argv set_heap]. rewrite Hl.
    unfold try_finally. unfold bind at 1. unfold bind at 1.
    rewrite (Hprint _ _ Heval).
    unfold bind at 1, LoggedList_unaccessed.
    cbn [heap add_stdout]. rewrite Hunused. reflexivity.
  - reflexivity.
  - cbn [heap set_sys_argv set_heap]. by rewrite fn_lookup_insert.
Qed.

End DispatcherProperties.

Lemma run_action_three_over_four_witness :
  let self := mkPyMain ["3"; "/"; "4"] None None ["3"; "/"; "4"] in
  let outcome := @_run_action Demo.builtins Demo.collaborators self Demo.w0 in
  outcome.1 = Ok tt
  /\ sys_argv outcome.2 = ArgvList [VStr "py"]
  /\ stdout outcome.2 = ["0.75"].
Proof.
  intros self outcome.
  destruct (@run_action_three_over_four Demo.builtins Demo.collaborators self Demo.w0
              eq_refl (or_introl eq_refl) eq_refl)
    as (_ & _ & _ & _ & Hend).
  destruct (Hend [VStr "py"] eq_refl eq_refl eq_refl) as (w_in & _ & Hheap & Hrun).
  assert (Hunused : omap id (ll_unaccessed
                      (heap (add_log_info "3 / 4" w_in) (next_addr Demo.w0))) = [])
    by (cbn [heap add_log_info]; by rewrite Hheap).
  specialize (Hrun (add_log_info "3 / 4" w_in) eq_refl Hunused).
  split; [|split].
  - unfold outcome. by rewrite Hrun.
  - unfold outcome. by rewrite Hrun.
  - by vm_compute.
Defined.

(** * Further properties *)

(** ** [LoggedList] *)

Lemma py_index_lt n i k : py_index n i = Some k -> k < n.
Proof.
  unfold py_index. intros H.
  destruct (i <? 0)%Z eqn:Hneg; case_match; simplify_eq; lia.
Qed.

Lemma aligned_length self :
  LL.aligned self -> length (ll_items self) = length (ll_unaccessed self).
Proof. apply Forall2_length. Qed.

Lemma aligned_init l : LL.aligned (LoggedList_init l).
Proof.
  unfold LL.aligned, LoggedList_init. cbn.
  induction l; constructor; auto.
Qed.

Lemma aligned_all_accessed (items : list value) :
  Forall2 (fun x u => u = None \/ u = Some x) items (replicate (length items) None).
Proof. induction items; cbn; constructor; auto. Qed.

Lemma aligned_py_insert i x (items : list value) u :
  Forall2 (fun x u => u = None \/ u = Some x) items u ->
  Forall2 (fun x u => u = None \/ u = Some x) (py_insert i x items) (py_insert i None u).
Proof.
  intros H. unfold py_insert. rewrite <- (Forall2_length _ _ _ H).
  apply Forall2_app; [by apply Forall2_take|].
  constructor; [by left|by apply Forall2_drop].
Qed.

Lemma aligned_py_repeat n (items : list value) u :
  Forall2 (fun x u => u = None \/ u = Some x) items u ->
  Forall2 (fun x u => u = None \/ u = Some x) (py_repeat n items) (py_repeat n u).
Proof.
  intros H. unfold py_repeat.
  induction (Z.to_nat n); cbn; [constructor|by apply Forall2_app].
Qed.

Lemma mark_accessed_all (u : list (option value)) :
  mark_accessed (length u) u = replicate (length u) None.
Proof. unfold mark_accessed. by rewrite Nat.min_id, drop_all, app_nil_r. Qed.

Lemma aligned_after c self : LL.aligned self -> LL.aligned (LL.after c self).
Proof.
  unfold LL.aligned. destruct self as [items us]. cbn. intros H.
  pose proof (Forall2_length _ _ _ H) as Hlen.
  destruct c; cbn -[mark_accessed].
  - apply Forall2_app; [done|]. constructor; [by left|constructor].
  - apply Forall2_app; [done|]. apply aligned_all_accessed.
  - by apply aligned_py_insert.
  - unfold LL.pop, py_pop; cbn. rewrite <- Hlen.
    destruct (py_index _ index) as [k|] eqn:Hk.
    + apply py_index_lt in Hk as Hlt.
      destruct (lookup_lt_is_Some_2 us k) as [y Hy]; [lia|].
      destruct (lookup_lt_is_Some_2 items k) as [z Hz]; [done|].
      rewrite Hy, Hz.
      destruct H; [done|]. cbn. apply Forall2_delete. by constructor.
    + by destruct H; cbn; [constructor|constructor].
  - rewrite !rev_alt. by apply (Forall2_reverse _ _ _ H).
  - unfold LL.delitem, py_delitem; cbn. rewrite <- Hlen.
    destruct (py_index _ x) as [k|]; [|done].
    cbn. by apply Forall2_delete.
  - unfold LL.getitem, py_setitem; cbn. rewrite <- Hlen.
    destruct (py_index _ idx) as [k|] eqn:Hk; [|done].
    destruct (items !! k) as [x|] eqn:Hx; [|done].
    cbn. rewrite <- (list_insert_id _ _ _ Hx) at 1.
    apply Forall2_insert; auto.
  - apply aligned_all_accessed.
  - apply Forall2_app; [done|]. apply aligned_all_accessed.
  - by apply aligned_py_repeat.
  - unfold LL.iter; cbn -[mark_accessed]. rewrite Hlen, Nat.leb_refl.
    cbn -[mark_accessed]. rewrite mark_accessed_all, <- Hlen. apply aligned_all_accessed.
  - rewrite <- Hlen. apply aligned_all_accessed.
  - unfold LL.reversed; cbn -[mark_accessed]. rewrite Hlen, Nat.leb_refl.
    cbn -[mark_accessed]. rewrite mark_accessed_all, <- Hlen. apply aligned_all_accessed.
  - unfold LL.setitem, py_setitem; cbn. rewrite <- Hlen.
    destruct (py_index _ idx) as [k|]; [|done].
    cbn. apply Forall2_insert; auto.
Qed.

Lemma aligned_sublist self :
  LL.aligned self -> sublist (LL.unaccessed self) (ll_items self).
Proof.
  unfold LL.aligned, LL.unaccessed.
  induction 1 as [|x u items us [->| ->] _ IH]; cbn.
  - constructor.
  - by apply sublist_cons.
  - by apply sublist_skip.
Qed.

(** X1: whatever methods are called on a [LoggedList], in whatever
    order and whether they return or raise, [_unaccessed] stays as long
    as [_items], and what [unaccessed] reports is a sub-sequence of the
    items the list holds. *)
Theorem LoggedList_unaccessed_within_items (l : list value) (calls : list LL.call) :
  let self := foldl (fun self c => LL.after c self) (LoggedList_init l) calls in
  length (ll_unaccessed self) = length (ll_items self)
  /\ sublist (LL.unaccessed self) (ll_items self).
Proof.
  cbn zeta.
  assert (LL.aligned (foldl (fun self c => LL.after c self) (LoggedList_init l) calls)) as H.
  { generalize (aligned_init l). generalize (LoggedList_init l).
    induction calls as [|c calls IH]; intros self Hself; cbn; [done|].
    apply IH. by apply aligned_after. }
  split; [symmetry; by apply aligned_length|by apply aligned_sublist].
Qed.

(** X2: a method call that raises on a [LoggedList] whose two lists
    line up leaves the object as it was. *)
Theorem LoggedList_raise_keeps_object (c : LL.call) (self : LoggedList) :
  LL.aligned self -> LL.raised c self = true -> LL.after c self = self.
Proof.
  unfold LL.aligned. destruct self as [items us]. cbn. intros H Hr.
  pose proof (Forall2_length _ _ _ H) as Hlen.
  destruct c; cbn in Hr |- *; try done.
  - unfold LL.pop, py_pop in *; cbn in *. rewrite <- Hlen in *.
    destruct (py_index _ index) as [k|] eqn:Hk.
    + apply py_index_lt in Hk as Hlt.
      destruct (lookup_lt_is_Some_2 us k) as [y Hy]; [lia|].
      destruct (lookup_lt_is_Some_2 items k) as [z Hz]; [done|].
      rewrite Hy, Hz in *. by destruct H.
    + by destruct H.
  - unfold LL.delitem, py_delitem in *; cbn in *. rewrite <- Hlen in *.
    by destruct (py_index _ x).
  - unfold LL.getitem, py_setitem in *; cbn in *. rewrite <- Hlen in *.
    destruct (py_index _ idx) as [k|]; [|done].
    by destruct (items !! k).
  - unfold LL.iter in *; cbn in *. by rewrite <- Hlen, Nat.leb_refl in Hr.
  - unfold LL.reversed in *; cbn in *. by rewrite <- Hlen, Nat.leb_refl in Hr.
  - unfold LL.setitem, py_setitem in *; cbn in *. rewrite <- Hlen in *.
    by destruct (py_index _ idx).
Qed.

(** [pop(5)] on a list of two items raises and leaves the list as it was. *)
Lemma LoggedList_raise_keeps_object_witness :
  LL.after (LL.Pop 5) (LoggedList_init [VInt 1; VInt 2]) = LoggedList_init [VInt 1; VInt 2].
Proof.
  apply LoggedList_raise_keeps_object; [apply aligned_init|reflexivity].
Defined.
Lemma imap_all_Some {A} (f : nat -> A -> option A) (l : list A) :
  (forall k x, f k x = Some x) -> imap f l = map Some l.
Proof.
  revert f. induction l as [|x l IH]; intros f Hf; cbn; [done|].
  rewrite Hf. f_equal. apply IH. intros k y. apply Hf.
Qed.

(** [_unaccessed] of a list [l] of which the positions [seen] were read. *)
Lemma getitem_fresh_step (l : list value) (seen : list (option nat)) (i : Z) :
  LL.after (LL.Getitem i)
    (mkLoggedList l (imap (fun k x => if bool_decide (Some k ∈ seen) then None else Some x) l))
  = mkLoggedList l
      (imap (fun k x => if bool_decide (Some k ∈ seen ++ [py_index (length l) i])
                        then None else Some x) l).
Proof.
  cbn. unfold LL.getitem, py_setitem; cbn. rewrite length_imap.
  destruct (py_index (length l) i) as [k|] eqn:Hk.
  - apply py_index_lt in Hk as Hlt.
    destruct (lookup_lt_is_Some_2 l k) as [x Hx]; [done|].
    rewrite Hx. cbn. f_equal.
    apply list_eq. intros j. rewrite list_lookup_imap.
    destruct (decide (j = k)) as [->|Hne].
    + rewrite list_lookup_insert_eq by (by rewrite length_imap).
      rewrite Hx. cbn. rewrite bool_decide_eq_true_2; [done|].
      apply elem_of_app. right. apply list_elem_of_here.
    + rewrite list_lookup_insert_ne by done. rewrite list_lookup_imap.
      destruct (l !! j) as [y|]; [|done]. cbn.
      rewrite (bool_decide_ext (Some j ∈ seen) (Some j ∈ seen ++ [Some k])); [done|].
      rewrite elem_of_app, list_elem_of_singleton. intuition congruence.
  - cbn. f_equal. apply imap_ext. intros j y _.
    rewrite (bool_decide_ext (Some j ∈ seen) (Some j ∈ seen ++ [None])); [done|].
    rewrite elem_of_app, list_elem_of_singleton. intuition congruence.
Qed.

(** X3: after any reads [self[i]] of a new [LoggedList(l)], with
    negative and out-of-range indexes among them, the list still holds
    [l] and [unaccessed] gives exactly the items at the positions that no
    read reached, in their order. *)
Theorem LoggedList_reports_unread (l : list value) (reads : list Z) :
  let self := foldl (fun self i => LL.after (LL.Getitem i) self) (LoggedList_init l) reads in
  ll_items self = l
  /\ LL.unaccessed self
     = omap id (imap (fun k x =>
                        if bool_decide (Some k ∈ map (py_index (length l)) reads)
                        then None else Some x) l).
Proof.
  cbn zeta.
  assert (forall seen,
    foldl (fun self i => LL.after (LL.Getitem i) self)
      (mkLoggedList l
         (imap (fun k x => if bool_decide (Some k ∈ seen) then None else Some x) l)) reads
    = mkLoggedList l
        (imap (fun k x => if bool_decide (Some k ∈ seen ++ map (py_index (length l)) reads)
                          then None else Some x) l)) as H.
  { induction reads as [|i reads IH]; intros seen; cbn [foldl map].
    - by rewrite app_nil_r.
    - rewrite getitem_fresh_step, IH. by rewrite <- app_assoc. }
  specialize (H []).
  assert (imap (fun (k : nat) (x : value) =>
                  if bool_decide (Some k ∈ @nil (option nat)) then None else Some x) l
          = map Some l) as Hinit.
  { apply imap_all_Some. intros j y.
    by rewrite bool_decide_eq_false_2 by apply not_elem_of_nil. }
  rewrite Hinit in H. unfold LoggedList_init. rewrite H. done.
Qed.
(** ** Mode resolvers and the result printer *)

Section ResolverExtras.
Context `{!PyBuiltins}.

Lemma arg_mode_of_rarg_canonical rarg m :
  arg_mode_of_rarg rarg = Some m -> m ∈ ["eval"; "string"; "auto"; "error"].
Proof.
  unfold arg_mode_of_rarg. intros Hm.
  repeat case_match; simplify_eq; set_solver.
Qed.

Lemma output_mode_of_rarg_canonical rarg m :
  output_mode_of_rarg rarg = Some m ->
  m ∈ ["silent"; "interactive"; "str"; "repr"; "pprint";
       "repr-if-not-none"; "pprint-if-not-none"; "exit"].
Proof.
  unfold output_mode_of_rarg. intros Hm.
  repeat case_match; simplify_eq; set_solver.
Qed.

Lemma interpret_arg_mode_in arg d m :
  _interpret_arg_mode arg d = Ok m -> m ∈ ["eval"; "string"; "auto"; "error"].
Proof.
  unfold _interpret_arg_mode. destruct (arg_mode_of_rarg _) as [m'|] eqn:E; [|done].
  intros [= <-]. by eapply arg_mode_of_rarg_canonical.
Qed.

Lemma interpret_output_mode_in arg d m :
  _interpret_output_mode arg d = Ok m ->
  m ∈ ["silent"; "interactive"; "str"; "repr"; "pprint";
       "repr-if-not-none"; "pprint-if-not-none"; "exit"].
Proof.
  unfold _interpret_output_mode. destruct (output_mode_of_rarg _) as [m'|] eqn:E; [|done].
  intros [= <-]. by eapply output_mode_of_rarg_canonical.
Qed.

(** X4: a mode [_interpret_arg_mode] returns is one of the four
    canonical names, and each canonical name resolves to itself, so a
    resolved mode can be resolved again. *)
Theorem interpret_arg_mode_canonical (arg : option string) (default m : string) :
  _interpret_arg_mode arg default = Ok m ->
  m ∈ ["eval"; "string"; "auto"; "error"]
  /\ forall default', _interpret_arg_mode (Some m) default' = Ok m.
Proof.
  intros Hm%interpret_arg_mode_in. split; [done|].
  intros d. set_unfold in Hm. destruct_or!; try done; subst m; by vm_compute.
Qed.

(** X5: a mode [_interpret_output_mode] returns is one of the eight
    canonical names, and each canonical name resolves to itself. *)
Theorem interpret_output_mode_canonical (arg : option string) (default m : string) :
  _interpret_output_mode arg default = Ok m ->
  m ∈ ["silent"; "interactive"; "str"; "repr"; "pprint";
       "repr-if-not-none"; "pprint-if-not-none"; "exit"]
  /\ forall default', _interpret_output_mode (Some m) default' = Ok m.
Proof.
  intros Hm%interpret_output_mode_in. split; [done|].
  intros d. set_unfold in Hm. destruct_or!; try done; subst m; by vm_compute.
Qed.

Lemma all_space_lstrip a : all_chars PyStr.is_space a = true -> PyStr.lstrip a = "".
Proof.
  induction a as [|c a IH]; cbn; [done|].
  intros [Hc Ha]%andb_prop. by rewrite Hc, IH.
Qed.

Lemma all_space_rstrip a : all_chars PyStr.is_space a = true -> PyStr.rstrip a = "".
Proof.
  induction a as [|c a IH]; cbn; [done|].
  intros [Hc Ha]%andb_prop. by rewrite IH, Hc.
Qed.

Lemma lstrip_app_space a s :
  all_chars PyStr.is_space a = true -> PyStr.lstrip (a +:+ s) = PyStr.lstrip s.
Proof.
  induction a as [|c a IH]; [done|]. cbn [all_chars].
  intros [Hc Ha]%andb_prop. rewrite str_app_cons. cbn [PyStr.lstrip].
  rewrite Hc. by apply IH.
Qed.

Lemma rstrip_app_space s b :
  all_chars PyStr.is_space b = true -> PyStr.rstrip (s +:+ b) = PyStr.rstrip s.
Proof.
  intros Hb. induction s as [|c s IH].
  - rewrite str_app_nil. by apply all_space_rstrip.
  - rewrite str_app_cons. cbn [PyStr.rstrip]. by rewrite IH.
Qed.

Lemma strip_app_space a s b :
  all_chars PyStr.is_space a = true -> all_chars PyStr.is_space b = true ->
  PyStr.strip (a +:+ s +:+ b) = PyStr.strip s.
Proof.
  intros Ha Hb. unfold PyStr.strip. rewrite (lstrip_app_space _ _ Ha).
  induction s as [|c s IH].
  - rewrite str_app_nil, (all_space_lstrip _ Hb). done.
  - rewrite str_app_cons. cbn [PyStr.lstrip].
    destruct (PyStr.is_space c); [done|].
    rewrite <- str_app_cons. by apply rstrip_app_space.
Qed.

(** X6: white space around a mode name is ignored by both resolvers:
    they accept or reject the padded name as they do the bare one, and
    give the same mode. *)
Theorem mode_resolvers_ignore_padding (a s b default : string) :
  all_chars PyStr.is_space a = true ->
  all_chars PyStr.is_space b = true ->
  resolved (_interpret_arg_mode (Some (a +:+ s +:+ b)) default)
    = resolved (_interpret_arg_mode (Some s) default)
  /\ resolved (_interpret_output_mode (Some (a +:+ s +:+ b)) default)
    = resolved (_interpret_output_mode (Some s) default).
Proof.
  intros Ha Hb.
  rewrite !interpret_arg_mode_lower, !interpret_output_mode_squeezed.
  by rewrite (strip_app_space _ _ _ Ha Hb).
Qed.




End ResolverExtras.


(** [" STR "] resolves to [string], and [string] resolves to itself. *)
Lemma interpret_arg_mode_canonical_witness :
  "string" ∈ ["eval"; "string"; "auto"; "error"]
  /\ forall default',
       _interpret_arg_mode (H := Demo.builtins) (Some "string") default' = Ok "string".
Proof.
  apply (interpret_arg_mode_canonical (H := Demo.builtins) (Some " STR ") "auto").
  by vm_compute.
Defined.

(** ["Repr_Unless_None"] resolves to [repr-if-not-none], which resolves to itself. *)
Lemma interpret_output_mode_canonical_witness :
  "repr-if-not-none" ∈ ["silent"; "interactive"; "str"; "repr"; "pprint";
                        "repr-if-not-none"; "pprint-if-not-none"; "exit"]
  /\ forall default',
       _interpret_output_mode (H := Demo.builtins) (Some "repr-if-not-none") default'
       = Ok "repr-if-not-none".
Proof.
  apply (interpret_output_mode_canonical (H := Demo.builtins) (Some "Repr_Unless_None") "silent").
  by vm_compute.
Defined.

(** A blank before and two blanks after ["Eval"] change nothing: [eval] for the
    argument mode, a rejection for the output mode. *)
Lemma mode_resolvers_ignore_padding_witness :
  resolved (_interpret_arg_mode (H := Demo.builtins) (Some (" " +:+ "Eval" +:+ "  ")) "auto")
    = resolved (_interpret_arg_mode (H := Demo.builtins) (Some "Eval") "auto")
  /\ resolved (_interpret_output_mode (H := Demo.builtins) (Some (" " +:+ "Eval" +:+ "  ")) "auto")
    = resolved (_interpret_output_mode (H := Demo.builtins) (Some "Eval") "auto").
Proof.
  apply (mode_resolvers_ignore_padding (H := Demo.builtins)); reflexivity.
Defined.
(** ** Argument binder: what the scanning loop can and cannot do *)

Section ScanExtras.
Context `{!PyBuiltins, !Collaborators}.

(** The exceptions of the scanning loop. *)
Lemma resolve_option_raises argspec prefix2argname n equalsign e :
  resolve_option argspec prefix2argname n equalsign = Raise e ->
  e = ParseInterruptedWantHelp \/ e = ParseInterruptedWantSource
  \/ exists msg, e = ParseError msg.
Proof.
  unfold resolve_option. intros Hr.
  repeat case_match; simplify_eq; eauto.
Qed.

(** An induction principle for the scanning loop: a property of the
    collected values and the world that every step of the loop keeps
    holds of what the loop returns, and of the world in which it
    raises; what it raises is a help or source request or a
    [ParseError]. *)
Lemma scan_args_invariant argspec prefix2argname arg_mode
      (I : list string -> gmap string string -> world -> Prop) :
  (forall pos kw w data, I pos kw w -> I (pos ++ [data]) kw (set_stdin "" w)) ->
  (forall pos kw w more, I pos kw w -> I (pos ++ more) kw w) ->
  (forall pos kw w n equalsign name v,
      I pos kw w -> resolve_option argspec prefix2argname n equalsign = Ok name ->
      I pos (<[name := v]> kw) w) ->
  forall tokens pos kw w,
    I pos kw w ->
    match scan_args argspec prefix2argname arg_mode tokens pos kw w with
    | (Ok (pos', kw'), w') => I pos' kw' w'
    | (Raise e, w') =>
        (exists pos' kw', I pos' kw' w')
        /\ (e = ParseInterruptedWantHelp \/ e = ParseInterruptedWantSource
            \/ exists msg, e = ParseError msg)
    end.
Proof.
  intros Hstdin Hpos Hkw tokens.
  remember (length tokens) as n eqn:Hn.
  revert tokens Hn. induction (lt_wf n) as [n _ IH]. intros tokens Hn pos kw w HI. subst n.
  assert (IHs : forall ts pos kw w,
             length ts < length tokens -> I pos kw w ->
             match scan_args argspec prefix2argname arg_mode ts pos kw w with
             | (Ok (pos', kw'), w') => I pos' kw' w'
             | (Raise e, w') =>
                 (exists pos' kw', I pos' kw' w')
                 /\ (e = ParseInterruptedWantHelp \/ e = ParseInterruptedWantSource
                     \/ exists msg, e = ParseError msg)
             end).
  { intros ts pos' kw' w' Hlt HI'. by eapply IH. }
  clear IH.
  destruct tokens as [|arg rest]; [done|].
  destruct (is_option_token arg) eqn:Htok.
  - destruct (split_option arg) as [[n e] v] eqn:Hsplit.
    destruct (is_identifier n) eqn:Hid.
    + rewrite (scan_option_token _ _ _ _ _ _ _ _ _ _ _ Htok Hsplit Hid).
      destruct (resolve_option _ _ _ _) as [name|err] eqn:Hres.
      * destruct (v =? "")%string.
        -- destruct rest as [|value rest']; [split; by eauto 10|].
           destruct (PyStr.startswith value "--"); [split; by eauto 10|].
           apply IHs; [cbn; lia|by eapply Hkw].
        -- apply IHs; [cbn; lia|by eapply Hkw].
      * split; [by eauto|]. by eapply resolve_option_raises.
    + revert Htok Hsplit Hid. unfold is_option_token, split_option. cbn [scan_args].
      destruct (PyStr.mem arg ["--?"; "-?"; "?"]); [discriminate|].
      destruct (PyStr.mem arg ["--??"; "-??"; "??"]); [discriminate|].
      destruct (PyStr.startswith arg "-"); [|discriminate].
      destruct (arg =? "-")%string; [discriminate|].
      destruct (arg =? "--")%string; [discriminate|].
      intros _. destruct (PyStr.partition "=" _) as [[argname e0] v0].
      intros [= -> -> ->] ->. cbn. split; by eauto 10.
  - revert Htok. unfold is_option_token. cbn [scan_args].
    destruct (PyStr.mem arg ["--?"; "-?"; "?"]);
      [intros _; cbn; split; by eauto 10|].
    destruct (PyStr.mem arg ["--??"; "-??"; "??"]);
      [intros _; cbn; split; by eauto 10|].
    destruct (PyStr.startswith arg "-") eqn:Hdash.
    + destruct (arg =? "-")%string.
      * intros _. unfold bind at 1, stdin_read.
        apply IHs; [cbn; lia|by apply Hstdin].
      * destruct (arg =? "--")%string; [|discriminate].
        intros _. unfold ret.
        destruct (arg_mode =? "string")%string; by apply Hpos.
    + intros _. apply IHs; [cbn; lia|by apply Hpos].
Qed.

(** X9: the scanning loop of [_parse_auto_apply_args] evaluates
    nothing and prints nothing: whatever the tokens, and whether it
    returns or raises, the only thing it changes is standard input,
    which a [-] token reads to the end.  What it raises is a help
    request, a source request or a [ParseError]. *)
Theorem scan_args_reads_stdin_only (argspec : ArgSpec)
        (prefix2argname : gmap string (list string)) (arg_mode : string)
        (tokens pos : list string) (kw : gmap string string) (w : world) :
  match scan_args argspec prefix2argname arg_mode tokens pos kw w with
  | (Ok _, w') => w' = w \/ w' = set_stdin "" w
  | (Raise e, w') =>
      (w' = w \/ w' = set_stdin "" w)
      /\ (e = ParseInterruptedWantHelp \/ e = ParseInterruptedWantSource
          \/ exists msg, e = ParseError msg)
  end.
Proof.
  pose proof (scan_args_invariant argspec prefix2argname arg_mode
                (fun _ _ w' => w' = w \/ w' = set_stdin "" w)) as Hinv.
  cbn beta in Hinv.
  specialize (Hinv ltac:(intros ? ? ? ? [->| ->]; by right) ltac:(done) ltac:(done)
                   tokens pos kw w ltac:(by left)).
  destruct (scan_args _ _ _ _ _ _ _) as [[[p k]|e] w']; [done|].
  destruct Hinv as [(_ & _ & Hw) He]. done.
Qed.

End ScanExtras.
(** ** Argument binder: defaults, arity and leftover keywords *)

Section BinderExtras.
Context `{!PyBuiltins, !Collaborators}.

Lemma foldl_insert_zip_notin (names : list string) (ds : list value)
      (m : gmap string value) name :
  name ∉ names ->
  foldl (fun m '(argname, d) => <[argname := d]> m) m (zip names ds) !! name = m !! name.
Proof.
  revert ds m. induction names as [|x names IH]; intros ds m Hn; [done|].
  apply not_elem_of_cons in Hn as [Hne Hn].
  destruct ds as [|d ds]; [done|]. cbn.
  rewrite IH by done. by rewrite lookup_insert_ne.
Qed.

Lemma foldl_insert_zip_lookup (names : list string) (ds : list value)
      (m : gmap string value) j name :
  NoDup names -> names !! j = Some name ->
  foldl (fun m '(argname, d) => <[argname := d]> m) m (zip names ds) !! name
  = match ds !! j with Some d => Some d | None => m !! name end.
Proof.
  intros Hnd. revert ds m j.
  induction Hnd as [|x names Hx Hnd IH]; intros ds m j Hj; [done|].
  destruct ds as [|d ds]; [by destruct j|].
  destruct j as [|j]; cbn in Hj |- *.
  - injection Hj as ->. rewrite foldl_insert_zip_notin by done.
    by rewrite lookup_insert_eq.
  - rewrite (IH _ _ _ Hj).
    destruct (ds !! j); [done|].
    apply lookup_insert_ne. intros ->. apply Hx. by eapply list_elem_of_lookup_2.
Qed.

(** X10: the defaults belong to the last parameters, in order: with
    [n] parameters (all different) and [k <= n] defaults, the parameter
    at index [i] has a default exactly when [n - k <= i], and it is the
    default at index [i - (n - k)]. *)
Theorem argname2default_alignment (argspec : ArgSpec) (i : nat) (name : string) :
  NoDup (args argspec) ->
  length (default [] (defaults argspec)) <= length (args argspec) ->
  args argspec !! i = Some name ->
  build_argname2default argspec !! name
  = if decide (length (args argspec) - length (default [] (defaults argspec)) <= i)
    then default [] (defaults argspec)
           !! (i - (length (args argspec) - length (default [] (defaults argspec))))
    else None.
Proof.
  intros Hnd Hle Hi. unfold build_argname2default.
  set (ds := default [] (defaults argspec)) in *.
  set (n := length (args argspec)) in *.
  assert (slice_from (Z.of_nat n - Z.of_nat (length ds)) (args argspec)
          = drop (n - length ds) (args argspec)) as ->.
  { unfold slice_from. fold n.
    destruct (Z.ltb_spec (Z.of_nat n - Z.of_nat (length ds)) 0) as [Hlt|_]; [lia|].
    f_equal. lia. }
  destruct (decide (n - length ds <= i)) as [Hge|Hlt].
  - rewrite (foldl_insert_zip_lookup _ _ _ (i - (n - length ds)) name).
    + pose proof (lookup_lt_Some _ _ _ Hi) as Hin. fold n in Hin.
      destruct (lookup_lt_is_Some_2 ds (i - (n - length ds))) as [d ->]; [lia|done].
    + eapply sublist_NoDup; [exact Hnd|apply sublist_drop].
    + rewrite lookup_drop. rewrite <- Hi. f_equal. lia.
  - rewrite foldl_insert_zip_notin; [done|].
    intros (j & Hj)%list_elem_of_lookup_1. rewrite lookup_drop in Hj.
    pose proof (NoDup_lookup _ _ _ _ Hnd Hi Hj). lia.
Qed.

(** In mode [string] a value is taken as it is. *)
Lemma mapM_string (l : list string) w :
  mapM (fun a => _parse_value_or_string (VStr a) "string") l w = (Ok (map VStr l), w).
Proof.
  induction l as [|a l IH]; [done|].
  cbn [mapM]. unfold bind at 1.
  assert (_parse_value_or_string (VStr a) "string" w = (Ok (VStr a), w)) as -> by done.
  unfold bind. by rewrite IH.
Qed.

Lemma mapM_length {A B} (f : A -> M B) (l : list A) w ys w' :
  mapM f l w = (Ok ys, w') -> length ys = length l.
Proof.
  revert w ys. induction l as [|x l IH]; intros w ys; cbn [mapM].
  - by intros [= <- <-].
  - unfold bind. destruct (f x w) as [[y|e] w1]; [|done].
    destruct (mapM f l w1) as [[ys'|e] w2] eqn:E; [|done].
    intros [= <- <-]. cbn. f_equal. by eapply IH.
Qed.

Lemma bind_parameters_string pos a2d names :
  forall i kw parsed w,
    i + length names <= length pos -> (forall name, name ∈ names -> kw !! name = None) ->
    bind_parameters "string" pos a2d i names kw parsed w
    = (Ok (parsed ++ map VStr (take (length names) (drop i pos)), kw), w).
Proof.
  induction names as [|name names IH]; intros i kw parsed w Hlen Hkw; cbn [bind_parameters].
  - cbn. by rewrite app_nil_r.
  - cbn [length] in Hlen.
    destruct (lookup_lt_is_Some_2 pos i) as [v Hv]; [lia|].
    unfold bind at 1. unfold bind_parameter. rewrite Hv.
    rewrite Hkw by apply list_elem_of_here. cbn.
    rewrite IH; [|lia|intros ? ?; apply Hkw; by apply list_elem_of_further].
    rewrite <- app_assoc. cbn. do 3 f_equal.
    rewrite (drop_S _ _ _ Hv). done.
Qed.

Lemma bind_not_ok {A B} (m : M A) (k : A -> M B) w :
  is_ok (m w).1 = false -> is_ok (bind m k w).1 = false.
Proof. unfold bind. by destruct (m w) as [[a|e] w1]. Qed.

Lemma scan_plain argspec prefix2argname arg_mode tokens :
  forallb plain_token tokens = true ->
  forall pos kw w,
    scan_args argspec prefix2argname arg_mode tokens pos kw w = (Ok (pos ++ tokens, kw), w).
Proof.
  induction tokens as [|t tokens IH]; intros Hp pos kw w.
  - cbn. by rewrite app_nil_r.
  - cbn [forallb] in Hp. apply andb_prop in Hp as [Ht Hp].
    unfold plain_token in Ht. apply andb_prop in Ht as [Hdash Hq].
    apply negb_true_iff in Hdash, Hq.
    cbn [scan_args].
    assert (PyStr.mem t ["--?"; "-?"; "?"] = false) as ->.
    { unfold PyStr.mem in *. apply bool_decide_eq_false. apply bool_decide_eq_false in Hq.
      set_unfold. intros [->|[->|[->|[]]]]; [done|done|]. apply Hq. by left. }
    assert (PyStr.mem t ["--??"; "-??"; "??"] = false) as ->.
    { unfold PyStr.mem in *. apply bool_decide_eq_false. apply bool_decide_eq_false in Hq.
      set_unfold. intros [->|[->|[->|[]]]]; [done|done|]. apply Hq. right. by left. }
    rewrite Hdash. rewrite (IH Hp). by rewrite <- app_assoc.
Qed.

Lemma scan_plain_call argspec arg_mode tokens w :
  forallb plain_token tokens = true ->
  _parse_auto_apply_args argspec tokens arg_mode w
  = (let* (parsed_args, got_keyword_args) :=
       bind_parameters arg_mode tokens (build_argname2default argspec) 0 (args argspec) ∅ [] in
     let* parsed_args := bind_excess argspec arg_mode tokens parsed_args in
     let* parsed_kwargs := bind_keywords arg_mode (sorted_items got_keyword_args) ∅ in
     ret (parsed_args, parsed_kwargs)) w.
Proof.
  intros Hp. unfold _parse_auto_apply_args. unfold bind at 1.
  by rewrite (scan_plain _ _ _ _ Hp).
Qed.

(** X11: more positional values than the function has parameters are
    refused when it has no [*args]: with plain tokens only (no leading
    dash, no help request), the call is not accepted in any argument
    mode, and in mode [string] it raises the [ParseError] that states
    the number of values expected and leaves the world as it was. *)
Theorem too_many_positional_rejected (argspec : ArgSpec) (tokens : list string)
        (arg_mode : string) (w : world) :
  forallb plain_token tokens = true ->
  length (args argspec) < length tokens ->
  truthy_name (varargs argspec) = false ->
  let expected :=
    match defaults argspec with
    | Some ((_ :: _) as ds) =>
        pretty (Z.of_nat (length (args argspec)) - Z.of_nat (length ds))%Z
        +:+ "-" +:+ pretty (length (args argspec))
    | _ => pretty (length (args argspec))
    end in
  is_ok (_parse_auto_apply_args argspec tokens arg_mode w).1 = false
  /\ _parse_auto_apply_args argspec tokens "string" w
     = (Raise (ParseError
          ("Too many positional arguments.  Expected " +:+ expected
           +:+ " positional argument(s): " +:+ PyStr.join ", " (args argspec)
           +:+ ".  Got " +:+ pretty (length tokens) +:+ " args: "
           +:+ PyStr.join " " tokens)), w).
Proof.
  intros Hp Hlen Hvar expected. rewrite !(scan_plain_call _ _ _ _ Hp).
  assert (forall parsed w1, bind_excess argspec arg_mode tokens parsed w1
            = bind_excess argspec "string" tokens parsed w1
          /\ is_ok (bind_excess argspec arg_mode tokens parsed w1).1 = false) as Hex.
  { intros parsed w1. unfold bind_excess.
    apply Nat.ltb_lt in Hlen. by rewrite Hlen, Hvar. }
  split.
  - unfold bind at 1.
    destruct (bind_parameters _ _ _ _ _ _ _ w) as [[[parsed kw]|e] w1]; [|done].
    apply bind_not_ok. apply Hex.
  - unfold bind at 1.
    rewrite bind_parameters_string; [|lia|intros; apply lookup_empty].
    unfold bind at 1. unfold bind_excess.
    apply Nat.ltb_lt in Hlen. by rewrite Hlen, Hvar.
Qed.

(** X12: when [_parse_auto_apply_args] accepts a call, [parsed_args]
    has one value for each declared parameter or one for each
    positional token, whichever is more; there can be more positional
    tokens than parameters only if the function has [*args]. *)
Theorem accepted_positional_count (argspec : ArgSpec) (tokens : list string)
        (arg_mode : string) (w : world) got_pos got_kw w1 parsed_args parsed_kwargs w' :
  scan_args argspec (build_prefix2argname (args argspec)) arg_mode tokens [] ∅ w
    = (Ok (got_pos, got_kw), w1) ->
  _parse_auto_apply_args argspec tokens arg_mode w = (Ok (parsed_args, parsed_kwargs), w') ->
  length parsed_args = max (length (args argspec)) (length got_pos)
  /\ (length (args argspec) < length got_pos -> truthy_name (varargs argspec) = true).
Proof.
  intros Hscan. unfold _parse_auto_apply_args.
  rewrite (bind_ok _ _ _ _ _ Hscan). unfold bind at 1.
  destruct (bind_parameters _ _ _ _ _ _ _ w1) as [[[parsed kw]|e] w2] eqn:Hbp; [|done].
  apply bind_parameters_ok in Hbp as (Hlen & _). cbn in Hlen.
  unfold bind at 1. unfold bind_excess.
  destruct (_ <? _)%nat eqn:Hlt.
  - apply Nat.ltb_lt in Hlt.
    destruct (truthy_name (varargs argspec)); [|done].
    unfold bind at 1.
    destruct (mapM _ _ w2) as [[more|e] w3] eqn:Hmore; [|done].
    apply mapM_length in Hmore. rewrite length_drop in Hmore.
    unfold ret at 1. unfold bind at 1.
    destruct (bind_keywords _ _ _ w3) as [[kws|e] w4]; [|done].
    intros [= <- <- <-]. rewrite length_app. split; [lia|done].
  - apply Nat.ltb_ge in Hlt. unfold ret at 1. unfold bind at 1.
    destruct (bind_keywords _ _ _ w2) as [[kws|e] w4]; [|done].
    intros [= <- <- <-]. split; lia.
Qed.

Lemma resolve_option_declared argspec n equalsign name :
  resolve_option argspec (build_prefix2argname (args argspec)) n equalsign = Ok name ->
  name ∈ args argspec \/ truthy_name (keywords argspec) = true.
Proof.
  unfold resolve_option, build_prefix2argname.
  rewrite lookup_fold_prefixes, lookup_empty. cbn [default app].
  destruct (filter _ _) as [|a [|b l]] eqn:Hf.
  - repeat case_match; try done. intros _. right.
    by destruct (truthy_name (keywords argspec)).
  - intros [= <-]. left.
    assert (a ∈ filter (fun a0 => n ∈ prefixes a0) (args argspec)) as Hin
      by (rewrite Hf; apply list_elem_of_here).
    by apply list_elem_of_filter in Hin as [_ ?].
  - done.
Qed.

(** X13: a function without [**kwargs] never gets keyword arguments
    beyond its declared parameters: when [_parse_auto_apply_args]
    accepts a call to it, [parsed_kwargs] is empty. *)
Theorem no_varkw_no_kwargs (argspec : ArgSpec) (tokens : list string)
        (arg_mode : string) (w : world) parsed_args parsed_kwargs w' :
  truthy_name (keywords argspec) = false ->
  _parse_auto_apply_args argspec tokens arg_mode w = (Ok (parsed_args, parsed_kwargs), w') ->
  parsed_kwargs = ∅.
Proof.
  intros Hkw. unfold _parse_auto_apply_args.
  pose proof (scan_args_invariant argspec (build_prefix2argname (args argspec)) arg_mode
                (fun _ kw _ => forall k, is_Some (kw !! k) -> k ∈ args argspec)) as Hinv.
  cbn beta in Hinv.
  specialize (Hinv ltac:(done) ltac:(done)).
  specialize (Hinv ltac:(
    intros pos kw w0 n e name v HI Hres k;
    destruct (decide (k = name)) as [->|Hne];
    [intros _; apply resolve_option_declared in Hres as [?|?]; [done|congruence]
    |rewrite lookup_insert_ne by done; apply HI])).
  specialize (Hinv tokens [] ∅ w ltac:(intros k [? Hk]; by rewrite lookup_empty in Hk)).
  unfold bind at 1.
  destruct (scan_args _ _ _ _ _ _ w) as [[[got_pos got_kw]|e] w1]; [|done].
  unfold bind at 1.
  destruct (bind_parameters _ _ _ _ _ _ _ w1) as [[[parsed kw]|e] w2] eqn:Hbp; [|done].
  apply bind_parameters_ok in Hbp as (_ & Hkeep & Hdecl & _).
  assert (kw = ∅) as ->.
  { apply map_empty. intros k.
    destruct (got_kw !! k) as [v|] eqn:Hk; [|by apply Hkeep].
    apply Hdecl, Hinv. by rewrite Hk. }
  unfold bind at 1.
  destruct (bind_excess _ _ _ _ w2) as [[parsed'|e] w3]; [|done].
  unfold bind at 1.
  destruct (bind_keywords _ _ _ w3) as [[kws|e] w4] eqn:Hbk; [|done].
  intros [= <- <- <-].
  apply map_empty. intros k. eapply bind_keywords_ok; [exact Hbk|apply lookup_empty|].
  intros [v Hv]%sorted_items_keys. by rewrite lookup_empty in Hv.
Qed.

(** X14: an error while the value of a leftover keyword option is
    evaluated is reported as a [ParseError] that names the option, its
    raw value and the error; only what is not an [Exception]
    ([SystemExit], [KeyboardInterrupt]) comes out as it is. *)
Theorem leftover_keyword_errors_wrapped (arg_mode : string)
        (items : list (string * string)) (acc : gmap string value) (w : world) e w' :
  bind_keywords arg_mode items acc w = (Raise e, w') ->
  exists argname unparsed_value cause w0,
    (argname, unparsed_value) ∈ items
    /\ _parse_value_or_string (VStr unparsed_value) arg_mode w0 = (Raise cause, w')
    /\ if is_Exception cause
       then e = ParseError ("Error parsing value for --" +:+ argname +:+ "="
                            +:+ unparsed_value +:+ ": " +:+ exn_name cause
                            +:+ ": " +:+ exn_str cause)
       else e = cause.
Proof.
  revert acc w. induction items as [|[argname unparsed] items IH]; intros acc w; [done|].
  cbn [bind_keywords]. unfold bind at 1, catch.
  destruct (_parse_value_or_string (VStr unparsed) arg_mode w) as [[v|cause] w1] eqn:Hp.
  - intros (a & u & c & w0 & Hin & Hrest)%IH.
    exists a, u, c, w0. split; [by apply list_elem_of_further|done].
  - destruct (is_Exception cause) eqn:Hc.
    + intros [= <- <-]. exists argname, unparsed, cause, w.
      split; [apply list_elem_of_here|]. by rewrite Hc.
    + intros [= <- <-]. exists argname, unparsed, cause, w.
      split; [apply list_elem_of_here|]. by rewrite Hc.
Qed.

Lemma bind_parameters_string_frame pos a2d names :
  forall i kw parsed w,
    match bind_parameters "string" pos a2d i names kw parsed w with
    | (Ok _, w') => w' = w
    | (Raise e, w') => w' = w /\ exists msg, e = ParseError msg
    end.
Proof.
  induction names as [|name names IH]; intros i kw parsed w; cbn [bind_parameters]; [done|].
  unfold bind at 1, bind_parameter.
  destruct (pos !! i) as [unparsed|]; destruct (kw !! name) as [kv|]; cbn; try by eauto.
  - apply IH.
  - apply IH.
  - destruct (a2d !! name) as [d|]; cbn; [apply IH|by eauto].
Qed.

Lemma bind_keywords_string items :
  forall acc w, exists m, bind_keywords "string" items acc w = (Ok m, w).
Proof.
  induction items as [|[argname unparsed] items IH]; intros acc w; cbn [bind_keywords].
  - by eexists.
  - unfold bind at 1, catch. cbn. apply IH.
Qed.

(** X15: in argument mode [string] the binder runs no code: whatever
    the signature and the tokens, [_parse_auto_apply_args] changes
    nothing but standard input (read by a [-] token), and what it
    raises is a help request, a source request or a [ParseError]. *)
Theorem parse_auto_apply_args_string_mode (argspec : ArgSpec) (tokens : list string)
        (w : world) :
  match _parse_auto_apply_args argspec tokens "string" w with
  | (Ok _, w') => w' = w \/ w' = set_stdin "" w
  | (Raise e, w') =>
      (w' = w \/ w' = set_stdin "" w)
      /\ (e = ParseInterruptedWantHelp \/ e = ParseInterruptedWantSource
          \/ exists msg, e = ParseError msg)
  end.
Proof.
  unfold _parse_auto_apply_args. unfold bind at 1.
  pose proof (scan_args_invariant argspec (build_prefix2argname (args argspec)) "string"
                (fun _ _ w' => w' = w \/ w' = set_stdin "" w)
                ltac:(intros ? ? ? ? [->| ->]; by right) ltac:(done) ltac:(done)
                tokens [] ∅ w ltac:(by left)) as Hscan.
  cbn beta in Hscan.
  destruct (scan_args _ _ _ _ _ _ w) as [[[got_pos got_kw]|e] w1];
    [|by destruct Hscan as [(_ & _ & ?) ?]].
  unfold bind at 1.
  pose proof (bind_parameters_string_frame got_pos (build_argname2default argspec)
                (args argspec) 0 got_kw [] w1) as Hbp.
  destruct (bind_parameters _ _ _ _ _ _ _ w1) as [[[parsed kw]|e] w2].
  2: { destruct Hbp as [-> Hmsg]. eauto. }
  subst w2. unfold bind at 1. unfold bind_excess.
  destruct (_ <? _)%nat.
  - destruct (truthy_name (varargs argspec)); [|unfold raise; split; by eauto 10].
    unfold bind at 1. rewrite mapM_string. unfold ret at 1. unfold bind at 1.
    destruct (bind_keywords_string (sorted_items kw) ∅ w1) as [m ->]. done.
  - unfold ret at 1. unfold bind at 1.
    destruct (bind_keywords_string (sorted_items kw) ∅ w1) as [m ->]. done.
Qed.

End BinderExtras.
(** Three parameters and two defaults: the second parameter gets the first default. *)
Lemma argname2default_alignment_witness :
  build_argname2default (mkArgSpec ["a"; "b"; "c"] None None (Some [VInt 5; VInt 6])) !! "b"
  = Some (VInt 5).
Proof.
  apply (argname2default_alignment
           (mkArgSpec ["a"; "b"; "c"] None None (Some [VInt 5; VInt 6])) 1 "b").
  - decide_closed.
  - cbn. lia.
  - reflexivity.
Defined.

(** Four values for the three parameters of [weekday]. *)
Lemma too_many_positional_rejected_witness :
  is_ok (@_parse_auto_apply_args Demo.builtins Demo.collaborators
           Demo.weekday_spec ["2014"; "7"; "16"; "3"] "auto" Demo.w0).1 = false
  /\ @_parse_auto_apply_args Demo.builtins Demo.collaborators
       Demo.weekday_spec ["2014"; "7"; "16"; "3"] "string" Demo.w0
     = (Raise (ParseError
          ("Too many positional arguments.  Expected 3 positional argument(s): "
           +:+ "year, month, day.  Got 4 args: 2014 7 16 3")), Demo.w0).
Proof.
  apply (@too_many_positional_rejected Demo.builtins Demo.collaborators
           Demo.weekday_spec ["2014"; "7"; "16"; "3"] "auto" Demo.w0).
  - reflexivity.
  - cbn. lia.
  - reflexivity.
Defined.

(** Two positional tokens and one option for the three parameters of [weekday]. *)
Lemma accepted_positional_count_witness :
  length [VInt 2014; VInt 7; VInt 16] = max (length (args Demo.weekday_spec)) 2
  /\ (length (args Demo.weekday_spec) < 2 -> truthy_name (varargs Demo.weekday_spec) = true).
Proof.
  apply (@accepted_positional_count Demo.builtins Demo.collaborators
           Demo.weekday_spec ["2014"; "--day=16"; "7"] "auto" Demo.w0
           ["2014"; "7"] {["day" := "16"]} Demo.w0
           [VInt 2014; VInt 7; VInt 16] ∅ Demo.w0); by vm_compute.
Defined.

(** [weekday] has no [**kwargs]: an accepted call has no keyword arguments left. *)
Lemma no_varkw_no_kwargs_witness :
  truthy_name (keywords Demo.weekday_spec) = false
  /\ (∅ : gmap string value) = ∅.
Proof.
  split; [reflexivity|].
  apply (@no_varkw_no_kwargs Demo.builtins Demo.collaborators
           Demo.weekday_spec ["2014"; "--day=16"; "7"] "auto" Demo.w0
           [VInt 2014; VInt 7; VInt 16] ∅ Demo.w0); by vm_compute.
Defined.

(** The division by zero in the value of [--extra] is reported as a [ParseError]. *)
Lemma leftover_keyword_errors_wrapped_witness :
  exists argname unparsed_value cause w0,
    (argname, unparsed_value) ∈ [("extra", "1/0")]
    /\ @_parse_value_or_string Demo.builtins Demo.collaborators
         (VStr unparsed_value) "eval" w0 = (Raise cause, Demo.w0)
    /\ if is_Exception cause
       then ParseError ("Error parsing value for --extra=1/0: ZeroDivisionError: "
                        +:+ "integer division or modulo by zero")
            = ParseError ("Error parsing value for --" +:+ argname +:+ "="
                          +:+ unparsed_value +:+ ": " +:+ exn_name cause
                          +:+ ": " +:+ @exn_str Demo.builtins cause)
       else ParseError ("Error parsing value for --extra=1/0: ZeroDivisionError: "
                        +:+ "integer division or modulo by zero") = cause.
Proof.
  apply (@leftover_keyword_errors_wrapped Demo.builtins Demo.collaborators
           "eval" [("extra", "1/0")] ∅ Demo.w0). by vm_compute.
Defined.
Section ScanTokens.
Context `{!PyBuiltins, !Collaborators}.

(** X16: [--] ends the interpretation of tokens: after plain
    positional tokens and a [--], everything that follows is taken as a
    positional value as it stands (wrapped by [repr] outside mode
    [string], so that it evaluates to itself), be it an option, a help
    request or [-]; nothing is read from standard input. *)
Theorem double_dash_ends_options (argspec : ArgSpec)
        (prefix2argname : gmap string (list string)) (arg_mode : string)
        (before after : list string) (w : world) :
  forallb plain_token before = true ->
  scan_args argspec prefix2argname arg_mode (before ++ "--" :: after) [] ∅ w
  = (Ok (before ++ (if String.eqb arg_mode "string" then after
                    else map (fun x => repr (VStr x)) after), ∅), w).
Proof.
  intros Hplain.
  assert (forall pos,
    scan_args argspec prefix2argname arg_mode (before ++ "--" :: after) pos ∅ w
    = (Ok (pos ++ before ++ (if String.eqb arg_mode "string" then after
                             else map (fun x => repr (VStr x)) after), ∅), w)) as Hgen.
  { induction before as [|t before IH]; intros pos.
    - cbn. by destruct (arg_mode =? "string")%string.
    - cbn [forallb] in Hplain. apply andb_prop in Hplain as [Ht Hplain].
      rewrite <- app_comm_cons.
      pose proof (scan_plain argspec prefix2argname arg_mode [t]
                    ltac:(cbn; by rewrite Ht) pos ∅ w) as Hone.
      cbn [scan_args] in Hone |- *.
      destruct (PyStr.mem t ["--?"; "-?"; "?"]); [done|].
      destruct (PyStr.mem t ["--??"; "-??"; "??"]); [done|].
      unfold plain_token in Ht. apply andb_prop in Ht as [Hdash _].
      apply negb_true_iff in Hdash. rewrite Hdash.
      rewrite (IH Hplain). by rewrite <- app_assoc. }
  apply (Hgen []).
Qed.

(** X17: a help request comes before the binding: when the tokens are
    plain positional tokens followed by [?], [-?] or [--?], then
    [_parse_auto_apply_args] raises the help request whatever the
    signature, the argument mode and the tokens after it, and the world
    is as it was: no argument has been evaluated, and too few or too
    many arguments are not reported. *)
Theorem help_request_precedes_binding (argspec : ArgSpec) (arg_mode : string)
        (before after : list string) (h : string) (w : world) :
  forallb plain_token before = true ->
  h ∈ ["--?"; "-?"; "?"] ->
  _parse_auto_apply_args argspec (before ++ h :: after) arg_mode w
  = (Raise ParseInterruptedWantHelp, w).
Proof.
  intros Hplain Hh. unfold _parse_auto_apply_args. unfold bind at 1.
  assert (forall pos,
    scan_args argspec (build_prefix2argname (args argspec)) arg_mode
              (before ++ h :: after) pos ∅ w
    = (Raise ParseInterruptedWantHelp, w)) as ->; [|done].
  induction before as [|t before IH]; intros pos.
  - cbn [app scan_args]. unfold PyStr.mem at 1.
    by rewrite bool_decide_eq_true_2.
  - cbn [forallb] in Hplain. apply andb_prop in Hplain as [Ht Hplain].
    rewrite <- app_comm_cons.
    pose proof (scan_plain argspec (build_prefix2argname (args argspec)) arg_mode [t]
                  ltac:(cbn; by rewrite Ht) pos ∅ w) as Hone.
    cbn [scan_args] in Hone |- *.
    destruct (PyStr.mem t ["--?"; "-?"; "?"]); [done|].
    destruct (PyStr.mem t ["--??"; "-??"; "??"]); [done|].
    unfold plain_token in Ht. apply andb_prop in Ht as [Hdash _].
    apply negb_true_iff in Hdash. rewrite Hdash.
    by apply IH.
Qed.

End ScanTokens.

(** After [--], [--help] and [-] are positional values. *)
Lemma double_dash_ends_options_witness :
  @scan_args Demo.builtins Demo.collaborators Demo.weekday_spec
    (build_prefix2argname (args Demo.weekday_spec)) "string"
    (["2014"] ++ "--" :: ["--help"; "-"]) [] ∅ Demo.w0
  = (Ok (["2014"] ++ ["--help"; "-"], ∅), Demo.w0).
Proof.
  apply (@double_dash_ends_options Demo.builtins Demo.collaborators Demo.weekday_spec
           (build_prefix2argname (args Demo.weekday_spec)) "string" ["2014"]
           ["--help"; "-"] Demo.w0).
  reflexivity.
Defined.

(** Four values for three parameters, then [?] and a value that cannot be
    evaluated: the help request wins. *)
Lemma help_request_precedes_binding_witness :
  @_parse_auto_apply_args Demo.builtins Demo.collaborators Demo.weekday_spec
    (["1"; "2"; "3"; "4"] ++ "?" :: ["1/0"]) "eval" Demo.w0
  = (Raise ParseInterruptedWantHelp, Demo.w0).
Proof.
  apply (@help_request_precedes_binding Demo.builtins Demo.collaborators Demo.weekday_spec
           "eval" ["1"; "2"; "3"; "4"] ["1/0"] "?" Demo.w0).
  - reflexivity.
  - decide_closed.
Defined.
(** ** [auto_apply]: the function, the logged call, the help text *)

Section AutoApplyExtras.
Context `{!PyBuiltins, !Collaborators}.

(** X18: what [_interpret_function_name] returns is callable.  A
    callable argument can only fail for want of a [__name__]; a string
    is evaluated, and fails with [ValueError] (empty, or the evaluation
    raised an [Exception]), with [NotAFunctionError] carrying the
    non-callable value it evaluated to, or with what is not an
    [Exception]; anything else is a [TypeError]. *)
Theorem interpret_function_name_result (function : value) (function_name : option string)
        (w : world) :
  match _interpret_function_name function function_name w with
  | (Ok (f, _), _) => callable f = true
  | (Raise e, w') =>
      if callable function
      then w' = w /\ exists msg, e = OtherException "AttributeError" msg
      else match as_str function with
           | None => w' = w /\ exists msg, e = TypeError msg
           | Some _ =>
               (exists msg, e = ValueError msg)
               \/ (exists obj, e = NotAFunctionError "Not a function" obj
                               /\ callable obj = false)
               \/ is_Exception e = false
           end
  end.
Proof.
  unfold _interpret_function_name.
  destruct (callable function) eqn:Hc.
  - destruct function_name as [n|]; [done|].
    destruct (func_name function); cbn; [done|by eauto].
  - destruct (as_str function) as [s|]; [|cbn; by eauto].
    destruct (PyStr.strip s =? "")%string; [cbn; by eauto|].
    unfold bind, catch.
    destruct (Namespace_auto_eval _ _ _ w) as [[f|e] w1].
    + destruct (callable f) eqn:Hf; cbn; [done|]. right. left. by eauto.
    + destruct (is_Exception e) eqn:He; cbn; [by eauto|]. by right; right.
Qed.

Lemma format_call_parts (P : nat -> result string) (n : nat) :
  forall l,
    (forall i, i ∈ l -> (i < n -> is_ok (P i) = true) /\ (n <= i -> is_ok (P i) = false)) ->
    is_ok ((fix parts (l : list nat) : result (list string) :=
              match l with
              | [] => Ok []
              | i :: l' => match P i with
                           | Ok p => match parts l' with
                                     | Ok ps => Ok (p :: ps)
                                     | Raise e => Raise e
                                     end
                           | Raise e => Raise e
                           end
              end) l)
    = forallb (fun i => i <? n)%nat l.
Proof.
  induction l as [|i l IH]; intros HP; [done|].
  cbn [forallb].
  destruct (HP i ltac:(apply list_elem_of_here)) as [Hlt Hge].
  destruct (Nat.ltb_spec i n) as [Hi|Hi].
  - specialize (Hlt Hi). destruct (P i); [|done].
    rewrite <- IH by (intros; apply HP; by apply list_elem_of_further).
    cbn. by case_match.
  - specialize (Hge Hi). by destruct (P i).
Qed.

Lemma forallb_seq_lt n k : forallb (fun i => i <? n)%nat (seq 0 k) = (k <=? n)%nat.
Proof.
  destruct (Nat.leb_spec k n) as [Hle|Hgt].
  - apply forallb_forall. intros i Hi%list_elem_of_In%elem_of_seq.
    apply Nat.ltb_lt. lia.
  - apply not_true_iff_false. intros Hall. rewrite forallb_forall in Hall.
    specialize (Hall n). rewrite Nat.ltb_irrefl in Hall.
    assert (false = true) as Hfalse; [|done].
    apply Hall. apply list_elem_of_In, elem_of_seq. lia.
Qed.

Lemma format_call_is_ok (function_name : string) (argspec : ArgSpec)
      (args_ : list value) (kwargs : gmap string value) :
  is_ok (_format_call function_name argspec args_ kwargs)
  = forallb (fun i => i <? length args_)%nat
            (seq 0 (max (length args_) (length (args argspec)))).
Proof.
  unfold _format_call.
  set (P := fun i : nat =>
    if (Z.of_nat (length (args argspec))
        - Z.of_nat (length (default [] (defaults argspec))) <=? Z.of_nat i)%Z
       && (length args_ <=? length (args argspec))%nat
    then match args argspec !! i, args_ !! i with
         | Some n, Some v => Ok (n +:+ "=" +:+ repr v)
         | _, _ => Raise (OtherException "IndexError" "list index out of range")
         end
    else match args_ !! i with
         | Some v => Ok (repr v)
         | None => Raise (OtherException "IndexError" "list index out of range")
         end).
  pose proof (format_call_parts P (length args_)
                (seq 0 (max (length args_) (length (args argspec))))) as Hparts.
  cbv beta in Hparts.
  match goal with
  | |- is_ok (match ?f ?l with _ => _ end) = _ =>
      transitivity (is_ok (f l)); [by destruct (f l)|]
  end.
  apply Hparts. intros i _. subst P. cbn beta. split.
  - intros Hi. destruct (lookup_lt_is_Some_2 args_ i Hi) as [v Hv]. rewrite Hv.
    destruct (_ && _) eqn:Hc; [|done].
    apply andb_prop in Hc as [_ Hle%Nat.leb_le].
    by destruct (lookup_lt_is_Some_2 (args argspec) i ltac:(lia)) as [n ->].
  - intros Hi. rewrite (lookup_ge_None_2 args_ i Hi).
    by repeat case_match.
Qed.

(** X19: [_format_call] fails, with an [IndexError], exactly when it
    is given fewer positional values than the function has declared
    parameters. *)
Theorem format_call_defined (function_name : string) (argspec : ArgSpec)
        (args_ : list value) (kwargs : gmap string value) :
  is_ok (_format_call function_name argspec args_ kwargs)
  = (length (args argspec) <=? length args_)%nat.
Proof.
  rewrite format_call_is_ok, forallb_seq_lt.
  destruct (Nat.leb_spec (length (args argspec)) (length args_));
    [apply Nat.leb_le|apply Nat.leb_gt]; lia.
Qed.
Lemma parse_auto_apply_args_length argspec tokens arg_mode w parsed_args parsed_kwargs w' :
  _parse_auto_apply_args argspec tokens arg_mode w = (Ok (parsed_args, parsed_kwargs), w') ->
  length (args argspec) <= length parsed_args.
Proof.
  unfold _parse_auto_apply_args. unfold bind at 1.
  destruct (scan_args _ _ _ _ _ _ w) as [[[got_pos got_kw]|e] w1]; [|done].
  unfold bind at 1.
  destruct (bind_parameters _ _ _ _ _ _ _ w1) as [[[parsed kw]|e] w2] eqn:Hbp; [|done].
  apply bind_parameters_ok in Hbp as (Hlen & _). cbn in Hlen.
  unfold bind at 1.
  destruct (bind_excess _ _ _ _ w2) as [[parsed'|e] w3] eqn:Hex; [|done].
  apply bind_excess_ok in Hex.
  unfold bind at 1.
  destruct (bind_keywords _ _ _ w3) as [[kws|e] w4]; [|done].
  intros [= <- <- <-]. lia.
Qed.

(** X20: once the function is found and its arguments are bound,
    [auto_apply] cannot fail before the call: formatting the call
    succeeds, the formatted call is logged, and the outcome of
    [auto_apply] is the outcome of calling the function on the bound
    arguments, be it a value or an exception. *)
Theorem auto_apply_calls_function (function : value) (tokens : list string)
        (arg_mode function_name : option string) (w : world)
        f name m argspec w1 args_ kwargs w2 :
  _interpret_function_name function function_name w = (Ok (f, name), w1) ->
  _interpret_arg_mode arg_mode "auto" = Ok m ->
  _get_argspec f = Ok argspec ->
  _parse_auto_apply_args argspec tokens m w1 = (Ok (args_, kwargs), w2) ->
  exists call,
    _format_call name argspec args_ kwargs = Ok call
    /\ auto_apply function tokens arg_mode function_name w
       = call_function f args_ kwargs (add_log_info call w2).
Proof.
  intros Hf Hm Hspec Hparse.
  pose proof (parse_auto_apply_args_length _ _ _ _ _ _ _ Hparse) as Hlen.
  pose proof (format_call_is_ok name argspec args_ kwargs) as Hfmt.
  rewrite forallb_seq_lt in Hfmt.
  assert ((max (length args_) (length (args argspec)) <=? length args_)%nat = true) as Hmax
    by (apply Nat.leb_le; lia).
  rewrite Hmax in Hfmt.
  destruct (_format_call name argspec args_ kwargs) as [call|e] eqn:Hcall; [|done].
  exists call. split; [done|].
  unfold auto_apply.
  rewrite (bind_ok _ _ _ _ _ Hf). rewrite Hm. unfold bind at 1, lift at 1.
  rewrite Hspec. unfold bind at 1, lift at 1.
  unfold bind at 1, catch. rewrite Hparse.
  rewrite Hcall. done.
Qed.

(** X21: the sections of a help text.  [_get_help] returns for the
    verbosities 0, 1 and 2 only.  At verbosity 1 the text ends with the
    docstring section, with ["(No docstring)"] for an object that has
    none.  At verbosity 2 it ends with the source section when the
    source is available, and falls back to the docstring section when
    it is not. *)
Theorem get_help_sections (obj : value) (name : string) (verbosity : Z) (w : world)
        (result : string) (w' : world) :
  _get_help obj name verbosity w = (Ok result, w') ->
  let doc := PyStr.strip (default "" (getdoc obj)) in
  let docstring := nl +:+ "Docstring:" +:+ nl
                   +:+ indent (if String.eqb doc "" then "(No docstring)" else doc) "  " in
  verbosity ∈ [0; 1; 2]%Z
  /\ (verbosity = 1%Z -> exists before, result = before +:+ docstring)
  /\ (verbosity = 2%Z ->
      match getsource obj with
      | Some (String _ _ as source) =>
          exists before,
            result = before +:+ nl +:+ "Source:" +:+ nl +:+ indent source "  " +:+ nl
      | _ => exists before, result = before +:+ docstring
      end).
Proof.
  intros Hhelp doc docstring. revert Hhelp. unfold _get_help. unfold bind at 1.
  match goal with
  | |- context [(if callable obj then ?a else ?b) w] =>
      destruct ((if callable obj then a else b) w) as [[usage|e] w1]; [|done]
  end.
  unfold bind, ret, raise.
  destruct (Z.eqb_spec verbosity 0) as [->|Hv0].
  { intros _. split; [set_solver|]. split; intros; done. }
  destruct (Z.eqb_spec verbosity 1) as [->|Hv1].
  { cbn beta iota. intros Hhelp. split; [set_solver|]. split; [|done]. intros _.
    subst docstring doc. revert Hhelp.
    repeat case_match; intros [= <- <-]; by eexists. }
  destruct (Z.eqb_spec verbosity 2) as [->|Hv2]; [|done].
  cbn beta iota. intros Hhelp. split; [set_solver|]. split; [done|]. intros _.
  subst docstring doc. revert Hhelp.
  destruct (getsource obj) as [[|c source]|]; repeat case_match;
    intros [= <- <-]; by eexists.
Qed.

End AutoApplyExtras.

(** The help for a value without source and without docstring, at verbosity 2. *)
Lemma get_help_sections_witness :
  (2 ∈ [0; 1; 2])%Z
  /\ ((2 = 1)%Z -> exists before,
        nl +:+ "Docstring:" +:+ nl +:+ "  (No docstring)"
        = before +:+ nl +:+ "Docstring:" +:+ nl +:+ "  (No docstring)")
  /\ ((2 = 2)%Z -> exists before,
        nl +:+ "Docstring:" +:+ nl +:+ "  (No docstring)"
        = before +:+ nl +:+ "Docstring:" +:+ nl +:+ "  (No docstring)").
Proof.
  exact (@get_help_sections Demo.builtins Demo.collaborators (VInt 7) "seven" 2 Demo.w0
           _ Demo.w0 eq_refl).
Defined.
(** [weekday 2014 7 16]: the call is formatted, logged and made. *)
Lemma auto_apply_calls_function_witness :
  exists call,
    @_format_call Demo.builtins Demo.collaborators "weekday" Demo.weekday_spec
      [VInt 2014; VInt 7; VInt 16] ∅ = Ok call
    /\ @auto_apply Demo.builtins Demo.collaborators (VStr "weekday") ["2014"; "7"; "16"]
         (Some "auto") None Demo.w0
       = @call_function Demo.collaborators Demo.weekday [VInt 2014; VInt 7; VInt 16] ∅
           (add_log_info call Demo.w0).
Proof.
  apply (@auto_apply_calls_function Demo.builtins Demo.collaborators
           (VStr "weekday") ["2014"; "7"; "16"] (Some "auto") None Demo.w0
           Demo.weekday "weekday" "auto" Demo.weekday_spec Demo.w0
           [VInt 2014; VInt 7; VInt 16] ∅ Demo.w0); by vm_compute.
Defined.
(** ** [SysArgvCtx]: how the context ends *)

Section SysArgvExtras.
Context `{!PyBuiltins}.

(** [SysArgvCtx] from the point where the body starts. *)
Lemma SysArgvCtx_enter (args_ : list value) (body : M unit) (w : world) l :
  args_ <> [] -> sys_argv w = ArgvList l ->
  SysArgvCtx args_ body w
  = match body (SysArgvCtx_entered args_ w) with
    | (Raise e, w2) => (Raise e, set_sys_argv (ArgvList l) w2)
    | (Ok _, w2) =>
        match LL.unaccessed (heap w2 (next_addr w)) with
        | [] => (Ok tt, set_sys_argv (ArgvList l) w2)
        | u :: us =>
            match unaccessed_message (length args_ - 1) (u :: us) with
            | Ok msg => (Raise (SystemExit (VInt 1)),
                         set_sys_argv (ArgvList l) (add_log_error msg w2))
            | Raise e => (Raise e, set_sys_argv (ArgvList l) w2)
            end
        end
    end.
Proof.
  intros Hne Hargv. unfold SysArgvCtx.
  destruct args_ as [|a0 rest]; [done|].
  unfold bind at 1, LoggedList_new at 1.
  unfold bind at 1, LoggedList_getitem at 1.
  cbn [heap set_heap next_addr]. rewrite fn_lookup_insert.
  cbn [LoggedList_init ll_items ll_unaccessed lookup list_lookup map length Nat.ltb Nat.leb].
  unfold bind at 1, list_sys_argv at 1.
  cbn [sys_argv set_heap]. rewrite Hargv.
  unfold try_finally. unfold bind at 1. cbn [set_sys_argv].
  unfold bind at 1.
  match goal with
  | |- context [body ?w1] =>
      assert (w1 = SysArgvCtx_entered (a0 :: rest) w) as ->
  end.
  { done. }
  destruct (body _) as [[[]|e] w2]; [|done].
  unfold bind at 1, LoggedList_unaccessed at 1. unfold LL.unaccessed.
  destruct (omap id _) as [|u us]; [done|].
  unfold bind at 1, lift.
  by destruct (unaccessed_message _ _).
Qed.
Lemma join_values_from_strings i (ss : list string) :
  join_values_from i (map VStr ss) = Ok ss.
Proof.
  revert i. induction ss as [|s ss IH]; intros i; [done|].
  cbn. by rewrite IH.
Qed.

Lemma join_values_from_not_str i (l : list value) :
  existsb (fun v => negb (bool_decide (is_Some (as_str v)))) l = true ->
  exists msg, join_values_from i l = Raise (TypeError msg).
Proof.
  revert i. induction l as [|v l IH]; intros i; [done|].
  cbn [existsb join_values_from]. destruct (as_str v) as [s|] eqn:Hv.
  - rewrite bool_decide_eq_true_2 by eauto. cbn.
    intros Hl. destruct (IH (S i) Hl) as [msg ->]. eauto.
  - intros _. eauto.
Qed.

(** X22: the context makes no complaint when the body raises or has
    used every argument: an exception of the body comes out as it is,
    with nothing logged after it, and a body that returns with no entry
    of the list left unaccessed makes the context return. *)
Theorem SysArgvCtx_no_complaint (args_ : list value) (body : M unit) (w : world) l :
  args_ <> [] -> sys_argv w = ArgvList l ->
  match body (SysArgvCtx_entered args_ w) with
  | (Raise e, w2) =>
      SysArgvCtx args_ body w = (Raise e, set_sys_argv (ArgvList l) w2)
  | (Ok _, w2) =>
      LL.unaccessed (heap w2 (next_addr w)) = [] ->
      SysArgvCtx args_ body w = (Ok tt, set_sys_argv (ArgvList l) w2)
  end.
Proof.
  intros Hne Hargv. rewrite (SysArgvCtx_enter _ _ _ _ Hne Hargv).
  destruct (body _) as [[[]|e] w2]; [|done]. by intros ->.
Qed.

(** X23: arguments left unused are fatal: when the body returns and
    the entries it left unaccessed are strings, the context logs one
    error that lists them, with the wording for one argument, for all
    of several, or for some of several, and raises [SystemExit(1)]. *)
Theorem SysArgvCtx_unused_arguments_fatal (args_ : list value) (body : M unit)
        (w : world) l w2 (u : string) (us : list string) :
  args_ <> [] -> sys_argv w = ArgvList l ->
  body (SysArgvCtx_entered args_ w) = (Ok tt, w2) ->
  LL.unaccessed (heap w2 (next_addr w)) = map VStr (u :: us) ->
  let nargs := length args_ - 1 in
  let msg :=
    if (nargs =? 1)%nat
    then "the command-line argument was not used: " +:+ str_ (VStr u)
    else if (length (u :: us) =? nargs)%nat
    then "all " +:+ pretty (length (u :: us))
         +:+ " command-line arguments were not used: " +:+ PyStr.join " " (u :: us)
    else pretty (length (u :: us)) +:+ " of " +:+ pretty nargs
         +:+ " command-line arguments were not used: " +:+ PyStr.join " " (u :: us) in
  SysArgvCtx args_ body w
  = (Raise (SystemExit (VInt 1)), set_sys_argv (ArgvList l) (add_log_error msg w2)).
Proof.
  intros Hne Hargv Hbody Hun nargs msg.
  rewrite (SysArgvCtx_enter _ _ _ _ Hne Hargv), Hbody, Hun.
  cbn [map]. unfold unaccessed_message. fold nargs.
  change (VStr u :: map VStr us) with (map VStr (u :: us)).
  unfold join_values. rewrite join_values_from_strings, length_map.
  subst msg. clearbody nargs.
  destruct (nargs =? 1)%nat; [done|].
  by destruct (length (u :: us) =? nargs)%nat.
Qed.

(** X24: the complaint itself fails when more or fewer than one
    argument was passed and an entry left unaccessed is not a string:
    joining the entries raises [TypeError], so the context ends in that
    [TypeError], with no error logged and no [SystemExit]. *)
Theorem SysArgvCtx_complaint_type_error (args_ : list value) (body : M unit)
        (w : world) l w2 :
  args_ <> [] -> sys_argv w = ArgvList l ->
  body (SysArgvCtx_entered args_ w) = (Ok tt, w2) ->
  length args_ - 1 <> 1 ->
  existsb (fun v => negb (bool_decide (is_Some (as_str v))))
          (LL.unaccessed (heap w2 (next_addr w))) = true ->
  exists msg,
    SysArgvCtx args_ body w = (Raise (TypeError msg), set_sys_argv (ArgvList l) w2).
Proof.
  intros Hne Hargv Hbody Hnargs Hbad.
  rewrite (SysArgvCtx_enter _ _ _ _ Hne Hargv), Hbody.
  destruct (LL.unaccessed _) as [|v vs]; [done|].
  unfold unaccessed_message. apply Nat.eqb_neq in Hnargs. rewrite Hnargs.
  unfold join_values.
  destruct (join_values_from_not_str 0 _ Hbad) as [msg ->]. eauto.
Qed.

End SysArgvExtras.

(** A body that reads its one argument. *)
Lemma SysArgvCtx_no_complaint_witness :
  @SysArgvCtx Demo.builtins [VStr "-c"; VStr "x"] (LoggedList_getitem 0 1 ;; ret tt) Demo.w0
  = (Ok tt,
     set_sys_argv (ArgvList [VStr "py"])
       ((LoggedList_getitem 0 1 ;; ret tt)
          (SysArgvCtx_entered [VStr "-c"; VStr "x"] Demo.w0)).2).
Proof.
  pose proof (@SysArgvCtx_no_complaint Demo.builtins [VStr "-c"; VStr "x"]
                (LoggedList_getitem 0 1 ;; ret tt) Demo.w0 [VStr "py"]
                ltac:(done) eq_refl) as Hctx.
  destruct ((LoggedList_getitem 0 1 ;; ret tt)
              (SysArgvCtx_entered [VStr "-c"; VStr "x"] Demo.w0)) as [[[]|e] w2] eqn:Hbody;
    [|by vm_compute in Hbody].
  apply Hctx.
  assert (w2 = ((LoggedList_getitem 0 1 ;; ret tt)
                  (SysArgvCtx_entered [VStr "-c"; VStr "x"] Demo.w0)).2) as ->
    by by rewrite Hbody.
  by vm_compute.
Defined.

(** A body that reads the first of its two arguments. *)
Lemma SysArgvCtx_unused_arguments_fatal_witness :
  @SysArgvCtx Demo.builtins [VStr "-c"; VStr "x"; VStr "y"] (LoggedList_getitem 0 1 ;; ret tt)
    Demo.w0
  = (Raise (SystemExit (VInt 1)),
     set_sys_argv (ArgvList [VStr "py"])
       (add_log_error "1 of 2 command-line arguments were not used: y"
          ((LoggedList_getitem 0 1 ;; ret tt)
             (SysArgvCtx_entered [VStr "-c"; VStr "x"; VStr "y"] Demo.w0)).2)).
Proof.
  apply (@SysArgvCtx_unused_arguments_fatal Demo.builtins [VStr "-c"; VStr "x"; VStr "y"]
           (LoggedList_getitem 0 1 ;; ret tt) Demo.w0 [VStr "py"] _ "y" []);
    [done|reflexivity|by vm_compute|by vm_compute].
Defined.

(** Two integer arguments, none of them read. *)
Lemma SysArgvCtx_complaint_type_error_witness :
  exists msg,
    @SysArgvCtx Demo.builtins [VStr "-c"; VInt 3; VInt 7] (ret tt) Demo.w0
    = (Raise (TypeError msg),
       set_sys_argv (ArgvList [VStr "py"])
         (SysArgvCtx_entered [VStr "-c"; VInt 3; VInt 7] Demo.w0)).
Proof.
  apply (@SysArgvCtx_complaint_type_error Demo.builtins [VStr "-c"; VInt 3; VInt 7]
           (ret tt) Demo.w0 [VStr "py"]);
    [done|reflexivity|reflexivity|cbn; lia|by vm_compute].
Defined.
(** ** Global options and the actions *)

Section DispatcherExtras.
Context `{!PyBuiltins, !Collaborators}.

Lemma same_but_refl w : same_but_level_and_environ w w.
Proof. by repeat split. Qed.

Lemma same_but_trans w1 w2 w3 :
  same_but_level_and_environ w1 w2 -> same_but_level_and_environ w2 w3 ->
  same_but_level_and_environ w1 w3.
Proof.
  unfold same_but_level_and_environ. intros H12 H23.
  destruct_and!. repeat split; congruence.
Qed.

Lemma same_but_level w b : same_but_level_and_environ w (set_info_enabled b w).
Proof. by repeat split. Qed.

Lemma same_but_environ w k v : same_but_level_and_environ w (set_environ k v w).
Proof. by repeat split. Qed.

(** What the loop over the global options keeps: the tokens left are
    the end of the tokens it was given, the modes are canonical once
    set, and the world changes in the logging level and the environment
    only. *)
Lemma parse_global_opts_loop_invariant (Pa Po : option string -> Prop) :
  (forall arg d m, _interpret_arg_mode arg d = Ok m -> Pa (Some m)) ->
  (forall arg d m, _interpret_output_mode arg d = Ok m -> Po (Some m)) ->
  forall tokens am om w,
    Pa am -> Po om ->
    match parse_global_opts_loop tokens am om w with
    | (Ok (am', om', remaining), w') =>
        remaining `suffix_of` tokens /\ Pa am' /\ Po om' /\ same_but_level_and_environ w w'
    | (Raise _, w') => same_but_level_and_environ w w'
    end.
Proof.
  intros HPa HPo tokens.
  remember (length tokens) as n eqn:Hn.
  revert tokens Hn. induction (lt_wf n) as [n _ IH]. intros tokens Hn am om w Ham Hom.
  subst n.
  assert (Hrec : forall ts am om w1,
             length ts < length tokens -> ts `suffix_of` tokens ->
             Pa am -> Po om -> same_but_level_and_environ w w1 ->
             match parse_global_opts_loop ts am om w1 with
             | (Ok (am', om', remaining), w') =>
                 remaining `suffix_of` tokens /\ Pa am' /\ Po om'
                 /\ same_but_level_and_environ w w'
             | (Raise _, w') => same_but_level_and_environ w w'
             end).
  { intros ts am1 om1 w1 Hlt Hsuf Ham1 Hom1 Hw1.
    pose proof (IH (length ts) Hlt ts eq_refl am1 om1 w1 Ham1 Hom1) as Hts.
    destruct (parse_global_opts_loop ts am1 om1 w1) as [[[[am' om'] remaining]|e] w'].
    - destruct Hts as (Hl & ? & ? & Hw').
      split; [by etrans|]. split; [done|]. split; [done|]. by eapply same_but_trans.
    - by eapply same_but_trans. }
  clear IH.
  destruct tokens as [|arg rest].
  { cbn. split; [done|]. split; [done|]. split; [done|]. apply same_but_refl. }
  assert (Hrest : rest `suffix_of` arg :: rest) by (by apply suffix_cons_r).
  cbn [parse_global_opts_loop].
  destruct (PyStr.startswith arg "-"); cbn [negb].
  2: { cbn. split; [done|]. split; [done|]. split; [done|]. apply same_but_refl. }
  destruct (PyStr.partition "=" _) as [[argname equalsign] value].
  destruct (PyStr.mem argname ["debug"; "pdb"; "ipdb"; "dbg"]).
  { cbn. apply same_but_refl. }
  assert (Hnovalue : forall (k : M (option string * option string * list string)) ,
    (equalsign = "" ->
     match k w with
     | (Ok (am', om', remaining), w') =>
         remaining `suffix_of` arg :: rest /\ Pa am' /\ Po om'
         /\ same_but_level_and_environ w w'
     | (Raise _, w') => same_but_level_and_environ w w'
     end) ->
    match ((if negb (equalsign =? "")%string
            then raise (ValueError ("unexpected argument " +:+ arg)) else ret tt) ;; k) w with
    | (Ok (am', om', remaining), w') =>
        remaining `suffix_of` arg :: rest /\ Pa am' /\ Po om'
        /\ same_but_level_and_environ w w'
    | (Raise _, w') => same_but_level_and_environ w w'
    end).
  { intros k Hk. unfold bind at 1.
    destruct (String.eqb_spec equalsign "") as [E|E]; cbn; [by apply Hk|apply same_but_refl]. }
  destruct (argname =? "verbose")%string.
  { apply Hnovalue. intros _. unfold bind at 1, logger_set_level.
    apply Hrec; [cbn; lia|done|done|done|apply same_but_level]. }
  destruct (PyStr.mem argname ["quiet"; "q"]).
  { apply Hnovalue. intros _. unfold bind at 1, logger_set_level.
    apply Hrec; [cbn; lia|done|done|done|apply same_but_level]. }
  destruct (PyStr.mem argname ["safe"]).
  { apply Hnovalue. intros _. unfold bind at 1, lift.
    destruct (_interpret_arg_mode (Some "string") "auto") as [m|e] eqn:Em;
      [|apply same_but_refl].
    unfold bind at 1, environ_set at 1. unfold bind at 1, environ_set at 1.
    unfold bind at 1, environ_set at 1.
    apply Hrec; [cbn; lia|done|by eapply HPa|done|].
    eapply same_but_trans; [|apply same_but_environ].
    eapply same_but_trans; [|apply same_but_environ].
    apply same_but_environ. }
  destruct (PyStr.mem argname ["arguments"; "argument"; "args"; "arg";
                               "arg_mode"; "arg-mode"; "argmode"]).
  { destruct (negb (equalsign =? "")%string).
    - unfold bind at 1, lift.
      destruct (_interpret_arg_mode (Some value) "auto") as [m|e] eqn:Em;
        [|apply same_but_refl].
      apply Hrec; [cbn; lia|done|by eapply HPa|done|apply same_but_refl].
    - destruct rest as [|v rest']; [cbn; apply same_but_refl|].
      unfold bind at 1, lift.
      destruct (_interpret_arg_mode (Some v) "auto") as [m|e] eqn:Em;
        [|apply same_but_refl].
      apply Hrec; [cbn; lia|by do 2 apply suffix_cons_r|by eapply HPa|done
                  |apply same_but_refl]. }
  destruct (PyStr.mem argname ["output"; "output_mode"; "output-mode"; "out";
                               "outmode"; "out_mode"; "out-mode"; "o"]).
  { destruct (negb (equalsign =? "")%string).
    - unfold bind at 1, lift.
      destruct (_interpret_output_mode (Some value) "interactive") as [m|e] eqn:Em;
        [|apply same_but_refl].
      apply Hrec; [cbn; lia|done|done|by eapply HPo|apply same_but_refl].
    - destruct rest as [|v rest']; [cbn; apply same_but_refl|].
      unfold bind at 1, lift.
      destruct (_interpret_output_mode (Some v) "interactive") as [m|e] eqn:Em;
        [|apply same_but_refl].
      apply Hrec; [cbn; lia|by do 2 apply suffix_cons_r|done|by eapply HPo
                  |apply same_but_refl]. }
  destruct (PyStr.mem argname ["print"; "pprint"; "silent"; "repr"]).
  { apply Hnovalue. intros _. unfold bind at 1, lift.
    destruct (_interpret_output_mode (Some argname) "interactive") as [m|e] eqn:Em;
      [|apply same_but_refl].
    apply Hrec; [cbn; lia|done|done|by eapply HPo|apply same_but_refl]. }
  cbn. split; [done|]. split; [done|]. split; [done|]. apply same_but_refl.
Qed.
(** X25: when [_parse_global_opts] returns, the arguments that are
    left for the action are the end of the arguments it was given (none
    is changed, reordered or invented), and the argument mode and the
    output mode, once an option has set them, are canonical names. *)
Theorem parse_global_opts_result (self : PyMain) (w : world) self' w' :
  _parse_global_opts self w = (Ok self', w') ->
  main_args self' = main_args self
  /\ args_left self' `suffix_of` main_args self
  /\ (forall m, arg_mode self' = Some m -> m ∈ ["eval"; "string"; "auto"; "error"])
  /\ (forall m, output_mode self' = Some m ->
        m ∈ ["silent"; "interactive"; "str"; "repr"; "pprint";
             "repr-if-not-none"; "pprint-if-not-none"; "exit"]).
Proof.
  unfold _parse_global_opts, bind.
  pose proof (parse_global_opts_loop_invariant
                (fun am => forall m, am = Some m -> m ∈ ["eval"; "string"; "auto"; "error"])
                (fun om => forall m, om = Some m ->
                   m ∈ ["silent"; "interactive"; "str"; "repr"; "pprint";
                        "repr-if-not-none"; "pprint-if-not-none"; "exit"])) as Hinv.
  cbn beta in Hinv.
  specialize (Hinv ltac:(intros arg d m Hm m' [= <-]; by eapply interpret_arg_mode_in)
                   ltac:(intros arg d m Hm m' [= <-]; by eapply interpret_output_mode_in)
                   (main_args self) None None w ltac:(done) ltac:(done)).
  destruct (parse_global_opts_loop _ _ _ w) as [[[[am om] remaining]|e] w1]; [|done].
  intros [= <- <-]. cbn. by destruct Hinv as (? & ? & ? & _).
Qed.

(** X26: parsing the global options evaluates nothing and prints
    nothing: whether it returns or raises, the world differs from the
    one before in the logging level and the environment variables at
    most. *)
Theorem parse_global_opts_frame (self : PyMain) (w : world) :
  same_but_level_and_environ w (_parse_global_opts self w).2.
Proof.
  unfold _parse_global_opts, bind.
  pose proof (parse_global_opts_loop_invariant (fun _ => True) (fun _ => True)
                ltac:(done) ltac:(done) (main_args self) None None w I I) as Hinv.
  destruct (parse_global_opts_loop _ _ _ w) as [[[[am om] remaining]|e] w1]; [|done].
  by destruct Hinv as (_ & _ & _ & ?).
Qed.

(** X27: [run] copies [sys.argv] into [sys.orig_argv] before anything
    else, and the copy is still there, with [sys.argv] unchanged, when
    the action starts: the usage text can rely on it. *)
Theorem run_sets_orig_argv (self : PyMain) (w : world) (l : list value) :
  sys_argv w = ArgvList l ->
  match _parse_global_opts self (set_sys_orig_argv l w) with
  | (Ok self', w1) =>
      sys_orig_argv w1 = Some l /\ sys_argv w1 = ArgvList l
      /\ run self w = (_run_action self' ;; matplotlib_show) w1
  | (Raise e, w1) => run self w = (Raise e, w1)
  end.
Proof.
  intros Hargv.
  pose proof (parse_global_opts_loop_invariant (fun _ => True) (fun _ => True)
                ltac:(done) ltac:(done) (main_args self) None None
                (set_sys_orig_argv l w) I I) as Hinv.
  unfold run, bind, list_sys_argv. rewrite Hargv.
  unfold _parse_global_opts, bind in *.
  destruct (parse_global_opts_loop _ _ _ _) as [[[[am om] remaining]|e] w1]; [|done].
  destruct Hinv as (_ & _ & _ & _ & _ & _ & _ & _ & Hsys & Horig & _).
  cbn in Hsys, Horig. unfold ret. by rewrite Hsys, Horig.
Qed.

(** X28: in argument mode [error] (what an implied [--eval] uses),
    [eval] refuses arguments before it runs anything: with at least one
    argument it raises the [ValueError] that names the first one, and
    the world is as it was. *)
Theorem eval_error_mode_rejects_arguments (self : PyMain) (cmd : block)
        (a : string) (cmd_args : list string) (w : world) om :
  _interpret_arg_mode (arg_mode self) "string" = Ok "error" ->
  _interpret_output_mode (output_mode self) "interactive" = Ok om ->
  eval self cmd (a :: cmd_args) w
  = (Raise (ValueError ("Expected no arguments; got " +:+ repr (VStr a))), w).
Proof.
  intros Ham Hom. unfold eval. rewrite Ham, Hom.
  unfold bind at 1, lift at 1. unfold bind at 1, lift at 1.
  unfold bind at 1. unfold parse_cmd_args. cbn [mapM]. by unfold bind at 1.
Qed.

(** X29: in argument mode [string] (the default), [execfile] of a file
    that does not exist raises ["No such file"] before anything is run:
    [sys.argv] is not replaced, nothing is read or printed, the world is
    as it was. *)
Theorem execfile_missing_file (self : PyMain) (filename : string)
        (cmd_args : list string) (w : world) om :
  _interpret_arg_mode (arg_mode self) "string" = Ok "string" ->
  _interpret_output_mode (output_mode self) "interactive" = Ok om ->
  filename <> "-" ->
  filename_safe filename = true ->
  filename_exists filename w = false ->
  execfile self filename cmd_args w
  = (Raise (OtherException "Exception" ("No such file: " +:+ filename_str filename)), w).
Proof.
  intros Ham Hom Hdash Hsafe Hexists. unfold execfile. rewrite Ham, Hom.
  unfold bind at 1, lift at 1. unfold bind at 1, lift at 1.
  unfold bind at 1. unfold parse_cmd_args. rewrite mapM_string.
  apply String.eqb_neq in Hdash. rewrite Hdash, Hsafe. cbn [negb].
  unfold bind at 1. unfold ret at 1. unfold bind at 1.
  cbn [block_str]. by rewrite Hexists.
Qed.

End DispatcherExtras.
(** Three global options, then the action's own tokens. *)
Lemma parse_global_opts_result_witness :
  let self := mkPyMain ["--args=E"; "-q"; "--output"; "R"; "f"; "--x"] None None [] in
  let self' := mkPyMain (main_args self) (Some "eval") (Some "repr") ["f"; "--x"] in
  main_args self' = main_args self
  /\ args_left self' `suffix_of` main_args self
  /\ (forall m, arg_mode self' = Some m -> m ∈ ["eval"; "string"; "auto"; "error"])
  /\ (forall m, output_mode self' = Some m ->
        m ∈ ["silent"; "interactive"; "str"; "repr"; "pprint";
             "repr-if-not-none"; "pprint-if-not-none"; "exit"]).
Proof.
  intros self self'.
  apply (@parse_global_opts_result Demo.builtins
           self Demo.w0 self' (set_info_enabled false Demo.w0)).
  by vm_compute.
Defined.

(** [py --args=E f] on a [sys.argv] of [["py"]]. *)
Lemma run_sets_orig_argv_witness :
  let self := mkPyMain ["--args=E"; "f"] None None [] in
  match @_parse_global_opts Demo.builtins self (set_sys_orig_argv [VStr "py"] Demo.w0) with
  | (Ok self', w1) =>
      sys_orig_argv w1 = Some [VStr "py"] /\ sys_argv w1 = ArgvList [VStr "py"]
      /\ @run Demo.builtins Demo.collaborators self Demo.w0
         = (@_run_action Demo.builtins Demo.collaborators self'
            ;; @matplotlib_show Demo.collaborators) w1
  | (Raise e, w1) => @run Demo.builtins Demo.collaborators self Demo.w0 = (Raise e, w1)
  end.
Proof.
  intros self.
  apply (@run_sets_orig_argv Demo.builtins Demo.collaborators self Demo.w0 [VStr "py"]).
  reflexivity.
Defined.

(** [eval] of [1] with two arguments in mode [error]. *)
Lemma eval_error_mode_rejects_arguments_witness :
  @eval Demo.builtins Demo.collaborators
    (mkPyMain [] (Some "error") None []) (BlockText "1") ["x"; "y"] Demo.w0
  = (Raise (ValueError "Expected no arguments; got 'x'"), Demo.w0).
Proof.
  apply (@eval_error_mode_rejects_arguments Demo.builtins Demo.collaborators
           (mkPyMain [] (Some "error") None []) (BlockText "1") "x" ["y"] Demo.w0
           "interactive"); reflexivity.
Defined.

(** [missing.py] does not exist. *)
Lemma execfile_missing_file_witness :
  @execfile Demo.builtins Demo.collaborators
    (mkPyMain [] None None []) "missing.py" ["x"] Demo.w0
  = (Raise (OtherException "Exception" "No such file: missing.py"), Demo.w0).
Proof.
  apply (@execfile_missing_file Demo.builtins Demo.collaborators
           (mkPyMain [] None None []) "missing.py" ["x"] Demo.w0 "interactive");
    try reflexivity. done.
Defined.
(** ** The [heuristic_cmd] action *)

Section HeuristicExtras.
Context `{!PyBuiltins, !Collaborators}.






End HeuristicExtras.

